(** * The /analyze request flow of the interview analyzer backend

    A shallow embedding of the Express handler [app.post('/analyze', ...)]
    and of its helper [uploadFileToGemini], together with the two JavaScript
    built-ins the handler's result depends on: [String.prototype.match] for
    the one regular expression the handler uses, and [JSON.parse].

    JavaScript strings are modelled as [string] (the UTF-8 bytes of the
    text).  The regular expression only mentions ASCII characters and
    [[\s\S]], so matching on bytes and matching on UTF-16 code units pick
    the same occurrence. *)

From Stdlib Require Import String Ascii List ZArith NArith Bool Arith Lia.
From Stdlib Require DecimalString DecimalNat DecimalFacts.
Import ListNotations.

Open Scope string_scope.

#[local] Set Warnings "-register-all".

(** ** JSON values and [JSON.parse] *)

Module Json.

(** A JavaScript number as [JSON.parse] can give it: a zero with its sign,
    a finite double [m * 2 ^ e] with [m] odd, or an infinity (a literal too
    large for a double).  [8], [8.0] and [80e-1] are the same number. *)
Inductive Number : Set :=
| Zero (negative : bool)
| Finite (m e : Z)
| Infinite (negative : bool).

Inductive JSON : Set :=
| JNull
| JBool (b : bool)
| JNumber (n : Number)
| JString (s : string)
| JArray (xs : list JSON)
| JObject (members : list (string * JSON)).

(** Drops the factors of two of [m], at most [fuel] of them. *)
Fixpoint odd_part (fuel : nat) (m e : Z) : Z * Z :=
  match fuel with
  | O => (m, e)
  | S fuel' => if Z.even m then odd_part fuel' (m / 2) (e + 1) else (m, e)
  end.

(** The double nearest to [m * 10 ^ e10] for [0 <= m], ties to the even
    mantissa, with the sign [neg]: the binary exponent [k] is chosen so that
    the quotient by [2 ^ k] has 53 bits, or is -1074 for a subnormal; the
    quotient is rounded; a result of more than 1024 bits is an infinity.
    The two tests on the size come first so that a huge exponent is never
    raised: [2 ^ (3 e) <= 10 ^ e]. *)
Definition round_to_double (neg : bool) (m e10 : Z) : Number :=
  if (m =? 0)%Z then Zero neg
  else if ((0 <=? e10) && (1024 <=? Z.log2 m + 3 * e10))%Z then Infinite neg
  else if ((e10 <? 0) && (Z.log2 m + 1 + 3 * e10 <=? -1076))%Z then Zero neg
  else
    let num := if (0 <=? e10)%Z then (m * 10 ^ e10)%Z else m in
    let den := if (0 <=? e10)%Z then 1%Z else (10 ^ (- e10))%Z in
    let scaled := fun k : Z =>
      if (0 <=? k)%Z then (num, (den * 2 ^ k)%Z) else ((num * 2 ^ (- k))%Z, den) in
    let k0 := (Z.log2 num - Z.log2 den - 52)%Z in
    let k1 := if (fst (scaled k0) / snd (scaled k0) <? 2 ^ 52)%Z
              then (k0 - 1)%Z else k0 in
    let k := Z.max k1 (-1074) in
    let n := fst (scaled k) in
    let d := snd (scaled k) in
    let q := (n / d)%Z in
    let r := (n mod d)%Z in
    let q' := if ((d <? 2 * r) || ((d =? 2 * r) && Z.odd q))%Z
              then (q + 1)%Z else q in
    if (q' =? 0)%Z then Zero neg
    else if (1024 <? Z.log2 q' + 1 + k)%Z then Infinite neg
    else
      let (m', e') := odd_part 64 q' k in
      Finite (if neg then (- m')%Z else m') e'.

(** The number of an integer. *)
Definition number_of_Z (z : Z) : Number :=
  round_to_double (z <? 0)%Z (Z.abs z) 0.

(** The members of an object are kept as the object has them: one member
    per key, those whose key is an array index first, in ascending order,
    then the others in the order of their first appearance. *)
Fixpoint digits_value (acc : N) (s : string) : option N :=
  match s with
  | EmptyString => Some acc
  | String c rest =>
      let n := N_of_ascii c in
      if ((48 <=? n) && (n <=? 57))%N
      then digits_value (10 * acc + (n - 48))%N rest
      else None
  end.

(** An array index: a decimal without sign or leading zero, at most
    [2 ^ 32 - 2]. *)
Definition array_index (k : string) : option N :=
  match k with
  | EmptyString => None
  | String c rest =>
      if Ascii.eqb c "0" && negb (String.eqb rest EmptyString) then None
      else if (10 <? String.length k)%nat then None
      else
        match digits_value 0 k with
        | Some n => if (n <=? 4294967294)%N then Some n else None
        | None => None
        end
  end.

Fixpoint has_key {A : Type} (k : string) (ms : list (string * A)) : bool :=
  match ms with
  | [] => false
  | (k', _) :: rest => String.eqb k k' || has_key k rest
  end.

Fixpoint replace_member {A : Type} (k : string) (v : A) (ms : list (string * A))
  : list (string * A) :=
  match ms with
  | [] => []
  | (k', v') :: rest =>
      if String.eqb k k' then (k', v) :: rest
      else (k', v') :: replace_member k v rest
  end.

(** Puts the new index [i] before the first member that is not an index or
    is a larger one. *)
Fixpoint insert_index {A : Type} (i : N) (k : string) (v : A)
  (ms : list (string * A)) : list (string * A) :=
  match ms with
  | [] => [(k, v)]
  | (k', v') :: rest =>
      match array_index k' with
      | Some j =>
          if (i <? j)%N then (k, v) :: ms
          else (k', v') :: insert_index i k v rest
      | None => (k, v) :: ms
      end
  end.

(** Defines the member [k] of an object under construction. *)
Definition define_member {A : Type} (k : string) (v : A) (ms : list (string * A))
  : list (string * A) :=
  if has_key k ms then replace_member k v ms
  else
    match array_index k with
    | Some i => insert_index i k v ms
    | None => (ms ++ [(k, v)])%list
    end.

(** Property read [v[k]] on a parsed value: the member of that name (the
    last one, should a list hold several); anything but an object has no
    members. *)
Fixpoint lookup_last (k : string) (ms : list (string * JSON)) : option JSON :=
  match ms with
  | [] => None
  | (k', v) :: rest =>
      match lookup_last k rest with
      | Some v' => Some v'
      | None => if String.eqb k k' then Some v else None
      end
  end.

Definition get (k : string) (v : JSON) : option JSON :=
  match v with
  | JObject ms => lookup_last k ms
  | _ => None
  end.

(** *** Lexical helpers *)

Definition code (c : ascii) : N := N_of_ascii c.

(** The double quote, character 34. *)
Definition dquote : ascii := "034"%char.

Definition is_ws (c : ascii) : bool :=
  let n := code c in
  ((n =? 32) || (n =? 9) || (n =? 10) || (n =? 13))%N.

Fixpoint skip_ws (cs : list ascii) : list ascii :=
  match cs with
  | c :: rest => if is_ws c then skip_ws rest else cs
  | [] => []
  end.

Definition digit_of (c : ascii) : option Z :=
  let n := code c in
  if ((48 <=? n) && (n <=? 57))%N then Some (Z.of_N n - 48)%Z else None.

(** The longest run of decimal digits at the head of the input. *)
Fixpoint span_digits (cs : list ascii) : list Z * list ascii :=
  match cs with
  | c :: rest =>
      match digit_of c with
      | Some d => let (ds, r) := span_digits rest in (d :: ds, r)
      | None => ([], cs)
      end
  | [] => ([], [])
  end.

Definition Z_of_digits (ds : list Z) : Z :=
  fold_left (fun acc d => (10 * acc + d)%Z) ds 0%Z.

(** number = [ "-" ] int [ "." 1*DIGIT ] [ ("e" / "E") [ "-" / "+" ] 1*DIGIT ]
    with int = "0" / (DIGIT1-9 *DIGIT). *)
Definition parse_int (cs : list ascii) : option (list Z * list ascii) :=
  match cs with
  | c :: rest =>
      match digit_of c with
      | Some 0%Z => Some ([0%Z], rest)
      | Some _ => Some (span_digits cs)
      | None => None
      end
  | [] => None
  end.

Definition parse_frac (cs : list ascii) : option (list Z * list ascii) :=
  match cs with
  | "."%char :: rest =>
      match span_digits rest with
      | ([], _) => None
      | (ds, r) => Some (ds, r)
      end
  | _ => Some ([], cs)
  end.

Definition parse_exp_digits (neg : bool) (cs : list ascii) : option (Z * list ascii) :=
  match span_digits cs with
  | ([], _) => None
  | (ds, r) => Some (if neg then (- Z_of_digits ds)%Z else Z_of_digits ds, r)
  end.

Definition parse_exp (cs : list ascii) : option (Z * list ascii) :=
  match cs with
  | c :: rest =>
      if (Ascii.eqb c "e" || Ascii.eqb c "E")%char then
        match rest with
        | "-"%char :: r => parse_exp_digits true r
        | "+"%char :: r => parse_exp_digits false r
        | _ => parse_exp_digits false rest
        end
      else Some (0%Z, cs)
  | [] => Some (0%Z, [])
  end.

Definition parse_number (cs : list ascii) : option (Number * list ascii) :=
  let (neg, cs1) :=
    match cs with
    | "-"%char :: r => (true, r)
    | _ => (false, cs)
    end in
  match parse_int cs1 with
  | None => None
  | Some (ints, cs2) =>
      match parse_frac cs2 with
      | None => None
      | Some (fracs, cs3) =>
          match parse_exp cs3 with
          | None => None
          | Some (e, cs4) =>
              let m := Z_of_digits (ints ++ fracs) in
              Some (round_to_double neg m (e - Z.of_nat (length fracs)), cs4)
          end
      end
  end.

(** *** String literals *)

(** A decoded piece of a string literal: a byte of the source text, or the
    UTF-16 code unit written by a [\uXXXX] escape. *)
Inductive SItem : Set :=
| SByte (a : ascii)
| SUnit (u : N).

Definition hex_digit (c : ascii) : option N :=
  let n := code c in
  if ((48 <=? n) && (n <=? 57))%N then Some (n - 48)%N
  else if ((65 <=? n) && (n <=? 70))%N then Some (n - 55)%N
  else if ((97 <=? n) && (n <=? 102))%N then Some (n - 87)%N
  else None.

Definition hex4 (a b c d : ascii) : option N :=
  match hex_digit a, hex_digit b, hex_digit c, hex_digit d with
  | Some x, Some y, Some z, Some w => Some (((x * 16 + y) * 16 + z) * 16 + w)%N
  | _, _, _, _ => None
  end.

Definition simple_escape (c : ascii) : option ascii :=
  if Ascii.eqb c dquote then Some dquote
  else if Ascii.eqb c "\" then Some "\"%char
  else if Ascii.eqb c "/" then Some "/"%char
  else if Ascii.eqb c "b" then Some "008"%char
  else if Ascii.eqb c "f" then Some "012"%char
  else if Ascii.eqb c "n" then Some "010"%char
  else if Ascii.eqb c "r" then Some "013"%char
  else if Ascii.eqb c "t" then Some "009"%char
  else None.

Definition cons_item (i : SItem) (r : option (list SItem * list ascii))
  : option (list SItem * list ascii) :=
  match r with
  | Some (items, rest) => Some (i :: items, rest)
  | None => None
  end.

(** The input starts just after the opening quote; the result ends just
    after the closing one.  Unescaped control characters are rejected. *)
Fixpoint parse_string_items (cs : list ascii) : option (list SItem * list ascii) :=
  match cs with
  | [] => None
  | c :: r =>
      if Ascii.eqb c dquote then Some ([], r)
      else if Ascii.eqb c "\" then
        match r with
        | [] => None
        | e :: r' =>
            match simple_escape e with
            | Some a => cons_item (SByte a) (parse_string_items r')
            | None =>
                if Ascii.eqb e "u" then
                  match r' with
                  | h1 :: h2 :: h3 :: h4 :: r'' =>
                      match hex4 h1 h2 h3 h4 with
                      | Some u => cons_item (SUnit u) (parse_string_items r'')
                      | None => None
                      end
                  | _ => None
                  end
                else None
            end
        end
      else if (code c <? 32)%N then None
      else cons_item (SByte c) (parse_string_items r)
  end.

Definition byte (n : N) : ascii := ascii_of_N n.

(** UTF-8 encoding of a code point (a lone surrogate is encoded like any
    other three-byte code point). *)
Definition utf8 (cp : N) : list ascii :=
  if (cp <? 128)%N then [byte cp]
  else if (cp <? 2048)%N then
    [byte (192 + cp / 64); byte (128 + cp mod 64)]
  else if (cp <? 65536)%N then
    [byte (224 + cp / 4096); byte (128 + (cp / 64) mod 64); byte (128 + cp mod 64)]
  else
    [byte (240 + cp / 262144); byte (128 + (cp / 4096) mod 64);
     byte (128 + (cp / 64) mod 64); byte (128 + cp mod 64)].

Definition is_high (u : N) : bool := ((55296 <=? u) && (u <=? 56319))%N.
Definition is_low (u : N) : bool := ((56320 <=? u) && (u <=? 57343))%N.

Fixpoint encode_items (items : list SItem) : list ascii :=
  match items with
  | [] => []
  | SByte a :: rest => a :: encode_items rest
  | SUnit hi :: rest =>
      match rest with
      | SUnit lo :: rest' =>
          if is_high hi && is_low lo
          then utf8 (65536 + (hi - 55296) * 1024 + (lo - 56320)) ++ encode_items rest'
          else utf8 hi ++ encode_items rest
      | _ => utf8 hi ++ encode_items rest
      end
  end.

Definition parse_string (cs : list ascii) : option (string * list ascii) :=
  match parse_string_items cs with
  | Some (items, rest) => Some (string_of_list_ascii (encode_items items), rest)
  | None => None
  end.

(** *** Values *)

Definition expect (lit : list ascii) (v : JSON) (cs : list ascii)
  : option (JSON * list ascii) :=
  if list_eq_dec ascii_dec (firstn (length lit) cs) lit
  then Some (v, skipn (length lit) cs) else None.

(** Recursive descent on the grammar of ECMA-404.  [fuel] bounds the depth
    of the calls; every two nested calls consume a character, so
    [2 * length cs + 2] is enough for an input [cs]. *)
Fixpoint parse_value (fuel : nat) (cs : list ascii) {struct fuel}
  : option (JSON * list ascii) :=
  match fuel with
  | O => None
  | S fuel' =>
      match skip_ws cs with
      | [] => None
      | c :: rest =>
          if Ascii.eqb c "{" then
            match skip_ws rest with
            | "}"%char :: r => Some (JObject [], r)
            | _ => parse_members fuel' rest []
            end
          else if Ascii.eqb c "[" then
            match skip_ws rest with
            | "]"%char :: r => Some (JArray [], r)
            | _ => parse_elements fuel' rest []
            end
          else if Ascii.eqb c dquote then
            match parse_string rest with
            | Some (s, r) => Some (JString s, r)
            | None => None
            end
          else if Ascii.eqb c "t" then expect (list_ascii_of_string "true") (JBool true) (c :: rest)
          else if Ascii.eqb c "f" then expect (list_ascii_of_string "false") (JBool false) (c :: rest)
          else if Ascii.eqb c "n" then expect (list_ascii_of_string "null") JNull (c :: rest)
          else
            match parse_number (c :: rest) with
            | Some (n, r) => Some (JNumber n, r)
            | None => None
            end
      end
  end

with parse_elements (fuel : nat) (cs : list ascii) (acc : list JSON) {struct fuel}
  : option (JSON * list ascii) :=
  match fuel with
  | O => None
  | S fuel' =>
      match parse_value fuel' cs with
      | None => None
      | Some (v, r) =>
          match skip_ws r with
          | c :: r' =>
              if Ascii.eqb c "," then parse_elements fuel' r' (v :: acc)
              else if Ascii.eqb c "]" then Some (JArray (rev (v :: acc)), r')
              else None
          | [] => None
          end
      end
  end

with parse_members (fuel : nat) (cs : list ascii) (acc : list (string * JSON))
  {struct fuel} : option (JSON * list ascii) :=
  match fuel with
  | O => None
  | S fuel' =>
      match skip_ws cs with
      | "034"%char :: r0 =>
          match parse_string r0 with
          | None => None
          | Some (k, r1) =>
              match skip_ws r1 with
              | ":"%char :: r2 =>
                  match parse_value fuel' r2 with
                  | None => None
                  | Some (v, r3) =>
                      match skip_ws r3 with
                      | c :: r4 =>
                          if Ascii.eqb c "," then parse_members fuel' r4 (define_member k v acc)
                          else if Ascii.eqb c "}" then Some (JObject (define_member k v acc), r4)
                          else None
                      | [] => None
                      end
                  end
              | _ => None
              end
          end
      | _ => None
      end
  end.

(** [JSON.parse(text)]: one value, surrounded by optional white space;
    [None] stands for the [SyntaxError] it throws. *)
Definition parse (text : string) : option JSON :=
  let cs := list_ascii_of_string text in
  match parse_value (2 * length cs + 2) cs with
  | Some (v, rest) =>
      match skip_ws rest with
      | [] => Some v
      | _ => None
      end
  | None => None
  end.

End Json.

Import Json.

(** ** [analysisText.match(/```json\n([\s\S]*?)\n```/)] *)

Module Regex.

Definition LF : string := String "010"%char EmptyString.

(** The two literal parts of the pattern; the opening one is [fence_stem]
    and a line feed. *)
Definition fence_stem : string := "```json".
Definition fence_open : string := fence_stem ++ LF.
Definition fence_close : string := LF ++ "```".

(** [strip_prefix p s] is what follows [p] when [s] starts with [p]. *)
Fixpoint strip_prefix (p s : string) : option string :=
  match p with
  | EmptyString => Some s
  | String a p' =>
      match s with
      | EmptyString => None
      | String b s' => if Ascii.eqb a b then strip_prefix p' s' else None
      end
  end.

(** The lazy group [([\s\S]*?)] followed by the closing literal: the group
    grows one character at a time until the closing literal matches. *)
Fixpoint lazy_group (s : string) : option string :=
  match strip_prefix fence_close s with
  | Some _ => Some EmptyString
  | None =>
      match s with
      | EmptyString => None
      | String c rest => option_map (String c) (lazy_group rest)
      end
  end.

(** The whole pattern anchored at the head of [s]; the result is group 1. *)
Definition match_here (s : string) : option string :=
  match strip_prefix fence_open s with
  | Some rest => lazy_group rest
  | None => None
  end.

(** The match object: where the match starts and its first group. *)
Record Match : Set := mkMatch { index : nat; group1 : string }.

(** A pattern without the [g] flag is tried at each start position from the
    left; the first position where it matches wins. *)
Fixpoint exec_from (i : nat) (s : string) : option Match :=
  match match_here s with
  | Some g => Some (mkMatch i g)
  | None =>
      match s with
      | EmptyString => None
      | String _ rest => exec_from (S i) rest
      end
  end.

Definition match_json_fence (s : string) : option Match := exec_from 0 s.

(** [occurs p s]: [p] is a substring of [s]. *)
Fixpoint occurs (p s : string) : bool :=
  match strip_prefix p s with
  | Some _ => true
  | None =>
      match s with
      | EmptyString => false
      | String _ rest => occurs p rest
      end
  end.

End Regex.

Import Regex.

(** ** The world the handler runs in *)

(** A JavaScript completion: a value, or a thrown error (its message). *)
Inductive Result (A : Type) : Type :=
| Ok (a : A)
| Throw (e : string).
Arguments Ok {A} a.
Arguments Throw {A} e.

(** The file object of the remote file service. *)
Record File : Set := mkFile {
  name : string;
  displayName : string;
  state : string;
  uri : string;
  mimeType : string
}.

(** [req.file] as the upload middleware leaves it. *)
Record Upload : Set := mkUpload {
  path : string;
  originalname : string;
  mimetype : string
}.

Record Request : Set := mkRequest { file : option Upload }.

(** What the handler does to the outside, in order. *)
Inductive Event : Set :=
| LogInfo (msg : string)
| LogError (msg err : string)
| UploadFile (filePath mime display : string)
| Sleep (ms : Z)
| GetFile (fileName : string)
| GenerateContent (model prompt mime fileUri : string)
| DeleteFile (fileName : string)
| Respond (status : Z) (body : JSON)
| UnlinkSync (filePath : string).

(** The behaviour of the remote service during one request.  [getFile n]
    answers the [n]-th state query of the request (counting from 0);
    [generateContent] answers with the response, whose [text()] may itself
    throw.  With it comes what the engine decides: the message of the
    SyntaxError that [JSON.parse] throws on a text it rejects. *)
Record Env : Type := mkEnv {
  uploadFile : string -> string -> string -> Result File;
  getFile : nat -> string -> Result File;
  generateContent : string -> string -> string -> string -> Result (Result string);
  deleteFile : string -> Result unit;
  syntaxError : string -> string
}.

(** The state one request can see or change: the files on the local disk,
    the response written to the client (at most one), the number of state
    queries made, and the events so far, newest first. *)
Record World : Set := mkWorld {
  fs : list string;
  sent : option (Z * JSON);
  polls : nat;
  trace : list Event
}.

Definition initial (files : list string) : World := mkWorld files None 0 [].

Definition existsSync (p : string) (w : World) : bool :=
  existsb (String.eqb p) (fs w).

(** Events in the order they happened. *)
Definition history (w : World) : list Event := rev (trace w).

(** ** A monad for asynchronous code that may throw or never finish *)

(** A computation maps a world to its completion and the world after, or to
    [None] when it is still running after the fuel given to its loops. *)
Definition M (A : Type) : Type := World -> option (Result A * World).

Definition ret {A} (a : A) : M A := fun w => Some (Ok a, w).

Definition throw {A} (e : string) : M A := fun w => Some (Throw e, w).

Definition pending {A} : M A := fun _ => None.

Definition bind {A B} (m : M A) (k : A -> M B) : M B :=
  fun w =>
    match m w with
    | None => None
    | Some (Ok a, w') => k a w'
    | Some (Throw e, w') => Some (Throw e, w')
    end.

Declare Scope js_scope.
Delimit Scope js_scope with js.
Notation "x <- m ;; k" := (bind m (fun x => k))
  (at level 61, m at next level, right associativity) : js_scope.
Notation "m ;; k" := (bind m (fun _ => k))
  (at level 61, right associativity) : js_scope.
Open Scope js_scope.

(** [try { body } catch (error) { handler } finally { final }].  The finally
    block runs whatever the completion of the try or the catch block; when
    it throws, its error replaces that completion. *)
Definition try_catch_finally (body : M unit) (handler : string -> M unit)
  (final : M unit) : M unit :=
  fun w =>
    let guarded :=
      match body w with
      | None => None
      | Some (Ok a, w1) => Some (Ok a, w1)
      | Some (Throw e, w1) => handler e w1
      end in
    match guarded with
    | None => None
    | Some (r, w2) =>
        match final w2 with
        | None => None
        | Some (Ok _, w3) => Some (r, w3)
        | Some (Throw e, w3) => Some (Throw e, w3)
        end
    end.

Definition emit (ev : Event) : M unit :=
  fun w => Some (Ok tt, mkWorld (fs w) (sent w) (polls w) (ev :: trace w)).

Definition lift {A} (r : Result A) : M A :=
  fun w => Some (r, w).

Definition logger_info (msg : string) : M unit := emit (LogInfo msg).
Definition logger_error (msg err : string) : M unit := emit (LogError msg err).

(** [res.status(code).json(body)]: writes the response; once a response has
    been written a second one is refused with an error and the client keeps
    the first. *)
Definition res_status_json (code : Z) (body : JSON) : M unit :=
  fun w =>
    match sent w with
    | None =>
        Some (Ok tt, mkWorld (fs w) (Some (code, body)) (polls w)
                             (Respond code body :: trace w))
    | Some _ =>
        Some (Throw "Cannot set headers after they are sent to the client", w)
    end.

(** [fs.unlinkSync(path)]: removes the file, or throws when there is none. *)
Definition fs_unlinkSync (p : string) : M unit :=
  fun w =>
    let w' := mkWorld (fs w) (sent w) (polls w) (UnlinkSync p :: trace w) in
    if existsSync p w then
      Some (Ok tt, mkWorld (filter (fun q => negb (String.eqb p q)) (fs w))
                           (sent w) (polls w) (trace w'))
    else Some (Throw ("ENOENT: no such file or directory, unlink '" ++ p ++ "'"), w').

(** [path.basename]: the last non-empty component of the path. *)
Fixpoint basename_from (cur last s : string) : string :=
  match s with
  | EmptyString => if String.eqb cur EmptyString then last else cur
  | String c rest =>
      if Ascii.eqb c "/"
      then basename_from EmptyString (if String.eqb cur EmptyString then last else cur) rest
      else basename_from (cur ++ String c EmptyString) last rest
  end.

Definition path_basename (p : string) : string :=
  basename_from EmptyString EmptyString p.

(** [subst_char a b s] is [s] with every [a] replaced by [b]; it lets the
    texts below stand in the file without a double quote in them. *)
Fixpoint subst_char (a b : ascii) (s : string) : string :=
  match s with
  | EmptyString => EmptyString
  | String c rest => String (if Ascii.eqb c a then b else c) (subst_char a b rest)
  end.

(** The instruction sent with every video; a tilde stands for a double
    quote of the source text. *)
Definition analysisPrompt : string := subst_char "~" dquote "
You are an expert HR analyst and communication coach.
Analyze the candidate in the provided video based on the following criteria: English speaking ability, confidence level, and humility.

Your analysis must be fair, unbiased, and constructive. Do not comment on physical appearance, clothing, or background objects. Focus strictly on verbal and non-verbal communication cues relevant to a professional interview context.

Provide your final output in a clean, stringified JSON format. Do not include any text or markdown formatting before or after the JSON object.

The JSON object must follow this exact structure:
{
  ~english_speaking~: {
    ~score~: ~A numerical score from 1 (poor) to 10 (excellent).~,
    ~reasoning~: ~A detailed analysis of their fluency, pronunciation, grammar, and vocabulary usage. Mention specific examples if possible.~
  },
  ~confidence~: {
    ~score~: ~A numerical score from 1 (low) to 10 (high).~,
    ~reasoning~: ~Analyze their body language (posture, eye contact), vocal tone (steadiness, volume), and clarity of speech. Note any signs of nervousness or self-assurance.~
  },
  ~humility~: {
    ~score~: ~A numerical score from 1 (arrogant) to 10 (humble).~,
    ~reasoning~: ~Evaluate how they present their skills and accomplishments. Do they sound collaborative and open, or boastful? Is their tone grounded and self-aware?~
  },
  ~overall_summary~: ~Provide a concise, 2-4 sentence summary of the candidate's communication style and key strengths or areas for improvement.~
}
".

Definition no_file_body : JSON :=
  JObject [("error", JString "No video file uploaded.")].

Definition failure_body : JSON :=
  JObject [("error", JString "Failed to analyze the video. Please check the server logs.")].

(** ** The handler *)

Section Handler.

Variable env : Env.

Definition fileManager_uploadFile (filePath mime display : string) : M File :=
  emit (UploadFile filePath mime display) ;;
  lift (uploadFile env filePath mime display).

(** The answer depends on how many queries the request has made. *)
Definition fileManager_getFile (fileName : string) : M File :=
  fun w =>
    Some (getFile env (polls w) fileName,
          mkWorld (fs w) (sent w) (S (polls w)) (GetFile fileName :: trace w)).

Definition fileManager_deleteFile (fileName : string) : M unit :=
  emit (DeleteFile fileName) ;;
  lift (deleteFile env fileName).

Definition model_generateContent (model prompt mime fileUri : string)
  : M (Result string) :=
  emit (GenerateContent model prompt mime fileUri) ;;
  lift (generateContent env model prompt mime fileUri).

Definition setTimeout (ms : Z) : M unit := emit (Sleep ms).

Definition JSON_parse (text : string) : M JSON :=
  match Json.parse text with
  | Some v => ret v
  | None => throw (syntaxError env text)
  end.

(** The [while (file.state === "PROCESSING")] loop of [uploadFileToGemini];
    [fuel] bounds the number of iterations looked at. *)
Fixpoint poll (fuel : nat) (f : File) : M File :=
  if String.eqb (state f) "PROCESSING" then
    match fuel with
    | O => pending
    | S fuel' =>
        logger_info ("File " ++ displayName f ++ " is still processing. Waiting...") ;;
        setTimeout 10000 ;;
        f' <- fileManager_getFile (name f) ;;
        poll fuel' f'
    end
  else ret f.

Definition uploadFileToGemini (fuel : nat) (filePath mime : string) : M File :=
  uploaded <- fileManager_uploadFile filePath mime (path_basename filePath) ;;
  logger_info ("Uploaded file " ++ displayName uploaded ++ " as: " ++ name uploaded) ;;
  f <- poll fuel uploaded ;;
  if String.eqb (state f) "FAILED" then
    throw ("File processing failed for " ++ displayName f)
  else
    logger_info ("File " ++ displayName f ++ " is now ACTIVE.") ;;
    ret f.

(** The body of the [try] block. *)
Definition analysis (fuel : nat) (tempFilePath mime : string) : M unit :=
  videoFile <- uploadFileToGemini fuel tempFilePath mime ;;
  logger_info "Sending analysis request to Gemini..." ;;
  response <- model_generateContent "gemini-2.0-flash" analysisPrompt
                                    (mimeType videoFile) (uri videoFile) ;;
  analysisText <- lift response ;;
  match match_json_fence analysisText with
  | None => throw "Could not extract JSON from AI response."
  | Some jsonMatch =>
      if String.eqb (group1 jsonMatch) EmptyString then
        throw "Could not extract JSON from AI response."
      else
        let rawJson := group1 jsonMatch in
        logger_info "Received analysis from Gemini." ;;
        analysisJson <- JSON_parse rawJson ;;
        res_status_json 200 analysisJson ;;
        fileManager_deleteFile (name videoFile) ;;
        logger_info ("Deleted file " ++ name videoFile ++ " from Gemini storage.")
  end.

(** [app.post('/analyze', upload.single('video'), async (req, res) => ...)] *)
Definition analyze (fuel : nat) (req : Request) : M unit :=
  match file req with
  | None => res_status_json 400 no_file_body
  | Some f =>
      let tempFilePath := path f in
      logger_info ("Received file: " ++ originalname f ++ ", saved to " ++ tempFilePath) ;;
      try_catch_finally
        (analysis fuel tempFilePath (mimetype f))
        (fun error =>
           logger_error "Error during AI analysis:" error ;;
           res_status_json 500 failure_body)
        (fs_unlinkSync tempFilePath ;;
         logger_info ("Deleted temporary file: " ++ tempFilePath))
  end.

(** One request, from a fresh response object and the files on disk. *)
Definition run (fuel : nat) (req : Request) (files : list string)
  : option (Result unit * World) :=
  analyze fuel req (initial files).

End Handler.

(** ** Scripted services and sample inputs *)

Definition remote_file (display st mime : string) : File :=
  mkFile "files/abc123" display st "https://files.example/abc123" mime.

(** A service that accepts the upload in state [first], answers the state
    queries with [states] in turn and with [rest] from then on, and answers
    generation and deletion with [gen] and [del]. *)
Definition scripted (first : string) (states : list string) (rest : string)
  (gen : Result (Result string)) (del : Result unit) : Env :=
  mkEnv (fun _ mime display => Ok (remote_file display first mime))
        (fun n _ => Ok (remote_file "clip" (nth n states rest) "video/mp4"))
        (fun _ _ _ _ => gen)
        (fun _ => del)
        (fun _ => "Unexpected end of JSON input").

Definition sample_upload : Upload := mkUpload "uploads/3f9c" "interview.mp4" "video/mp4".
Definition sample_request : Request := mkRequest (Some sample_upload).
Definition sample_files : list string := ["uploads/0001"; "uploads/3f9c"].

Definition quoted : string -> string := subst_char "'" dquote.

(** The example of the specification: the two characters backslash-n of its
    notation are line feeds, each apostrophe below a double quote. *)
Definition spec_example_payload : string :=
  quoted "{'english_speaking':{'score':7,'reasoning':'clear'},'confidence':{'score':8,'reasoning':'steady'},'humility':{'score':9,'reasoning':'grounded'},'overall_summary':'Strong communicator.'} ".

Definition spec_example_text : string :=
  "prefix " ++ fence_open ++ spec_example_payload ++ fence_close ++ " suffix".

(** ** What a trace says *)

Definition is_unlink (e : Event) : bool :=
  match e with UnlinkSync _ => true | _ => false end.
Definition is_respond (e : Event) : bool :=
  match e with Respond _ _ => true | _ => false end.
Definition is_generate (e : Event) : bool :=
  match e with GenerateContent _ _ _ _ => true | _ => false end.
Definition is_delete (e : Event) : bool :=
  match e with DeleteFile _ => true | _ => false end.
Definition is_log (e : Event) : bool :=
  match e with LogInfo _ | LogError _ _ => true | _ => false end.

(** The paths handed to [fs.unlinkSync], one entry per call. *)
Definition unlinked (evs : list Event) : list string :=
  flat_map (fun e => match e with UnlinkSync p => [p] | _ => [] end) evs.

(** The delays handed to [setTimeout], one entry per call. *)
Definition waits (evs : list Event) : list Z :=
  flat_map (fun e => match e with Sleep ms => [ms] | _ => [] end) evs.

(** The remote files the request asked to delete. *)
Definition deletions (evs : list Event) : list string :=
  flat_map (fun e => match e with DeleteFile n => [n] | _ => [] end) evs.

(** The files the request referenced in a generation request, by URI. *)
Definition generations (evs : list Event) : list string :=
  flat_map (fun e => match e with GenerateContent _ _ _ u => [u] | _ => [] end) evs.

(** The answer of a state query keeps the loop going. *)
Definition still_processing (r : Result File) : bool :=
  match r with
  | Ok f => String.eqb (state f) "PROCESSING"
  | Throw _ => false
  end.

(** One turn of the loop for the file [f], in order. *)
Definition round (f : File) : list Event :=
  [LogInfo ("File " ++ displayName f ++ " is still processing. Waiting...");
   Sleep 10000;
   GetFile (name f)].

(** [polled env p f seen r]: from the file [f] and with [p] queries made
    before, the loop goes through the files [seen], one turn each, and ends
    with [r]. *)
Inductive polled (env : Env) : nat -> File -> list File -> Result File -> Prop :=
| polled_done p f :
    String.eqb (state f) "PROCESSING" = false ->
    polled env p f [] (Ok f)
| polled_throw p f e :
    String.eqb (state f) "PROCESSING" = true ->
    getFile env p (name f) = Throw e ->
    polled env p f [f] (Throw e)
| polled_step p f f' seen r :
    String.eqb (state f) "PROCESSING" = true ->
    getFile env p (name f) = Ok f' ->
    polled env (S p) f' seen r ->
    polled env p f (f :: seen) r.

(** The world after the turns [seen]. *)
Definition after_rounds (seen : list File) (w : World) : World :=
  mkWorld (fs w) (sent w) (polls w + length seen)
          (rev (flat_map round seen) ++ trace w).

(** The shape the specification gives a successful body. *)
Definition scored (v : JSON) : bool :=
  match get "score" v, get "reasoning" v with
  | Some _, Some _ => true
  | _, _ => false
  end.

Definition conforms (v : JSON) : bool :=
  match get "english_speaking" v, get "confidence" v, get "humility" v,
        get "overall_summary" v with
  | Some e, Some c, Some h, Some (JString _) => scored e && scored c && scored h
  | _, _, _, _ => false
  end.

(** ** The paths through the [try] block *)

(** [rawJson text] is the text handed to [JSON.parse]: group 1 of the match,
    when there is a match and the group is not empty. *)
Definition rawJson (text : string) : option string :=
  match match_json_fence text with
  | None => None
  | Some jsonMatch =>
      if String.eqb (group1 jsonMatch) EmptyString then None
      else Some (group1 jsonMatch)
  end.

(** Where the [try] block is left: by which error, or at its end. *)
Inductive Exit : Type :=
| UploadFailed (e : string)
| PollFailed (up : File) (seen : list File) (e : string)
| ProcessingFailed (up : File) (seen : list File) (f : File)
| GenerateFailed (up : File) (seen : list File) (f : File) (e : string)
| TextFailed (up : File) (seen : list File) (f : File) (e : string)
| NoFence (up : File) (seen : list File) (f : File) (text : string)
| BadJson (up : File) (seen : list File) (f : File) (text raw message : string)
| Responded (up : File) (seen : list File) (f : File) (text raw : string)
            (v : JSON) (del : Result unit).

Section Paths.

Variable env : Env.
Variables (n : nat) (tempFilePath mime : string).

(** The upload succeeded and the loop handed over [f], not in state FAILED. *)
Definition ready (up : File) (seen : list File) (f : File) : Prop :=
  uploadFile env tempFilePath mime (path_basename tempFilePath) = Ok up /\
  polled env n up seen (Ok f) /\
  String.eqb (state f) "FAILED" = false.

Definition generated (f : File) : Result (Result string) :=
  generateContent env "gemini-2.0-flash" analysisPrompt (mimeType f) (uri f).

(** The answers of the service that lead to each exit. *)
Definition takes (x : Exit) : Prop :=
  match x with
  | UploadFailed e =>
      uploadFile env tempFilePath mime (path_basename tempFilePath) = Throw e
  | PollFailed up seen e =>
      uploadFile env tempFilePath mime (path_basename tempFilePath) = Ok up /\
      polled env n up seen (Throw e)
  | ProcessingFailed up seen f =>
      uploadFile env tempFilePath mime (path_basename tempFilePath) = Ok up /\
      polled env n up seen (Ok f) /\
      String.eqb (state f) "FAILED" = true
  | GenerateFailed up seen f e =>
      ready up seen f /\ generated f = Throw e
  | TextFailed up seen f e =>
      ready up seen f /\ generated f = Ok (Throw e)
  | NoFence up seen f text =>
      ready up seen f /\ generated f = Ok (Ok text) /\ rawJson text = None
  | BadJson up seen f text raw message =>
      ready up seen f /\ generated f = Ok (Ok text) /\ rawJson text = Some raw /\
      Json.parse raw = None /\ message = syntaxError env raw
  | Responded up seen f text raw v del =>
      ready up seen f /\ generated f = Ok (Ok text) /\ rawJson text = Some raw /\
      Json.parse raw = Some v /\ deleteFile env (name f) = del
  end.

Definition rounds (x : Exit) : nat :=
  match x with
  | UploadFailed _ => 0
  | PollFailed _ seen _ | ProcessingFailed _ seen _ | GenerateFailed _ seen _ _
  | TextFailed _ seen _ _ | NoFence _ seen _ _ | BadJson _ seen _ _ _ _
  | Responded _ seen _ _ _ _ _ => length seen
  end.

Definition upload_events (up : File) (seen : list File) : list Event :=
  [UploadFile tempFilePath mime (path_basename tempFilePath);
   LogInfo ("Uploaded file " ++ displayName up ++ " as: " ++ name up)]
  ++ flat_map round seen.

Definition generate_events (up : File) (seen : list File) (f : File) : list Event :=
  upload_events up seen ++
  [LogInfo ("File " ++ displayName f ++ " is now ACTIVE.");
   LogInfo "Sending analysis request to Gemini...";
   GenerateContent "gemini-2.0-flash" analysisPrompt (mimeType f) (uri f)].

(** The events of the [try] block on each path, in order. *)
Definition try_events (x : Exit) : list Event :=
  match x with
  | UploadFailed _ => [UploadFile tempFilePath mime (path_basename tempFilePath)]
  | PollFailed up seen _ | ProcessingFailed up seen _ => upload_events up seen
  | GenerateFailed up seen f _ | TextFailed up seen f _ | NoFence up seen f _ =>
      generate_events up seen f
  | BadJson up seen f _ _ _ =>
      generate_events up seen f ++ [LogInfo "Received analysis from Gemini."]
  | Responded up seen f _ _ v del =>
      generate_events up seen f ++
      [LogInfo "Received analysis from Gemini."; Respond 200 v; DeleteFile (name f)] ++
      match del with
      | Ok _ => [LogInfo ("Deleted file " ++ name f ++ " from Gemini storage.")]
      | Throw _ => []
      end
  end.

(** The error the [try] block throws, if any. *)
Definition thrown (x : Exit) : option string :=
  match x with
  | UploadFailed e | PollFailed _ _ e | GenerateFailed _ _ _ e | TextFailed _ _ _ e =>
      Some e
  | ProcessingFailed _ _ f => Some ("File processing failed for " ++ displayName f)
  | NoFence _ _ _ _ => Some "Could not extract JSON from AI response."
  | BadJson _ _ _ _ _ message => Some message
  | Responded _ _ _ _ _ _ (Throw e) => Some e
  | Responded _ _ _ _ _ _ (Ok _) => None
  end.

(** The response the [try] block itself wrote. *)
Definition answered (x : Exit) : option (Z * JSON) :=
  match x with
  | Responded _ _ _ _ _ v _ => Some (200%Z, v)
  | _ => None
  end.

Definition try_result (x : Exit) : Result unit :=
  match thrown x with
  | Some e => Throw e
  | None => Ok tt
  end.

Definition try_world (x : Exit) (w : World) : World :=
  mkWorld (fs w) (answered x) (polls w + rounds x) (rev (try_events x) ++ trace w).

(** The [catch] block, after the exit [x]. *)
Definition catch_events (x : Exit) : list Event :=
  match thrown x with
  | None => []
  | Some e =>
      LogError "Error during AI analysis:" e ::
      match answered x with
      | None => [Respond 500 failure_body]
      | Some _ => []
      end
  end.

(** The response the client has at the end. *)
Definition response (x : Exit) : Z * JSON :=
  match answered x with
  | Some r => r
  | None => (500%Z, failure_body)
  end.

(** How the [try] and [catch] blocks complete together. *)
Definition guarded_result (x : Exit) : Result unit :=
  match thrown x, answered x with
  | Some _, Some _ => Throw "Cannot set headers after they are sent to the client"
  | _, _ => Ok tt
  end.

End Paths.

(** ** The paths through a request that carries a file *)

(** The [catch] and [finally] blocks, from the completion [r] of the [try]
    block. *)
Definition settle (tempFilePath : string) (r : Result unit) (w : World)
  : option (Result unit * World) :=
  match
    match r with
    | Ok a => Some (Ok a, w)
    | Throw e =>
        (logger_error "Error during AI analysis:" e ;;
         res_status_json 500 failure_body) w
    end
  with
  | None => None
  | Some (r', w2) =>
      match
        (fs_unlinkSync tempFilePath ;;
         logger_info ("Deleted temporary file: " ++ tempFilePath)) w2
      with
      | None => None
      | Some (Ok _, w3) => Some (r', w3)
      | Some (Throw e, w3) => Some (Throw e, w3)
      end
  end.

Section Requests.

Variable u : Upload.
Variable files : list string.

(** The temporary file is on the disk when the handler starts. *)
Definition on_disk : bool := existsb (String.eqb (path u)) files.

(** Everything the request does on the path [x], in order. *)
Definition request_events (x : Exit) : list Event :=
  [LogInfo ("Received file: " ++ originalname u ++ ", saved to " ++ path u)]
  ++ try_events (path u) (mimetype u) x
  ++ catch_events x
  ++ [UnlinkSync (path u)]
  ++ (if on_disk then [LogInfo ("Deleted temporary file: " ++ path u)] else []).

(** How the handler's promise settles. *)
Definition final_result (x : Exit) : Result unit :=
  if on_disk then guarded_result x
  else Throw ("ENOENT: no such file or directory, unlink '" ++ path u ++ "'").

(** The world in which the [try] block starts. *)
Definition received : World :=
  mkWorld files None 0
          [LogInfo ("Received file: " ++ originalname u ++ ", saved to " ++ path u)].

Definition final_world (x : Exit) : World :=
  mkWorld (filter (fun q => negb (String.eqb (path u) q)) files)
          (Some (response x)) (rounds x) (rev (request_events x)).

End Requests.

(** ** More scripted services *)

(** A service that answers the first [k] state queries with PROCESSING and
    the later ones with ACTIVE. *)
Definition processing_for (k : nat) : Env :=
  mkEnv (fun _ mime display => Ok (remote_file display "PROCESSING" mime))
        (fun n _ =>
           Ok (remote_file "clip" (if Nat.ltb n k then "PROCESSING" else "ACTIVE") "video/mp4"))
        (fun _ _ _ _ => Ok (Ok spec_example_text))
        (fun _ => Ok tt)
        (fun _ => "Unexpected end of JSON input").

(** A service whose file never leaves PROCESSING. *)
Definition stuck_service : Env :=
  scripted "PROCESSING" [] "PROCESSING" (Ok (Ok spec_example_text)) (Ok tt).

(** A service that takes two queries to make the file ACTIVE. *)
Definition slow_service : Env :=
  scripted "PROCESSING" ["PROCESSING"; "ACTIVE"] "ACTIVE"
           (Ok (Ok spec_example_text)) (Ok tt).

(** [env] with another behaviour of [deleteFile]. *)
Definition with_deleteFile (env : Env) (del : string -> Result unit) : Env :=
  mkEnv (uploadFile env) (getFile env) (generateContent env) del (syntaxError env).

(** A service whose file fails processing at the second query. *)
Definition failing_service : Env :=
  scripted "PROCESSING" ["PROCESSING"; "FAILED"] "FAILED"
           (Ok (Ok spec_example_text)) (Ok tt).

(** A service that has the file ready at once and answers with [text]. *)
Definition answering (text : string) : Env :=
  scripted "ACTIVE" [] "ACTIVE" (Ok (Ok text)) (Ok tt).

(** The value of the payload in the example of the specification. *)
Definition spec_example_value : JSON :=
  JObject
    [("english_speaking",
      JObject [("score", JNumber (number_of_Z 7)); ("reasoning", JString "clear")]);
     ("confidence",
      JObject [("score", JNumber (number_of_Z 8)); ("reasoning", JString "steady")]);
     ("humility",
      JObject [("score", JNumber (number_of_Z 9)); ("reasoning", JString "grounded")]);
     ("overall_summary", JString "Strong communicator.")].

(** [v.a.b] on a parsed value. *)
Definition get2 (a b : string) (v : JSON) : option JSON :=
  match get a v with
  | Some inner => get b inner
  | None => None
  end.

(** A service whose uploaded file is in the state the file service calls
    unspecified. *)
Definition unspecified_service : Env :=
  scripted "STATE_UNSPECIFIED" [] "ACTIVE" (Ok (Ok spec_example_text)) (Ok tt).

(** The path [x] when [deleteFile] behaves as [del]. *)
Definition redelete (del : string -> Result unit) (x : Exit) : Exit :=
  match x with
  | Responded up seen f text raw v _ => Responded up seen f text raw v (del (name f))
  | _ => x
  end.

(** A model output on one line, and one whose fenced block is not the
    expected object. *)
Definition one_line_text : string := quoted "```json {'confidence': {'score': 8}} ```".
Definition empty_object_text : string := fence_open ++ "{}" ++ fence_close.

(** ** The route: [upload.single('video')] before the handler *)

(** A part of a multipart body: a text field, or a file with the name of
    its field, its file name and its MIME type. *)
Inductive Part : Set :=
| TextField (fieldname value : string)
| FilePart (fieldname filename mime : string).

(** The body of a request to POST /analyze. *)
Inductive Body : Set :=
| NotMultipart
| Multipart (parts : list Part).

(** What the upload middleware hands on: [req.file], or the error code of
    its refusal with the field that caused it. *)
Inductive Uploaded : Set :=
| Accepted (f : option Upload)
| Refused (code field : string).

(** The middleware goes through the parts in order.  A file part without a
    file name is skipped; the first named file must be in the field
    [field] and is stored under [dest] with the generated name [fresh];
    any other named file is refused, and what was stored is removed. *)
Fixpoint upload_scan (field dest fresh : string) (stored : option Upload)
  (parts : list Part) : Uploaded :=
  match parts with
  | [] => Accepted stored
  | TextField _ _ :: rest => upload_scan field dest fresh stored rest
  | FilePart fieldname filename mime :: rest =>
      if String.eqb filename EmptyString then upload_scan field dest fresh stored rest
      else
        match stored with
        | None =>
            if String.eqb fieldname field
            then upload_scan field dest fresh
                             (Some (mkUpload (dest ++ fresh) filename mime)) rest
            else Refused "LIMIT_UNEXPECTED_FILE" fieldname
        | Some _ => Refused "LIMIT_UNEXPECTED_FILE" fieldname
        end
  end.

(** [multer({ dest: 'uploads/' }).single(field)]; a body that is not
    multipart is passed on untouched. *)
Definition upload_single (field fresh : string) (b : Body) : Uploaded :=
  match b with
  | NotMultipart => Accepted None
  | Multipart parts => upload_scan field "uploads/" fresh None parts
  end.

(** How a request to the route ends: the handler ran (or is still
    running), or the middleware refused the request and the default error
    handler of the framework answered with the status and the error. *)
Inductive Routed : Type :=
| Handled (outcome : option (Result unit * World))
| ErrorPage (status : Z) (error : string) (files : list string).

(** [app.post('/analyze', upload.single('video'), async (req, res) => ...)]
    on a request with the body [b], the disk holding [files]. *)
Definition route (env : Env) (fuel : nat) (fresh : string) (b : Body)
  (files : list string) : Routed :=
  match upload_single "video" fresh b with
  | Refused _ _ => ErrorPage 500 "Unexpected field" files
  | Accepted None => Handled (run env fuel (mkRequest None) files)
  | Accepted (Some u) =>
      Handled (run env fuel (mkRequest (Some u)) (path u :: files))
  end.

(** The body has no part in the field [field]. *)
Definition field_missing (field : string) (b : Body) : bool :=
  match b with
  | NotMultipart => true
  | Multipart parts =>
      forallb (fun p => match p with
                        | TextField n _ | FilePart n _ _ => negb (String.eqb n field)
                        end) parts
  end.

(** The body carries no file: it is not multipart, or none of its file
    parts has a file name. *)
Definition carries_no_file (b : Body) : bool :=
  match b with
  | NotMultipart => true
  | Multipart parts =>
      forallb (fun p => match p with
                        | TextField _ _ => true
                        | FilePart _ filename _ => String.eqb filename EmptyString
                        end) parts
  end.

(** A service whose generation request fails, the file being ready. *)
Definition erroring_service : Env :=
  scripted "ACTIVE" [] "ACTIVE" (Throw "500 Internal error encountered") (Ok tt).

(** ** The payload the instruction asks for *)

(** The object [analysisPrompt] asks the model to write: three categories,
    each with a score and its reasoning, and a summary.  The texts are
    plain: no double quote, backslash or control character in them, so that
    they stand in a JSON string literal as they are. *)
Module Analysis.

(** The characters of a text. *)
Abbreviation la := list_ascii_of_string (only parsing).

Record Category : Set := mkCategory {
  score : nat;
  reasoning : string
}.

Record AnalysisResult : Set := mkAnalysisResult {
  english_speaking : Category;
  confidence : Category;
  humility : Category;
  overall_summary : string
}.

(** The tokens of a JSON text. *)
Inductive Token : Set :=
| TOpen
| TClose
| TColon
| TComma
| TString (s : string)
| TNumber (n : nat).

(** The decimal numeral of [n], without leading zero. *)
Definition numeral (n : nat) : string := DecimalString.NilEmpty.string_of_uint (Nat.to_uint n).

Definition token_text (t : Token) : string :=
  match t with
  | TOpen => "{"
  | TClose => "}"
  | TColon => ":"
  | TComma => ","
  | TString s => String dquote (s ++ String dquote EmptyString)
  | TNumber n => numeral n
  end.

Definition category_tokens (c : Category) : list Token :=
  [TOpen; TString "score"; TColon; TNumber (score c); TComma;
   TString "reasoning"; TColon; TString (reasoning c); TClose].

(** The members in the order of the instruction. *)
Definition result_tokens (a : AnalysisResult) : list Token :=
  ([TOpen; TString "english_speaking"; TColon] ++ category_tokens (english_speaking a) ++
   [TComma; TString "confidence"; TColon] ++ category_tokens (confidence a) ++
   [TComma; TString "humility"; TColon] ++ category_tokens (humility a) ++
   [TComma; TString "overall_summary"; TColon; TString (overall_summary a); TClose])%list.

(** The tokens [ts] written one after the other, the [i]-th of the text
    preceded by the white space [gap i]. *)
Fixpoint layout (gap : nat -> string) (i : nat) (ts : list Token) : string :=
  match ts with
  | [] => EmptyString
  | t :: rest => gap i ++ token_text t ++ layout gap (S i) rest
  end.

(** A JSON text of [a]: its tokens with white space of any kind between
    them, before the first and after the last. *)
Definition serialize (gap : nat -> string) (a : AnalysisResult) : string :=
  layout gap 0 (result_tokens a) ++ gap (length (result_tokens a)).

(** White space of JSON only. *)
Definition blank (s : string) : bool := forallb is_ws (list_ascii_of_string s).

Definition plain_char (c : ascii) : bool :=
  negb (Ascii.eqb c dquote) && negb (Ascii.eqb c "\") && negb (code c <? 32)%N.

Definition plain (s : string) : bool := forallb plain_char (list_ascii_of_string s).

Definition plain_token (t : Token) : bool :=
  match t with
  | TString s => plain s
  | _ => true
  end.

Definition plain_result (a : AnalysisResult) : bool :=
  plain (reasoning (english_speaking a)) && plain (reasoning (confidence a)) &&
  plain (reasoning (humility a)) && plain (overall_summary a).

(** The value of [a]: what the client reads as [analysisResult]. *)
Definition category_json (c : Category) : JSON :=
  JObject [("score", JNumber (number_of_Z (Z.of_nat (score c))));
           ("reasoning", JString (reasoning c))].

Definition to_json (a : AnalysisResult) : JSON :=
  JObject [("english_speaking", category_json (english_speaking a));
           ("confidence", category_json (confidence a));
           ("humility", category_json (humility a));
           ("overall_summary", JString (overall_summary a))].

(** The integer a number is, when it is one. *)
Definition integer_of (n : Number) : option Z :=
  match n with
  | Zero _ => Some 0%Z
  | Finite m e => if (0 <=? e)%Z then Some (m * 2 ^ e)%Z else None
  | Infinite _ => None
  end.

(** The scores are integers a double holds exactly. *)
Definition small (c : Category) : bool := (Z.of_nat (score c) <? 2 ^ 53)%Z.

Definition scores_exact (a : AnalysisResult) : bool :=
  small (english_speaking a) && small (confidence a) && small (humility a).

(** What the client reads of a value given to [res.json]: the value goes
    through [JSON.stringify] and the client's [JSON.parse], which turns an
    infinity into [null] and drops the sign of a zero. *)
Fixpoint on_the_wire (v : JSON) : JSON :=
  match v with
  | JNumber (Infinite _) => JNull
  | JNumber (Zero _) => JNumber (Zero false)
  | JArray xs => JArray (map on_the_wire xs)
  | JObject members => JObject (map (fun kv => (fst kv, on_the_wire (snd kv))) members)
  | _ => v
  end.

(** A character that may follow a number in a JSON text. *)
Definition delimiter (c : ascii) : bool :=
  is_ws c || Ascii.eqb c "," || Ascii.eqb c "}" || Ascii.eqb c "]".

(** No line feed of [s] is followed by a backtick; with [after_lf], [s]
    does not start with one either. *)
Fixpoint tame (after_lf : bool) (s : string) : bool :=
  match s with
  | EmptyString => true
  | String c rest =>
      negb (after_lf && Ascii.eqb c "`") && tame (Ascii.eqb c "010") rest
  end.

(** The example of the specification: its result and its layout, a blank
    after the last token. *)
Definition spec_example_result : AnalysisResult :=
  mkAnalysisResult (mkCategory 7 "clear") (mkCategory 8 "steady")
                   (mkCategory 9 "grounded") "Strong communicator.".

Definition spec_example_gap (i : nat) : string :=
  if Nat.eqb i 41 then " " else EmptyString.

(** The same result as a model usually writes it: one member a line, two
    blanks of indentation a level. *)
Definition pretty_gap (i : nat) : string :=
  if existsb (Nat.eqb i) [1; 13; 25; 37; 11; 23; 35] then LF ++ "  "
  else if existsb (Nat.eqb i) [4; 16; 28; 8; 20; 32] then LF ++ "    "
  else if existsb (Nat.eqb i) [3; 15; 27; 6; 18; 30; 10; 22; 34; 39] then " "
  else if Nat.eqb i 40 then LF
  else EmptyString.

(** A model output with that text in its fenced block. *)
Definition pretty_example_text : string :=
  "Here is the analysis:" ++ LF ++ fence_open ++
  serialize pretty_gap spec_example_result ++ fence_close ++ LF.

End Analysis.

(** ** More readings of a trace *)

(** The errors handed to [logger.error], with the text before them. *)
Definition errors_logged (evs : list Event) : list (string * string) :=
  flat_map (fun e => match e with LogError m err => [(m, err)] | _ => [] end) evs.

(** The uploads to the file service: path, MIME type and display name. *)
Definition uploads (evs : list Event) : list (string * string * string) :=
  flat_map (fun e => match e with UploadFile p m d => [(p, m, d)] | _ => [] end) evs.

(** The state queries, by the name asked for. *)
Definition queries (evs : list Event) : list string :=
  flat_map (fun e => match e with GetFile n => [n] | _ => [] end) evs.

(** The generation requests with all they carry: model, prompt, MIME type
    and URI of the file. *)
Definition generation_requests (evs : list Event)
  : list (string * string * string * string) :=
  flat_map (fun e => match e with
                     | GenerateContent m p mt u => [(m, p, mt, u)]
                     | _ => []
                     end) evs.

(** The responses written, in order. *)
Definition responses (evs : list Event) : list (Z * JSON) :=
  flat_map (fun e => match e with Respond c b => [(c, b)] | _ => [] end) evs.

(** A service like [slow_service] whose [deleteFile] fails. *)
Definition undeletable_service : Env :=
  scripted "PROCESSING" ["PROCESSING"; "ACTIVE"] "ACTIVE"
           (Ok (Ok spec_example_text)) (Throw "403 Forbidden").

(** A service that refuses the upload. *)
Definition refusing_service : Env :=
  mkEnv (fun _ _ _ => Throw "503 Service Unavailable")
        (fun _ _ => Throw "unreachable")
        (fun _ _ _ _ => Throw "unreachable")
        (fun _ => Throw "unreachable")
        (fun _ => "Unexpected end of JSON input").

(** A model output whose first fenced block is empty and whose second one
    is the example of the specification. *)
Definition empty_block_text : string :=
  "Here you are:" ++ fence_open ++ fence_close ++ spec_example_text.

(** The files the loop went through on a path. *)
Definition seen_of (x : Exit) : list File :=
  match x with
  | UploadFailed _ => []
  | PollFailed _ seen _ | ProcessingFailed _ seen _ | GenerateFailed _ seen _ _
  | TextFailed _ seen _ _ | NoFence _ seen _ _ | BadJson _ seen _ _ _ _
  | Responded _ seen _ _ _ _ _ => seen
  end.

(** ** The browser client: the [App] component *)

Module Frontend.

(** A value of the component: [None] is [undefined]. *)
Definition JSValue : Set := option JSON.

(** JavaScript truthiness of a JSON value (a number is falsy when it is
    zero). *)
Definition truthy_json (v : JSON) : bool :=
  match v with
  | JNull => false
  | JBool b => b
  | JNumber (Zero _) => false
  | JNumber _ => true
  | JString s => negb (String.eqb s EmptyString)
  | JArray _ | JObject _ => true
  end.

Definition truthy (v : JSValue) : bool :=
  match v with
  | None => false
  | Some x => truthy_json x
  end.

(** The property names the component reads.  None of them is a property of
    the prototypes of strings, numbers, booleans, arrays or plain objects. *)
Inductive Key : Set :=
| k_error | k_english_speaking | k_confidence | k_humility
| k_overall_summary | k_score | k_reasoning.

Definition key_name (k : Key) : string :=
  match k with
  | k_error => "error"
  | k_english_speaking => "english_speaking"
  | k_confidence => "confidence"
  | k_humility => "humility"
  | k_overall_summary => "overall_summary"
  | k_score => "score"
  | k_reasoning => "reasoning"
  end.

(** [v.k]: [None] stands for the TypeError that reading a property of
    [undefined] or [null] throws; a parsed object answers with its own
    member (the last one of that name) or [undefined]; any other value
    answers [undefined]. *)
Definition read_property (k : Key) (v : JSValue) : option JSValue :=
  match v with
  | None => None
  | Some JNull => None
  | Some (JObject ms) => Some (lookup_last (key_name k) ms)
  | Some _ => Some None
  end.

(** A [File] of the file input. *)
Record BrowserFile : Set := mkBrowserFile { file_name : string; file_type : string }.

(** The state of the component: the five [useState] cells. *)
Record State : Set := mkState {
  selectedFile : option BrowserFile;
  analysisResult : JSON;
  isLoading : bool;
  error : option string;
  fileName : string
}.

(** The state at the first render. *)
Definition initialState : State := mkState None JNull false None EmptyString.

Definition setSelectedFile (f : option BrowserFile) (st : State) : State :=
  mkState f (analysisResult st) (isLoading st) (error st) (fileName st).
Definition setAnalysisResult (v : JSON) (st : State) : State :=
  mkState (selectedFile st) v (isLoading st) (error st) (fileName st).
Definition setIsLoading (b : bool) (st : State) : State :=
  mkState (selectedFile st) (analysisResult st) b (error st) (fileName st).
Definition setError (e : option string) (st : State) : State :=
  mkState (selectedFile st) (analysisResult st) (isLoading st) e (fileName st).
Definition setFileName (n : string) (st : State) : State :=
  mkState (selectedFile st) (analysisResult st) (isLoading st) (error st) n.

(** What the engine decides: the text of [String(v)] for a value that is
    not a string (or the message of the error the conversion throws), and
    the message of the TypeError for a property read on [null]. *)
Record Engine : Type := mkEngine {
  toString : JSON -> Result string;
  nullReadMessage : string
}.

(** The request handed to [fetch]: URL, method and the fields of the form
    data. *)
Record FetchRequest : Set := mkFetchRequest {
  url : string;
  method : string;
  body : list (string * BrowserFile)
}.

(** How [fetch] settles: rejected with an error (its message), or resolved
    with a response, of which the component reads [ok] and [json()]. *)
Inductive Settled : Type :=
| Rejected (message : string)
| Resolved (ok : bool) (json : Result JSON).

(** What the handlers do besides setting state. *)
Inductive Effect : Type :=
| PreventDefault
| Fetch (req : FetchRequest)
| ConsoleError (text message : string).

(** [handleFileChange]: [chosen] is [event.target.files[0]]. *)
Definition handleFileChange (chosen : option BrowserFile) (st : State) : State :=
  match chosen with
  | Some f =>
      setError None
        (setAnalysisResult JNull
           (setFileName (file_name f) (setSelectedFile (Some f) st)))
  | None => st
  end.

(** The message of [new Error(v)]. *)
Definition message_of (eng : Engine) (v : JSON) : string :=
  match v with
  | JString s => s
  | _ =>
      match toString eng v with
      | Ok s => s
      | Throw m => m
      end
  end.

(** The [try] block of [handleSubmit] once [fetch] has settled: the data to
    show, or the message of the error thrown. *)
Definition settled_data (eng : Engine) (o : Settled) : Result JSON :=
  match o with
  | Rejected m => Throw m
  | Resolved ok json =>
      if negb ok then
        match json with
        | Throw m => Throw m
        | Ok errData =>
            match read_property k_error (Some errData) with
            | None => Throw (nullReadMessage eng)
            | Some v =>
                Throw (message_of eng
                         (match v with
                          | Some x =>
                              if truthy_json x then x
                              else JString "An unknown error occurred."
                          | None => JString "An unknown error occurred."
                          end))
            end
        end
      else json
  end.

(** [handleSubmit]: the state once the handler has run as far as it can,
    and its effects in order.  [fetch] answers [None] while the request is
    in flight. *)
Definition handleSubmit (eng : Engine) (fetch : FetchRequest -> option Settled)
  (st : State) : State * list Effect :=
  match selectedFile st with
  | None =>
      (setError (Some "Please select a video file first.") st, [PreventDefault])
  | Some f =>
      let st1 := setAnalysisResult JNull (setError None (setIsLoading true st)) in
      let req := mkFetchRequest "http://localhost:5001/analyze" "POST" [("video", f)] in
      match fetch req with
      | None => (st1, [PreventDefault; Fetch req])
      | Some o =>
          match settled_data eng o with
          | Ok data =>
              (setIsLoading false (setAnalysisResult data st1),
               [PreventDefault; Fetch req])
          | Throw message =>
              (setIsLoading false (setError (Some message) st1),
               [PreventDefault; Fetch req; ConsoleError "Submission error:" message])
          end
      end
  end.

(** The props of a [ResultCard]. *)
Record Card : Set := mkCard {
  title : string;
  icon : string;
  score : JSValue;
  reasoning : JSValue
}.

(** The results section: the three cards and the summary. *)
Record Results : Set := mkResults { cards : list Card; summary : JSValue }.

(** The element tree [App] returns, by its parts that depend on the state.
    [results] is the value of [analysisResult && (...)]: the falsy
    [analysisResult] itself, or the section. *)
Record View : Set := mkView {
  label : string;
  button_disabled : bool;
  button_text : string;
  spinner : bool;
  error_shown : option string;
  results : JSON + Results
}.

(** One card: [analysisResult.category.score] and
    [analysisResult.category.reasoning]. *)
Definition ResultCard (cardTitle cardIcon : string) (category : Key) (a : JSON)
  : option Card :=
  match read_property category (Some a) with
  | None => None
  | Some c =>
      match read_property k_score c, read_property k_reasoning c with
      | Some s, Some r => Some (mkCard cardTitle cardIcon s r)
      | _, _ => None
      end
  end.

Definition results_section (a : JSON) : option (JSON + Results) :=
  if truthy_json a then
    match ResultCard "English Speaking" "🇬🇧" k_english_speaking a,
          ResultCard "Confidence" "💪" k_confidence a,
          ResultCard "Humility" "🤝" k_humility a,
          read_property k_overall_summary (Some a) with
    | Some e, Some c, Some h, Some s => Some (inr (mkResults [e; c; h] s))
    | _, _, _, _ => None
    end
  else Some (inl a).

(** [App]: [None] stands for the TypeError thrown while the tree is
    built. *)
Definition App (st : State) : option View :=
  match results_section (analysisResult st) with
  | None => None
  | Some section =>
      Some (mkView
              (if String.eqb (fileName st) EmptyString
               then "Click to Select a Video File" else fileName st)
              (isLoading st ||
               match selectedFile st with Some _ => false | None => true end)
              (if isLoading st then "Analyzing..." else "Analyze Video")
              (isLoading st)
              (match error st with
               | Some m => if String.eqb m EmptyString then None else Some m
               | None => None
               end)
              section)
  end.

(** [response.ok]: the status is in the range 200 to 299. *)
Definition response_ok (status : Z) : bool := ((200 <=? status) && (status <=? 299))%Z.

(** What [fetch] resolves with when the server has written [status] and
    [responseBody] as JSON. *)
Definition delivered (status : Z) (responseBody : JSON) : Settled :=
  Resolved (response_ok status) (Ok responseBody).

(** The requests handed to [fetch]. *)
Definition fetches (effects : list Effect) : list FetchRequest :=
  flat_map (fun e => match e with Fetch req => [req] | _ => [] end) effects.

(** The request [handleSubmit] makes for the file [f]. *)
Definition analyze_request (f : BrowserFile) : FetchRequest :=
  mkFetchRequest "http://localhost:5001/analyze" "POST" [("video", f)].

(** A category is missing from [a]: [a.k] is [undefined] or [null]. *)
Definition absent (k : string) (a : JSON) : bool :=
  match get k a with
  | None | Some JNull => true
  | Some _ => false
  end.

(** [handleSubmit] in two steps, around [await fetch(...)]: what it does
    before, and what it does once [fetch] has settled with [o]. *)
Definition submit_start (st : State) : State :=
  setAnalysisResult JNull (setError None (setIsLoading true st)).

Definition submit_settle (eng : Engine) (o : Settled) (st : State) : State :=
  match settled_data eng o with
  | Ok data => setIsLoading false (setAnalysisResult data st)
  | Throw message => setIsLoading false (setError (Some message) st)
  end.

(** The component in the page: its state, and whether a request made by
    [handleSubmit] has not settled yet. *)
Record Page : Set := mkPage { ui : State; in_flight : bool }.

Definition initialPage : Page := mkPage initialState false.

(** What can happen to the page: the user picks a file or cancels the
    dialog; the user clicks the button, which is possible when it is not
    disabled; a request in flight settles. *)
Inductive step (eng : Engine) : Page -> Page -> Prop :=
| step_choose (p : Page) (chosen : option BrowserFile) :
    step eng p (mkPage (handleFileChange chosen (ui p)) (in_flight p))
| step_click (p : Page) (f : BrowserFile) :
    isLoading (ui p) = false ->
    selectedFile (ui p) = Some f ->
    step eng p (mkPage (submit_start (ui p)) true)
| step_settle (p : Page) (o : Settled) :
    in_flight p = true ->
    step eng p (mkPage (submit_settle eng o (ui p)) false).

Inductive reachable (eng : Engine) : Page -> Prop :=
| reachable_initial : reachable eng initialPage
| reachable_step (p q : Page) : reachable eng p -> step eng p q -> reachable eng q.

(** Sample values. *)
Definition sample_engine : Engine :=
  mkEngine (fun _ => Ok "[object Object]") "Cannot read properties of null".
Definition sample_file : BrowserFile := mkBrowserFile "interview.mp4" "video/mp4".
Definition sample_state : State :=
  mkState (Some sample_file) (JBool true) false (Some "old error") "interview.mp4".

End Frontend.
(** * Properties *)

(** ** The polling loop *)

Section PollFacts.

Variable env : Env.

Lemma after_rounds_cons f seen w :
  after_rounds (f :: seen) w =
  after_rounds seen
    (mkWorld (fs w) (sent w) (S (polls w)) (rev (round f) ++ trace w)).
Proof.
  unfold after_rounds; cbn [fs sent polls trace flat_map length].
  f_equal; [lia|].
  now rewrite rev_app_distr, <- app_assoc.
Qed.

Lemma after_rounds_nil w : after_rounds [] w = w.
Proof.
  destruct w; unfold after_rounds; cbn. now rewrite Nat.add_0_r.
Qed.

(** A turn of the loop, as the monad runs it. *)
Lemma poll_unfold fuel f w :
  String.eqb (state f) "PROCESSING" = true ->
  poll env (S fuel) f w =
  match getFile env (polls w) (name f) with
  | Ok f' =>
      poll env fuel f'
           (mkWorld (fs w) (sent w) (S (polls w)) (rev (round f) ++ trace w))
  | Throw e =>
      Some (Throw e,
            mkWorld (fs w) (sent w) (S (polls w)) (rev (round f) ++ trace w))
  end.
Proof.
  intros Hp. cbn [poll]. rewrite Hp.
  unfold bind, logger_info, setTimeout, emit, fileManager_getFile; cbn.
  destruct (getFile env (polls w) (name f)); reflexivity.
Qed.

Lemma poll_stop fuel f w :
  String.eqb (state f) "PROCESSING" = false ->
  poll env fuel f w = Some (Ok f, w).
Proof.
  intros Hp. destruct fuel; cbn [poll]; rewrite Hp; reflexivity.
Qed.

Lemma poll_sound fuel : forall f w r w',
  poll env fuel f w = Some (r, w') ->
  exists seen,
    polled env (polls w) f seen r /\ length seen <= fuel /\ w' = after_rounds seen w.
Proof.
  induction fuel as [|fuel IH]; intros f w r w' H.
  - destruct (String.eqb (state f) "PROCESSING") eqn:Hp.
    + cbn [poll] in H. rewrite Hp in H. discriminate.
    + rewrite poll_stop in H by assumption. inversion H; subst.
      exists []. split; [now constructor|]. split; [cbn; lia|].
      now rewrite after_rounds_nil.
  - destruct (String.eqb (state f) "PROCESSING") eqn:Hp.
    + rewrite poll_unfold in H by assumption.
      destruct (getFile env (polls w) (name f)) as [f'|e] eqn:Hg.
      * apply IH in H. destruct H as (seen & Hpolled & Hlen & ->).
        exists (f :: seen). cbn [polls] in Hpolled.
        split; [now apply polled_step with f'|].
        split; [cbn; lia|]. now rewrite after_rounds_cons.
      * inversion H; subst. exists [f].
        split; [now apply polled_throw|]. split; [cbn; lia|].
        now rewrite after_rounds_cons, after_rounds_nil.
    + rewrite poll_stop in H by assumption. inversion H; subst.
      exists []. split; [now constructor|]. split; [cbn; lia|].
      now rewrite after_rounds_nil.
Qed.

Lemma poll_complete p f seen r :
  polled env p f seen r ->
  forall fuel w, length seen <= fuel -> polls w = p ->
  poll env fuel f w = Some (r, after_rounds seen w).
Proof.
  induction 1 as [p f Hp | p f e Hp Hg | p f f' seen r Hp Hg _ IH];
    intros fuel w Hlen Hw.
  - rewrite poll_stop by assumption. now rewrite after_rounds_nil.
  - destruct fuel as [|fuel]; [cbn in Hlen; lia|].
    rewrite poll_unfold by assumption. rewrite Hw, Hg.
    rewrite after_rounds_cons, after_rounds_nil. now rewrite Hw.
  - destruct fuel as [|fuel]; [cbn in Hlen; lia|].
    rewrite poll_unfold by assumption. rewrite Hw, Hg.
    rewrite after_rounds_cons, Hw. apply IH; [cbn in Hlen; lia | reflexivity].
Qed.

(** The loop hands over a file only when its state is not PROCESSING. *)
Lemma polled_result p f seen f' :
  polled env p f seen (Ok f') -> String.eqb (state f') "PROCESSING" = false.
Proof.
  remember (Ok f') as r eqn:Hr. induction 1; try discriminate; auto.
  now inversion Hr; subst.
Qed.

(** While every answer keeps the state PROCESSING the loop is still running,
    whatever the fuel. *)
Lemma poll_never fuel : forall f w,
  String.eqb (state f) "PROCESSING" = true ->
  (forall n nm, still_processing (getFile env n nm) = true) ->
  poll env fuel f w = None.
Proof.
  induction fuel as [|fuel IH]; intros f w Hp Hall.
  - cbn [poll]. now rewrite Hp.
  - rewrite poll_unfold by assumption.
    pose proof (Hall (polls w) (name f)) as Hnext.
    destruct (getFile env (polls w) (name f)) as [f'|e]; [|discriminate].
    apply IH; [exact Hnext | assumption].
Qed.

(** Once some answer is not PROCESSING, fuel up to that answer is enough. *)
Lemma poll_finishes n : forall d f w,
  (forall nm, still_processing (getFile env n nm) = false) ->
  polls w + d = n ->
  poll env (S d) f w <> None.
Proof.
  intros d; induction d as [|d IH]; intros f w Hn Hw.
  - destruct (String.eqb (state f) "PROCESSING") eqn:Hp.
    + rewrite poll_unfold by assumption.
      replace (polls w) with n by lia.
      specialize (Hn (name f)).
      destruct (getFile env n (name f)) as [f'|e]; [|discriminate].
      cbn in Hn. now rewrite poll_stop.
    + now rewrite poll_stop.
  - destruct (String.eqb (state f) "PROCESSING") eqn:Hp.
    + rewrite poll_unfold by assumption.
      destruct (getFile env (polls w) (name f)) as [f'|e]; [|discriminate].
      apply IH; [assumption | cbn; lia].
    + now rewrite poll_stop.
Qed.

End PollFacts.


(** ** [JSON.parse] on sample texts *)

Example parse_sample :
  Json.parse
    (quoted "{'a': [1, 2.50, -3e2, true, null, 0.0, 1200], 'b': 'x\nA\u00e9', 'a': {}} ")
  = Some (JObject [("a", JObject []);
                   ("b", JString (String "x" (String "010" (String "A"
                                    (String "195" (String "169" EmptyString))))))]).
Proof. vm_compute. reflexivity. Qed.

Example parse_numbers :
  Json.parse "[1, 2.50, -3e2, 0.0, -0, 1200, 0.1, 9007199254740993, 1e400, 1e-400]"
  = Some (JArray [JNumber (Finite 1 0); JNumber (Finite 5 (-1));
                  JNumber (Finite (-75) 2); JNumber (Zero false); JNumber (Zero true);
                  JNumber (Finite 75 4); JNumber (Finite 3602879701896397 (-55));
                  JNumber (Finite 1 53); JNumber (Infinite false);
                  JNumber (Zero false)]).
Proof. vm_compute. reflexivity. Qed.

Example parse_member_order :
  Json.parse (quoted "{'b': 1, '2': 2, '01': 0, '1': 3, 'b': 4}")
  = Some (JObject [("1", JNumber (Finite 3 0)); ("2", JNumber (Finite 1 1));
                   ("b", JNumber (Finite 1 2)); ("01", JNumber (Zero false))]).
Proof. vm_compute. reflexivity. Qed.

Example parse_nested :
  Json.parse "[[[[[[[[1]]]]]]], [], [[2, [3]]]]"
  = Some (JArray [JArray [JArray [JArray [JArray [JArray [JArray
                    [JArray [JNumber (number_of_Z 1)]]]]]]];
                  JArray [];
                  JArray [JArray [JNumber (number_of_Z 2);
                                  JArray [JNumber (number_of_Z 3)]]]]).
Proof. vm_compute. reflexivity. Qed.

Example parse_rejects :
  map Json.parse
      [EmptyString; "{"; "[1,]"; "01"; quoted "{'a':1,}"; "1 2"; "'a'"; "tru"; "1."; "-";
       "[1 2]"; quoted "'\x'"; quoted "{'a' 1}"; "[[[[1]]]"]
  = repeat None 14.
Proof. vm_compute. reflexivity. Qed.

Example parse_surrogate_pair :
  Json.parse (quoted "'\ud83d\ude00'")
  = Some (JString (String "240" (String "159" (String "152" (String "128" EmptyString))))).
Proof. vm_compute. reflexivity. Qed.

Example get_keeps_last :
  option_map (get "a") (Json.parse (quoted "{'a': 1, 'b': 2, 'a': 3}"))
  = Some (Some (JNumber (number_of_Z 3))).
Proof. vm_compute. reflexivity. Qed.

Example match_example :
  match_json_fence spec_example_text = Some (mkMatch 7 spec_example_payload).
Proof. vm_compute. reflexivity. Qed.

Example basename_example : path_basename "uploads/3f9c" = "3f9c".
Proof. reflexivity. Qed.

(** ** The fence pattern *)

Section RegexFacts.

#[local] Arguments Ascii.eqb : simpl never.

Lemma app_string_assoc (a b c : string) : (a ++ b) ++ c = a ++ (b ++ c).
Proof. induction a as [|ch a IH]; cbn; [reflexivity | now rewrite IH]. Qed.

Lemma app_string_empty (a : string) : a ++ EmptyString = a.
Proof. induction a as [|ch a IH]; cbn; [reflexivity | now rewrite IH]. Qed.

Lemma length_app_string (a b : string) :
  String.length (a ++ b) = String.length a + String.length b.
Proof. induction a as [|ch a IH]; cbn; [reflexivity | now rewrite IH]. Qed.

Lemma strip_prefix_app (p s : string) : strip_prefix p (p ++ s) = Some s.
Proof.
  induction p as [|a p IH]; cbn; [reflexivity|].
  now rewrite Ascii.eqb_refl.
Qed.

Lemma strip_prefix_inv (p : string) : forall s r,
  strip_prefix p s = Some r -> s = p ++ r.
Proof.
  induction p as [|a p IH]; cbn; intros s r H.
  - now inversion H.
  - destruct s as [|b s]; [discriminate|].
    destruct (Ascii.eqb a b) eqn:E; [|discriminate].
    apply Ascii.eqb_eq in E; subst b. now rewrite (IH _ _ H).
Qed.

(** A prefix that fits in the first part of a text is a prefix of it. *)
Lemma strip_prefix_within (p : string) : forall a b,
  String.length p <= String.length a ->
  strip_prefix p (a ++ b) <> None -> strip_prefix p a <> None.
Proof.
  induction p as [|c p IH]; cbn; intros a b Hlen H; [discriminate|].
  destruct a as [|d a]; cbn in *; [lia|].
  destruct (Ascii.eqb c d); [|exact H].
  apply (IH a b); [lia | exact H].
Qed.

Lemma strip_prefix_extend (p : string) : forall a b,
  strip_prefix p a <> None -> strip_prefix p (a ++ b) <> None.
Proof.
  induction p as [|c p IH]; cbn; intros a b H; [discriminate|].
  destruct a as [|d a]; cbn in *; [congruence|].
  destruct (Ascii.eqb c d); [|exact H].
  now apply IH.
Qed.

Lemma occurs_app_r (p a b : string) :
  occurs p b = true -> occurs p (a ++ b) = true.
Proof.
  intros H. induction a as [|c a IH]; cbn [append]; [exact H|].
  cbn [occurs]. destruct (strip_prefix p (String c (a ++ b))); [reflexivity | exact IH].
Qed.

Lemma occurs_app_l (p a b : string) :
  occurs p a = true -> occurs p (a ++ b) = true.
Proof.
  induction a as [|c a IH]; intros H.
  - cbn in H. destruct p; [|discriminate].
    destruct b; reflexivity.
  - cbn [append occurs] in *.
    destruct (strip_prefix p (String c a)) eqn:E.
    + destruct (strip_prefix p (String c (a ++ b))) eqn:E'; [reflexivity|].
      exfalso. apply (strip_prefix_extend p (String c a) b); [congruence | exact E'].
    + destruct (strip_prefix p (String c (a ++ b))); [reflexivity | now apply IH].
Qed.

Lemma occurs_here (p s : string) : occurs p (p ++ s) = true.
Proof.
  destruct (p ++ s) eqn:E; cbn [occurs]; rewrite <- E, strip_prefix_app; reflexivity.
Qed.

(** The closing literal cannot begin inside a group [g] that it ends: its
    last three characters are not line feeds. *)
Lemma close_not_straddling (c : ascii) (g rest : string) :
  strip_prefix fence_close (String c g) = None ->
  strip_prefix fence_close (String c (g ++ fence_close ++ rest)) = None.
Proof.
  cbn. destruct (Ascii.eqb "010" c); [|reflexivity].
  destruct g as [|c1 g]; cbn; [reflexivity|].
  destruct (Ascii.eqb "`" c1) eqn:E1; [|reflexivity].
  destruct g as [|c2 g]; cbn; [reflexivity|].
  destruct (Ascii.eqb "`" c2) eqn:E2; [|reflexivity].
  destruct g as [|c3 g]; cbn; [reflexivity|].
  destruct (Ascii.eqb "`" c3) eqn:E3; [|reflexivity].
  discriminate.
Qed.

Lemma occurs_cons_false (p : string) (c : ascii) (s : string) :
  occurs p (String c s) = false ->
  strip_prefix p (String c s) = None /\ occurs p s = false.
Proof.
  cbn [occurs]. destruct (strip_prefix p (String c s)); [discriminate | auto].
Qed.

(** The lazy group stops at the first closing literal. *)
Lemma lazy_group_first (g rest : string) :
  occurs fence_close g = false ->
  lazy_group (g ++ fence_close ++ rest) = Some g.
Proof.
  induction g as [|c g IH]; intros H.
  - reflexivity.
  - apply occurs_cons_false in H. destruct H as (Hhere & Hlater).
    cbn [append lazy_group].
    rewrite (close_not_straddling c g rest Hhere).
    now rewrite (IH Hlater).
Qed.

Lemma lazy_group_inv : forall s g,
  lazy_group s = Some g ->
  occurs fence_close g = false /\
  exists rest, s = g ++ fence_close ++ rest.
Proof.
  induction s as [|c s IH]; intros g H.
  - discriminate.
  - cbn [lazy_group] in H.
    destruct (strip_prefix fence_close (String c s)) as [rest|] eqn:E.
    + inversion H; subst. split; [reflexivity|].
      exists rest. exact (strip_prefix_inv _ _ _ E).
    + destruct (lazy_group s) as [g'|] eqn:Eg; [|discriminate].
      inversion H; subst. destruct (IH g' eq_refl) as (Hocc & rest & ->).
      split; [|now exists rest].
      cbn [occurs]. destruct (strip_prefix fence_close (String c g')) eqn:E'; [|exact Hocc].
      exfalso.
      apply (strip_prefix_extend fence_close (String c g') (fence_close ++ rest));
        [congruence | exact E].
Qed.

(** A closing literal anywhere in the text ends the lazy group. *)
Lemma lazy_group_finds : forall s,
  occurs fence_close s = true -> lazy_group s <> None.
Proof.
  induction s as [|c s IH]; intros H; [discriminate|].
  cbn [lazy_group]. cbn [occurs] in H.
  destruct (strip_prefix fence_close (String c s)); [discriminate|].
  specialize (IH H). destruct (lazy_group s); [discriminate | congruence].
Qed.

Lemma match_here_inv (s g : string) :
  match_here s = Some g ->
  occurs fence_close g = false /\
  exists rest, s = fence_open ++ g ++ fence_close ++ rest.
Proof.
  unfold match_here. destruct (strip_prefix fence_open s) as [r|] eqn:E; [|discriminate].
  intros H. apply lazy_group_inv in H. destruct H as (Hocc & rest & ->).
  split; [exact Hocc|]. exists rest. now apply strip_prefix_inv.
Qed.

(** A match has the two literals around its group, the closing one for the
    first time. *)
Lemma exec_from_inv : forall s i m,
  exec_from i s = Some m ->
  occurs fence_close (group1 m) = false /\
  exists pre rest,
    s = pre ++ fence_open ++ group1 m ++ fence_close ++ rest /\
    index m = i + String.length pre.
Proof.
  induction s as [|c s IH]; intros i m H.
  - discriminate.
  - cbn [exec_from] in H.
    destruct (match_here (String c s)) as [g|] eqn:E.
    + inversion H; subst. apply match_here_inv in E.
      destruct E as (Hocc & rest & E). split; [exact Hocc|].
      exists EmptyString, rest. cbn. split; [exact E | lia].
    + apply IH in H. destruct H as (Hocc & pre & rest & -> & Hi).
      split; [exact Hocc|]. exists (String c pre), rest.
      cbn. split; [reflexivity | lia].
Qed.

(** Without the opening literal there is no match. *)
Lemma exec_from_none : forall s i,
  occurs fence_open s = false -> exec_from i s = None.
Proof.
  induction s as [|c s IH]; intros i H.
  - reflexivity.
  - apply occurs_cons_false in H. destruct H as (Hhere & Hlater).
    cbn [exec_from]. unfold match_here. rewrite Hhere. now apply IH.
Qed.

(** The first block wins: when the opening literal does not start before
    the end of [pre] and the closing one does not occur in [g]. *)
Lemma exec_from_first (g rest : string) : forall pre i,
  occurs fence_open (pre ++ fence_stem) = false ->
  occurs fence_close g = false ->
  exec_from i (pre ++ fence_open ++ g ++ fence_close ++ rest)
  = Some (mkMatch (i + String.length pre) g).
Proof.
  induction pre as [|c pre IH]; intros i Hpre Hg.
  - cbn [append String.length].
    assert (E : match_here (fence_open ++ g ++ fence_close ++ rest) = Some g).
    { unfold match_here. rewrite strip_prefix_app. now apply lazy_group_first. }
    destruct (fence_open ++ g ++ fence_close ++ rest) eqn:Es;
      cbn [exec_from]; rewrite E; do 2 f_equal; lia.
  - cbn [append] in Hpre. apply occurs_cons_false in Hpre.
    destruct Hpre as (Hhere & Hlater).
    cbn [append exec_from String.length].
    assert (E : match_here (String c (pre ++ fence_open ++ g ++ fence_close ++ rest)) = None).
    { unfold match_here.
      destruct (strip_prefix fence_open
                  (String c (pre ++ fence_open ++ g ++ fence_close ++ rest))) eqn:E';
        [|reflexivity].
      exfalso.
      apply (strip_prefix_within fence_open (String c (pre ++ fence_stem))
               (LF ++ g ++ fence_close ++ rest)).
      - cbn. rewrite length_app_string. cbn. lia.
      - cbn [append]. rewrite app_string_assoc.
        change (fence_stem ++ LF ++ g ++ fence_close ++ rest)
          with (fence_open ++ g ++ fence_close ++ rest).
        congruence.
      - exact Hhere. }
    rewrite E. rewrite (IH (S i) Hlater Hg). do 2 f_equal. lia.
Qed.

End RegexFacts.

(** ** [JSON.parse] on the texts of an analysis *)

Module AnalysisFacts.

Import Analysis.

#[local] Open Scope list_scope.

Lemma la_app (a b : string) : la (a ++ b)%string = la a ++ la b.
Proof. induction a as [|c a IH]; cbn; [reflexivity | now rewrite IH]. Qed.

Lemma layout_app (gap : nat -> string) (ts1 ts2 : list Token) : forall i,
  layout gap i (ts1 ++ ts2)
  = (layout gap i ts1 ++ layout gap (length ts1 + i) ts2)%string.
Proof.
  induction ts1 as [|t ts1 IH]; intros i; cbn [layout app length].
  - reflexivity.
  - rewrite IH, !app_string_assoc. now rewrite Nat.add_succ_r.
Qed.

(** *** White space *)

Lemma skip_ws_blank (g : string) (cs : list ascii) :
  blank g = true -> skip_ws (la g ++ cs) = skip_ws cs.
Proof.
  unfold blank. induction g as [|c g IH]; cbn [la forallb app skip_ws]; intros H.
  - reflexivity.
  - apply andb_prop in H. destruct H as (-> & H). now apply IH.
Qed.

Lemma skip_ws_gap (g : string) (c : ascii) (cs : list ascii) :
  blank g = true -> is_ws c = false -> skip_ws (la g ++ c :: cs) = c :: cs.
Proof.
  intros Hg Hc. rewrite (skip_ws_blank g _ Hg). cbn [skip_ws]. now rewrite Hc.
Qed.

Lemma skip_ws_end (g : string) : blank g = true -> skip_ws (la g) = [].
Proof.
  intros Hg. rewrite <- (app_nil_r (la g)). now rewrite (skip_ws_blank g _ Hg).
Qed.

(** *** The cases of the parser *)

Lemma parse_value_string (f : nat) (cs rest : list ascii) :
  skip_ws cs = dquote :: rest ->
  parse_value (S f) cs
  = match parse_string rest with
    | Some (s, r) => Some (JString s, r)
    | None => None
    end.
Proof. intros H. cbn [parse_value]. rewrite H. reflexivity. Qed.

Lemma parse_value_object (f : nat) (cs rest r0 : list ascii) :
  skip_ws cs = "{"%char :: rest ->
  skip_ws rest = dquote :: r0 ->
  parse_value (S f) cs = parse_members f rest [].
Proof. intros H H0. cbn [parse_value]. rewrite H, H0. reflexivity. Qed.

Lemma parse_members_comma (f : nat) (cs r0 r1 r2 r3 r4 : list ascii)
  (k : string) (v : JSON) (acc : list (string * JSON)) :
  skip_ws cs = dquote :: r0 ->
  parse_string r0 = Some (k, r1) ->
  skip_ws r1 = ":"%char :: r2 ->
  parse_value f r2 = Some (v, r3) ->
  skip_ws r3 = ","%char :: r4 ->
  parse_members (S f) cs acc = parse_members f r4 (define_member k v acc).
Proof.
  intros H H0 H1 H2 H3. cbn [parse_members]. rewrite H, H0, H1, H2, H3. reflexivity.
Qed.

Lemma parse_members_close (f : nat) (cs r0 r1 r2 r3 r4 : list ascii)
  (k : string) (v : JSON) (acc : list (string * JSON)) :
  skip_ws cs = dquote :: r0 ->
  parse_string r0 = Some (k, r1) ->
  skip_ws r1 = ":"%char :: r2 ->
  parse_value f r2 = Some (v, r3) ->
  skip_ws r3 = "}"%char :: r4 ->
  parse_members (S f) cs acc = Some (JObject (define_member k v acc), r4).
Proof.
  intros H H0 H1 H2 H3. cbn [parse_members]. rewrite H, H0, H1, H2, H3. reflexivity.
Qed.

(** *** String literals *)

Lemma parse_string_items_plain (s : string) (cs : list ascii) :
  plain s = true ->
  parse_string_items (la s ++ dquote :: cs) = Some (map SByte (la s), cs).
Proof.
  unfold plain. induction s as [|c s IH]; cbn [la forallb app map]; intros H.
  - reflexivity.
  - apply andb_prop in H. destruct H as (Hc & H).
    unfold plain_char in Hc. apply andb_prop in Hc. destruct Hc as (Hc & Hctl).
    apply andb_prop in Hc. destruct Hc as (Hq & Hb).
    apply negb_true_iff in Hq, Hb, Hctl.
    cbn [parse_string_items]. rewrite Hq, Hb, Hctl, (IH H). reflexivity.
Qed.

Lemma encode_bytes (l : list ascii) : encode_items (map SByte l) = l.
Proof. induction l as [|c l IH]; cbn; [reflexivity | now rewrite IH]. Qed.

Lemma parse_string_plain (s : string) (cs : list ascii) :
  plain s = true -> parse_string (la s ++ dquote :: cs) = Some (s, cs).
Proof.
  intros H. unfold parse_string. rewrite (parse_string_items_plain s cs H).
  now rewrite encode_bytes, string_of_list_ascii_of_string.
Qed.

Lemma value_string (f : nat) (g s : string) (cs : list ascii) :
  blank g = true -> plain s = true ->
  parse_value (S f) (la g ++ dquote :: la s ++ dquote :: cs) = Some (JString s, cs).
Proof.
  intros Hg Hs.
  rewrite (parse_value_string f _ (la s ++ dquote :: cs)).
  - now rewrite (parse_string_plain s cs Hs).
  - now apply skip_ws_gap.
Qed.

(** *** Numerals *)

Lemma delimiter_stops (c : ascii) (rest : list ascii) :
  delimiter c = true ->
  digit_of c = None /\
  parse_frac (c :: rest) = Some ([], c :: rest) /\
  parse_exp (c :: rest) = Some (0%Z, c :: rest) /\
  (is_ws c = false -> skip_ws (c :: rest) = c :: rest).
Proof.
  intros H.
  destruct c as [[] [] [] [] [] [] [] []]; vm_compute in H; try discriminate H;
    (split; [reflexivity|]); (split; [reflexivity|]); (split; [reflexivity|]);
    intros Hws; cbn [skip_ws]; now rewrite Hws.
Qed.

Ltac next_digit k Hspan Hval :=
  match goal with
  | ds : list Z |- _ =>
      exists (k :: ds); split;
      [ cbn [span_digits];
        match goal with
        | |- context [digit_of ?c] => change (digit_of c) with (Some k)
        end;
        cbv iota; now rewrite Hspan
      | let acc := fresh "acc" in
        let Hacc := fresh "Hacc" in
        intros acc Hacc; cbn [fold_left Nat.of_uint_acc]; rewrite Hval by lia;
        do 2 f_equal; rewrite Nat.tail_mul_spec; lia ]
  end.

(** The digits of a numeral are read back as the number they print. *)
Lemma span_uint (c : ascii) (rest : list ascii) :
  digit_of c = None ->
  forall d : Decimal.uint,
  exists ds,
    span_digits (la (DecimalString.NilEmpty.string_of_uint d) ++ c :: rest)
    = (ds, c :: rest) /\
    forall acc, (0 <= acc)%Z ->
      fold_left (fun a x => (10 * a + x)%Z) ds acc
      = Z.of_nat (Nat.of_uint_acc d (Z.to_nat acc)).
Proof.
  intros Hc.
  induction d as [|d (ds & Hspan & Hval)|d (ds & Hspan & Hval)|d (ds & Hspan & Hval)
                  |d (ds & Hspan & Hval)|d (ds & Hspan & Hval)|d (ds & Hspan & Hval)
                  |d (ds & Hspan & Hval)|d (ds & Hspan & Hval)|d (ds & Hspan & Hval)
                  |d (ds & Hspan & Hval)];
    cbn [DecimalString.NilEmpty.string_of_uint la app].
  - exists []. split.
    + cbn [span_digits]. now rewrite Hc.
    + intros acc Hacc. cbn. lia.
  - next_digit 0%Z Hspan Hval.
  - next_digit 1%Z Hspan Hval.
  - next_digit 2%Z Hspan Hval.
  - next_digit 3%Z Hspan Hval.
  - next_digit 4%Z Hspan Hval.
  - next_digit 5%Z Hspan Hval.
  - next_digit 6%Z Hspan Hval.
  - next_digit 7%Z Hspan Hval.
  - next_digit 8%Z Hspan Hval.
  - next_digit 9%Z Hspan Hval.
Qed.

(** A numeral is not empty and has no leading zero. *)
Lemma to_uint_normal (n : nat) :
  Nat.to_uint n <> Decimal.Nil /\
  forall d, Nat.to_uint n = Decimal.D0 d -> d = Decimal.Nil.
Proof.
  assert (Hnorm : Decimal.unorm (Nat.to_uint n) = Nat.to_uint n).
  { rewrite <- (DecimalNat.Unsigned.to_of (Nat.to_uint n)).
    now rewrite DecimalNat.Unsigned.of_to. }
  split.
  - rewrite <- Hnorm. apply DecimalFacts.unorm_nonnil.
  - intros d Hd. rewrite Hd in Hnorm. rewrite DecimalFacts.unorm_D0 in Hnorm.
    destruct d as [|d|d|d|d|d|d|d|d|d|d]; [reflexivity|..];
      match goal with
      | H : Decimal.unorm ?u = _ |- _ =>
          assert (Hlen : Decimal.nb_digits (Decimal.unorm u) <= Decimal.nb_digits u)
            by (apply DecimalFacts.nb_digits_unorm; discriminate);
          rewrite H in Hlen; cbn [Decimal.nb_digits] in Hlen; lia
      end.
Qed.

Lemma number_of_nat (n : nat) :
  number_of_Z (Z.of_nat n) = round_to_double false (Z.of_nat n) 0.
Proof.
  unfold number_of_Z. rewrite Z.abs_eq by lia.
  replace (Z.of_nat n <? 0)%Z with false; [reflexivity|].
  symmetry. apply Z.ltb_ge. lia.
Qed.

Lemma parse_number_numeral (n : nat) (c : ascii) (rest : list ascii) :
  delimiter c = true ->
  parse_number (la (numeral n) ++ c :: rest)
  = Some (number_of_Z (Z.of_nat n), c :: rest).
Proof.
  intros Hc. destruct (delimiter_stops c rest Hc) as (Hdigit & Hfrac & Hexp & _).
  destruct (to_uint_normal n) as (Hnil & Hzero).
  pose proof (DecimalNat.Unsigned.of_to n) as Hn. unfold Nat.of_uint in Hn.
  rewrite number_of_nat. unfold numeral.
  destruct (Nat.to_uint n) as [|d|d|d|d|d|d|d|d|d|d] eqn:E;
    [now contradiction Hnil | rewrite (Hzero d eq_refl) in * | ..];
    cbn [DecimalString.NilEmpty.string_of_uint la app];
    unfold parse_number; cbv beta iota;
    [ cbn [parse_int]; change (digit_of "0") with (Some 0%Z); cbv beta iota;
      rewrite Hfrac, Hexp; rewrite <- Hn; reflexivity | ..];
    destruct (span_uint c rest Hdigit d) as (ds & Hspan & Hval);
    cbn [parse_int span_digits];
    match goal with
    | |- context [digit_of ?ch] =>
        let k := eval vm_compute in (digit_of ch) in change (digit_of ch) with k
    end;
    cbv beta iota; rewrite Hspan; cbv beta iota; rewrite Hfrac, Hexp;
    rewrite app_nil_r; unfold Z_of_digits; cbn [fold_left length];
    rewrite Hval by lia; rewrite <- Hn; reflexivity.
Qed.

Lemma parse_value_number (f : nat) (cs : list ascii) (c : ascii) (rest : list ascii) :
  skip_ws cs = c :: rest ->
  (exists d, digit_of c = Some d) ->
  parse_value (S f) cs
  = match parse_number (c :: rest) with
    | Some (n, r) => Some (JNumber n, r)
    | None => None
    end.
Proof.
  intros H (d & Hd). cbn [parse_value]. rewrite H.
  destruct c as [[] [] [] [] [] [] [] []]; vm_compute in Hd; try discriminate Hd;
    reflexivity.
Qed.

Lemma numeral_head (n : nat) :
  exists c s d, numeral n = String c s /\ digit_of c = Some d /\ is_ws c = false.
Proof.
  unfold numeral. destruct (to_uint_normal n) as (Hnil & _).
  destruct (Nat.to_uint n) as [|u|u|u|u|u|u|u|u|u|u];
    [now contradiction Hnil | ..];
    cbn [DecimalString.NilEmpty.string_of_uint];
    do 3 eexists; (split; [reflexivity|]); split; reflexivity.
Qed.

Lemma value_number (f : nat) (g : string) (n : nat) (c : ascii) (rest : list ascii) :
  blank g = true -> delimiter c = true ->
  parse_value (S f) (la g ++ la (numeral n) ++ c :: rest)
  = Some (JNumber (number_of_Z (Z.of_nat n)), c :: rest).
Proof.
  intros Hg Hc.
  pose proof (parse_number_numeral n c rest Hc) as Hnum.
  destruct (numeral_head n) as (ch & s & d & Hs & Hd & Hws).
  rewrite Hs in *. cbn [la app] in *.
  rewrite (parse_value_number f _ ch (la s ++ c :: rest)).
  - now rewrite Hnum.
  - now apply skip_ws_gap.
  - now exists d.
Qed.

Lemma gap_delimited (g : string) (c : ascii) (rest : list ascii) :
  blank g = true -> delimiter c = true ->
  exists c' rest', la g ++ c :: rest = c' :: rest' /\ delimiter c' = true.
Proof.
  intros Hg Hc. destruct g as [|a g]; cbn [la app].
  - now exists c, rest.
  - exists a, (la g ++ c :: rest). split; [reflexivity|].
    unfold blank in Hg. cbn [la forallb] in Hg. apply andb_prop in Hg.
    unfold delimiter. now rewrite (proj1 Hg).
Qed.

Lemma value_number_gap (f : nat) (g g' : string) (n : nat) (c : ascii)
  (rest : list ascii) :
  blank g = true -> blank g' = true -> delimiter c = true ->
  parse_value (S f) (la g ++ la (numeral n) ++ la g' ++ c :: rest)
  = Some (JNumber (number_of_Z (Z.of_nat n)), la g' ++ c :: rest).
Proof.
  intros Hg Hg' Hc.
  destruct (gap_delimited g' c rest Hg' Hc) as (c' & rest' & -> & Hc').
  now apply value_number.
Qed.

(** *** The text of an analysis *)

Lemma la_layout_nil (gap : nat -> string) (i : nat) (cs : list ascii) :
  la (layout gap i []) ++ cs = cs.
Proof. reflexivity. Qed.

Lemma la_layout_cons (gap : nat -> string) (i : nat) (t : Token) (ts : list Token)
  (cs : list ascii) :
  la (layout gap i (t :: ts)) ++ cs
  = la (gap i) ++ la (token_text t) ++ la (layout gap (S i) ts) ++ cs.
Proof. cbn [layout]. now rewrite !la_app, <- !app_assoc. Qed.

Lemma la_open (cs : list ascii) : la (token_text TOpen) ++ cs = "{"%char :: cs.
Proof. reflexivity. Qed.

Lemma la_close (cs : list ascii) : la (token_text TClose) ++ cs = "}"%char :: cs.
Proof. reflexivity. Qed.

Lemma la_colon (cs : list ascii) : la (token_text TColon) ++ cs = ":"%char :: cs.
Proof. reflexivity. Qed.

Lemma la_comma (cs : list ascii) : la (token_text TComma) ++ cs = ","%char :: cs.
Proof. reflexivity. Qed.

Lemma la_string (s : string) (cs : list ascii) :
  la (token_text (TString s)) ++ cs = dquote :: la s ++ dquote :: cs.
Proof.
  cbn [token_text list_ascii_of_string app]. rewrite la_app, <- app_assoc. reflexivity.
Qed.

Lemma la_number (n : nat) (cs : list ascii) :
  la (token_text (TNumber n)) ++ cs = la (numeral n) ++ cs.
Proof. reflexivity. Qed.

Ltac spell :=
  rewrite ?la_layout_cons, ?la_layout_nil;
  rewrite ?la_open, ?la_close, ?la_colon, ?la_comma, ?la_string, ?la_number.

Ltac gap_step Hgap := apply skip_ws_gap; [apply Hgap | reflexivity].

Ltac key_step := apply parse_string_plain; reflexivity.

Lemma category_parse (f : nat) (gap : nat -> string) (i : nat) (c : Category)
  (rest : list ascii) :
  (forall j, blank (gap j) = true) ->
  plain (reasoning c) = true ->
  parse_value (S (S (S (S f)))) (la (layout gap i (category_tokens c)) ++ rest)
  = Some (category_json c, rest).
Proof.
  intros Hgap Hplain. unfold category_tokens. spell.
  erewrite parse_value_object; [|gap_step Hgap|gap_step Hgap].
  erewrite parse_members_comma;
    [|gap_step Hgap | key_step | gap_step Hgap
     |apply value_number_gap; [apply Hgap | apply Hgap | reflexivity]
     |gap_step Hgap].
  erewrite parse_members_close;
    [|gap_step Hgap | key_step | gap_step Hgap
     |apply value_string; [apply Hgap | exact Hplain]
     |gap_step Hgap].
  reflexivity.
Qed.

Lemma plain_result_parts (a : AnalysisResult) :
  plain_result a = true ->
  plain (reasoning (english_speaking a)) = true /\
  plain (reasoning (confidence a)) = true /\
  plain (reasoning (humility a)) = true /\
  plain (overall_summary a) = true.
Proof.
  unfold plain_result. intros H.
  apply andb_prop in H. destruct H as (H & H4).
  apply andb_prop in H. destruct H as (H & H3).
  apply andb_prop in H. destruct H as (H1 & H2). tauto.
Qed.

(** The parser reads a text of [a] as the value of [a], up to the white
    space after the last token. *)
Lemma result_parse (f : nat) (gap : nat -> string) (a : AnalysisResult) :
  (forall j, blank (gap j) = true) ->
  plain_result a = true ->
  parse_value (S (S (S (S (S (S (S (S f)))))))) (la (serialize gap a))
  = Some (to_json a, la (gap 41)).
Proof.
  intros Hgap Hplain.
  destruct (plain_result_parts a Hplain) as (H1 & H2 & H3 & H4).
  unfold serialize. change (length (result_tokens a)) with 41.
  unfold result_tokens. rewrite !layout_app, !la_app, <- !app_assoc.
  set (C1 := la (layout gap _ (category_tokens (english_speaking a)))).
  set (C2 := la (layout gap _ (category_tokens (confidence a)))).
  set (C3 := la (layout gap _ (category_tokens (humility a)))).
  spell.
  erewrite parse_value_object; [|gap_step Hgap|gap_step Hgap].
  erewrite parse_members_comma;
    [|gap_step Hgap | key_step | gap_step Hgap
     |apply category_parse; [exact Hgap | exact H1]
     |gap_step Hgap].
  erewrite parse_members_comma;
    [|gap_step Hgap | key_step | gap_step Hgap
     |apply category_parse; [exact Hgap | exact H2]
     |gap_step Hgap].
  erewrite parse_members_comma;
    [|gap_step Hgap | key_step | gap_step Hgap
     |apply category_parse; [exact Hgap | exact H3]
     |gap_step Hgap].
  erewrite parse_members_close;
    [|gap_step Hgap | key_step | gap_step Hgap
     |apply value_string; [apply Hgap | exact H4]
     |gap_step Hgap].
  reflexivity.
Qed.

Lemma serialize_length (gap : nat -> string) (a : AnalysisResult) :
  3 <= length (la (serialize gap a)).
Proof.
  unfold serialize, result_tokens. rewrite layout_app, !la_app.
  cbn [layout]. rewrite !la_app, !length_app. cbn. lia.
Qed.

(** [JSON.parse] of a text of [a] is the value of [a]. *)
Lemma parse_serialize (gap : nat -> string) (a : AnalysisResult) :
  (forall j, blank (gap j) = true) ->
  plain_result a = true ->
  Json.parse (serialize gap a) = Some (to_json a).
Proof.
  intros Hgap Hplain. unfold Json.parse.
  pose proof (serialize_length gap a) as Hlen.
  replace (2 * length (la (serialize gap a)) + 2)
    with (S (S (S (S (S (S (S (S (2 * length (la (serialize gap a)) - 6)))))))))
    by lia.
  rewrite (result_parse _ gap a Hgap Hplain).
  now rewrite (skip_ws_end _ (Hgap 41)).
Qed.

(** *** No closing fence in a text of an analysis *)

Ltac eval_eqb :=
  repeat match goal with
         | |- context [Ascii.eqb ?x ?y] =>
             is_ground x; is_ground y;
             let v := eval vm_compute in (Ascii.eqb x y) in
             change (Ascii.eqb x y) with v
         end.

Lemma ws_not_tick (c : ascii) :
  is_ws c = true -> Ascii.eqb c "`" = false.
Proof.
  intros H. destruct c as [[] [] [] [] [] [] [] []]; vm_compute in H;
    try discriminate H; reflexivity.
Qed.

Lemma plain_not_lf (c : ascii) :
  plain_char c = true -> Ascii.eqb c "010" = false.
Proof.
  intros H. destruct c as [[] [] [] [] [] [] [] []]; vm_compute in H;
    try discriminate H; reflexivity.
Qed.

Lemma tame_weaken (s : string) (b : bool) : tame true s = true -> tame b s = true.
Proof. destruct s as [|c s]; destruct b; cbn [tame andb]; auto. intros H.
  apply andb_prop in H. now destruct H as (_ & ->).
Qed.

Lemma tame_app (a c : string) : forall b,
  tame b a = true -> tame true c = true -> tame b (a ++ c)%string = true.
Proof.
  induction a as [|x a IH]; intros b Ha Hc; cbn [String.append tame] in *.
  - now apply tame_weaken.
  - apply andb_prop in Ha. destruct Ha as (-> & Ha). now apply IH.
Qed.

Lemma tame_blank (g : string) : blank g = true -> forall b, tame b g = true.
Proof.
  unfold blank. induction g as [|c g IH]; cbn [la forallb tame]; intros H b.
  - reflexivity.
  - apply andb_prop in H. destruct H as (Hc & H).
    rewrite (ws_not_tick c Hc), andb_false_r. now apply IH.
Qed.

Lemma tame_plain (s r : string) :
  plain s = true -> tame false (s ++ r)%string = tame false r.
Proof.
  unfold plain. induction s as [|c s IH]; cbn [la forallb String.append tame];
    intros H.
  - reflexivity.
  - apply andb_prop in H. destruct H as (Hc & H).
    rewrite (plain_not_lf c Hc). now apply IH.
Qed.

Lemma tame_uint (d : Decimal.uint) : forall b,
  tame b (DecimalString.NilEmpty.string_of_uint d) = true.
Proof.
  induction d as [|d IH|d IH|d IH|d IH|d IH|d IH|d IH|d IH|d IH|d IH]; intros b;
    cbn [DecimalString.NilEmpty.string_of_uint tame]; eval_eqb;
    rewrite ?andb_false_r; cbn [negb andb]; auto.
Qed.

Lemma tame_token (t : Token) :
  plain_token t = true -> tame true (token_text t) = true.
Proof.
  destruct t as [| | | |s|n]; cbn [plain_token token_text]; intros H;
    try reflexivity.
  - cbn [tame]. eval_eqb. cbn [negb andb]. now rewrite (tame_plain s _ H).
  - apply tame_uint.
Qed.

Lemma tame_layout (gap : nat -> string) (ts : list Token) :
  (forall j, blank (gap j) = true) ->
  forallb plain_token ts = true ->
  forall i, tame true (layout gap i ts) = true.
Proof.
  intros Hgap. induction ts as [|t ts IH]; cbn [forallb layout]; intros H i.
  - reflexivity.
  - apply andb_prop in H. destruct H as (Ht & H).
    apply tame_app; [now apply tame_blank|].
    apply tame_app; [now apply tame_token | now apply IH].
Qed.

Lemma tame_serialize (gap : nat -> string) (a : AnalysisResult) :
  (forall j, blank (gap j) = true) ->
  plain_result a = true ->
  tame true (serialize gap a) = true.
Proof.
  intros Hgap Hplain.
  destruct (plain_result_parts a Hplain) as (H1 & H2 & H3 & H4).
  unfold serialize. apply tame_app; [|now apply tame_blank].
  apply tame_layout; [exact Hgap|].
  unfold result_tokens, category_tokens. cbn [app forallb plain_token].
  rewrite H1, H2, H3, H4. reflexivity.
Qed.

Lemma tame_no_close (s : string) : forall b,
  tame b s = true -> occurs fence_close s = false.
Proof.
  induction s as [|c s IH]; intros b H.
  - reflexivity.
  - cbn [tame] in H. apply andb_prop in H. destruct H as (_ & H).
    cbn [occurs]. rewrite (IH _ H).
    change fence_close with (String "010" "```").
    cbn [strip_prefix]. rewrite Ascii.eqb_sym.
    destruct (Ascii.eqb c "010"); [|reflexivity].
    destruct s as [|x s]; [reflexivity|].
    cbn [tame andb] in H. apply andb_prop in H. destruct H as (Hx & _).
    apply negb_true_iff in Hx. rewrite Ascii.eqb_sym, Hx. reflexivity.
Qed.

(** A text of an analysis holds no closing fence, and is not empty. *)
Lemma serialize_no_close (gap : nat -> string) (a : AnalysisResult) :
  (forall j, blank (gap j) = true) ->
  plain_result a = true ->
  occurs fence_close (serialize gap a) = false.
Proof.
  intros Hgap Hplain. apply (tame_no_close _ true). now apply tame_serialize.
Qed.

(** *** Integers that a double holds exactly *)

Lemma odd_part_up (fuel : nat) : forall m e m' e',
  (0 < m)%Z -> (0 <= e)%Z ->
  odd_part fuel m e = (m', e') ->
  (e <= e')%Z /\ (m' * 2 ^ e' = m * 2 ^ e)%Z.
Proof.
  induction fuel as [|fuel IH]; intros m e m' e' Hm He; cbn [odd_part].
  - intros [= <- <-]. lia.
  - destruct (Z.even m) eqn:Heven.
    + intros H. apply Z.even_spec in Heven. destruct Heven as (h & ->).
      rewrite Z.mul_comm, Z.div_mul in H by lia.
      apply IH in H; [|lia|lia]. destruct H as (Hle & ->).
      split; [lia|]. rewrite Z.pow_add_r, Z.pow_1_r by lia. ring.
    + intros [= <- <-]. lia.
Qed.

Lemma odd_part_shifted (fuel : nat) : forall j m m' e',
  (0 < m)%Z -> (0 <= j <= Z.of_nat fuel)%Z ->
  odd_part fuel (m * 2 ^ j) (- j) = (m', e') ->
  (0 <= e')%Z /\ (m' * 2 ^ e' = m)%Z.
Proof.
  induction fuel as [|fuel IH]; intros j m m' e' Hm Hj; cbn [odd_part].
  - assert (j = 0)%Z as -> by lia. intros [= <- <-]. cbn. lia.
  - destruct (Z.eq_dec j 0) as [->|Hpos].
    + cbn [Z.opp]. rewrite Z.pow_0_r, Z.mul_1_r.
      intros H. change (if Z.even m then odd_part fuel (m / 2) (0 + 1) else (m, 0%Z))
        with (odd_part (S fuel) m 0) in H.
      apply odd_part_up in H; [|lia|lia]. destruct H as (Hle & ->). lia.
    + assert (Heven : Z.even (m * 2 ^ j) = true).
      { rewrite Z.even_mul, Z.even_pow by lia. now rewrite orb_true_r. }
      rewrite Heven.
      replace (m * 2 ^ j / 2)%Z with (m * 2 ^ (j - 1))%Z.
      * replace (- j + 1)%Z with (- (j - 1))%Z by lia.
        intros H. apply IH in H; [exact H | lia | lia].
      * replace j with (Z.succ (j - 1)) at 2 by lia.
        rewrite Z.pow_succ_r by lia.
        replace (m * (2 * 2 ^ (j - 1)))%Z with (m * 2 ^ (j - 1) * 2)%Z by ring.
        now rewrite Z.div_mul by lia.
Qed.

(** An integer below [2 ^ 53] is a double: its number is [+0] or a
    finite [m * 2 ^ e] equal to it. *)
Lemma number_of_small (n : Z) :
  (0 <= n < 2 ^ 53)%Z ->
  (n = 0%Z /\ number_of_Z n = Zero false) \/
  (exists m e, number_of_Z n = Finite m e /\ (0 <= e)%Z /\ (m * 2 ^ e = n)%Z).
Proof.
  intros Hn. unfold number_of_Z. rewrite Z.abs_eq by lia.
  replace (n <? 0)%Z with false by (symmetry; apply Z.ltb_ge; lia).
  destruct (Z.eq_dec n 0) as [->|Hnz]; [left; split; reflexivity|]. right.
  assert (Hlog : (0 <= Z.log2 n <= 52)%Z).
  { split; [apply Z.log2_nonneg|].
    assert (Z.log2 n < 53)%Z; [|lia]. apply Z.log2_lt_pow2; lia. }
  set (j := (52 - Z.log2 n)%Z).
  assert (Hbits : (2 ^ 52 <= n * 2 ^ j < 2 ^ 53)%Z).
  { destruct (Z.log2_spec n) as (Hlo & Hhi); [lia|].
    replace (2 ^ 52)%Z with (2 ^ Z.log2 n * 2 ^ j)%Z
      by (rewrite <- Z.pow_add_r by lia; f_equal; lia).
    replace (2 ^ 53)%Z with (2 ^ Z.succ (Z.log2 n) * 2 ^ j)%Z
      by (rewrite <- Z.pow_add_r by lia; f_equal; lia).
    assert (0 < 2 ^ j)%Z by (apply Z.pow_pos_nonneg; lia).
    split; [apply Z.mul_le_mono_nonneg_r | apply Z.mul_lt_mono_pos_r]; lia. }
  unfold round_to_double.
  rewrite (proj2 (Z.eqb_neq n 0) Hnz).
  change (0 <=? 0)%Z with true. change (0 <? 0)%Z with false.
  change (10 ^ 0)%Z with 1%Z. change (3 * 0)%Z with 0%Z.
  rewrite Z.mul_1_r, Z.add_0_r.
  replace (1024 <=? Z.log2 n)%Z with false by (symmetry; apply Z.leb_gt; lia).
  cbn [andb]. cbv zeta. change (Z.log2 1) with 0%Z. rewrite Z.sub_0_r.
  replace (Z.log2 n - 52)%Z with (- j)%Z by lia.
  assert (Hscaled : (if (0 <=? - j)%Z then (n, (1 * 2 ^ (- j))%Z)
                     else ((n * 2 ^ (- - j))%Z, 1%Z)) = ((n * 2 ^ j)%Z, 1%Z)).
  { destruct (0 <=? - j)%Z eqn:E.
    - apply Z.leb_le in E. assert (j = 0)%Z as -> by lia. cbn. now rewrite Z.mul_1_r.
    - now rewrite Z.opp_involutive. }
  rewrite Hscaled. cbn [fst snd]. rewrite Z.div_1_r.
  replace (n * 2 ^ j <? 2 ^ 52)%Z with false by (symmetry; apply Z.ltb_ge; lia).
  rewrite Z.max_l by lia. rewrite Hscaled. cbn [fst snd].
  rewrite Z.div_1_r, Z.mod_1_r.
  change (1 <? 2 * 0)%Z with false. change (1 =? 2 * 0)%Z with false. cbn [orb andb].
  rewrite (proj2 (Z.eqb_neq (n * 2 ^ j) 0)) by lia.
  assert (Hlog' : Z.log2 (n * 2 ^ j) = 52%Z).
  { apply Z.log2_unique; [lia|]. change (Z.succ 52) with 53%Z. lia. }
  rewrite Hlog'.
  replace (1024 <? 52 + 1 + - j)%Z with false by (symmetry; apply Z.ltb_ge; lia).
  destruct (odd_part 64 (n * 2 ^ j) (- j)) as (m', e') eqn:Hodd.
  apply odd_part_shifted in Hodd;
    [|lia|change (Z.of_nat 64) with 64%Z; unfold j; lia].
  destruct Hodd as (He' & Hval). now exists m', e'.
Qed.

(** [JSON.parse] reads the numeral of such an integer as the integer. *)
Lemma integer_of_number (n : Z) :
  (0 <= n < 2 ^ 53)%Z -> integer_of (number_of_Z n) = Some n.
Proof.
  intros Hn. destruct (number_of_small n Hn) as [(-> & ->)|(m & e & -> & He & <-)].
  - reflexivity.
  - cbn [integer_of]. now rewrite (proj2 (Z.leb_le 0 e) He).
Qed.

Lemma wire_small (c : Category) :
  small c = true -> on_the_wire (category_json c) = category_json c.
Proof.
  unfold small. intros H. apply Z.ltb_lt in H.
  unfold category_json. cbn [on_the_wire map fst snd].
  destruct (number_of_small (Z.of_nat (score c))) as [(_ & ->)|(m & e & -> & _)];
    [lia | reflexivity | reflexivity].
Qed.

(** The client reads the value of an analysis with such scores as it is. *)
Lemma wire_exact (a : AnalysisResult) :
  scores_exact a = true -> on_the_wire (to_json a) = to_json a.
Proof.
  unfold scores_exact. intros H.
  apply andb_prop in H. destruct H as (H & H3).
  apply andb_prop in H. destruct H as (H1 & H2).
  unfold to_json. cbn [on_the_wire map fst snd].
  now rewrite (wire_small _ H1), (wire_small _ H2), (wire_small _ H3).
Qed.

(** *** The texts of the example *)

Example serialize_compact :
  serialize spec_example_gap spec_example_result = spec_example_payload.
Proof. vm_compute. reflexivity. Qed.

Example serialize_pretty :
  serialize pretty_gap spec_example_result
  = quoted "{
  'english_speaking': {
    'score': 7,
    'reasoning': 'clear'
  },
  'confidence': {
    'score': 8,
    'reasoning': 'steady'
  },
  'humility': {
    'score': 9,
    'reasoning': 'grounded'
  },
  'overall_summary': 'Strong communicator.'
}".
Proof. vm_compute. reflexivity. Qed.

(** A literal too large for a double reaches the client as [null], and a
    negative zero as zero. *)
Example wire_loses_infinity :
  Json.parse "[1e400, -0, 8]"
  = Some (JArray [JNumber (Infinite false); JNumber (Zero true);
                  JNumber (number_of_Z 8)]) /\
  on_the_wire (JArray [JNumber (Infinite false); JNumber (Zero true);
                       JNumber (number_of_Z 8)])
  = JArray [JNull; JNumber (Zero false); JNumber (number_of_Z 8)].
Proof. split; vm_compute; reflexivity. Qed.

Lemma blank_spec_example_gap (i : nat) : blank (spec_example_gap i) = true.
Proof. unfold spec_example_gap. destruct (Nat.eqb i 41); reflexivity. Qed.

Lemma blank_pretty_gap (i : nat) : blank (pretty_gap i) = true.
Proof.
  unfold pretty_gap.
  repeat match goal with
         | |- context [if ?b then _ else _] => destruct b
         end; reflexivity.
Qed.


End AnalysisFacts.

Section PathFacts.

Variable env : Env.

#[local] Arguments String.append : simpl never.
#[local] Arguments analysisPrompt : simpl never.
#[local] Arguments path_basename : simpl never.

Lemma world_ext (a b : World) :
  fs a = fs b -> sent a = sent b -> polls a = polls b -> trace a = trace b ->
  a = b.
Proof. destruct a, b; cbn; intros; subst; reflexivity. Qed.

Ltac unfold_flow_in H :=
  cbv beta iota zeta delta
    [analysis uploadFileToGemini fileManager_uploadFile model_generateContent
     fileManager_deleteFile JSON_parse res_status_json bind logger_info
     logger_error emit lift ret throw] in H;
  cbn [fs sent polls trace] in H.

(** Worlds are compared field by field; the traces differ by the
    association of the appended events. *)
Ltac same_world :=
  apply world_ext;
  cbv beta iota zeta delta
    [try_world after_rounds try_events generate_events upload_events answered
     rounds];
  cbn [fs sent polls trace length];
  [ reflexivity
  | try reflexivity; try assumption
  | lia
  | repeat rewrite rev_app_distr; cbn [rev app]; repeat rewrite <- app_assoc;
    cbn [app]; reflexivity ].

Lemma rawJson_none text :
  rawJson text = None ->
  match match_json_fence text with
  | None => True
  | Some m => String.eqb (group1 m) EmptyString = true
  end.
Proof.
  unfold rawJson. destruct (match_json_fence text) as [m|]; [|trivial].
  destruct (String.eqb (group1 m) EmptyString); [trivial | discriminate].
Qed.

Lemma rawJson_some text raw :
  rawJson text = Some raw ->
  exists m, match_json_fence text = Some m /\ group1 m = raw /\
            String.eqb (group1 m) EmptyString = false.
Proof.
  unfold rawJson. destruct (match_json_fence text) as [m|]; [|discriminate].
  destruct (String.eqb (group1 m) EmptyString) eqn:E; [discriminate|].
  intros H; inversion H; subst. now exists m.
Qed.

Lemma analysis_sound fuel p mime w r w1 :
  sent w = None ->
  analysis env fuel p mime w = Some (r, w1) ->
  exists x,
    takes env (polls w) p mime x /\ rounds x <= fuel /\
    r = try_result x /\ w1 = try_world p mime x w.
Proof.
  intros Hsent H. unfold_flow_in H.
  destruct (uploadFile env p mime (path_basename p)) as [up|e] eqn:Hup.
  2:{ inversion H; subst. exists (UploadFailed e).
      repeat split; [assumption | cbn; lia | same_world]. }
  match type of H with context [poll env fuel up ?W] =>
    destruct (poll env fuel up W) as [[[f|e] w2]|] eqn:Hpoll end;
    [ | | discriminate].
  2:{ inversion H; subst. apply poll_sound in Hpoll.
      destruct Hpoll as (seen & Hpolled & Hlen & ->).
      exists (PollFailed up seen e).
      repeat split; [assumption | assumption | assumption | same_world]. }
  apply poll_sound in Hpoll. destruct Hpoll as (seen & Hpolled & Hlen & ->).
  cbn [polls] in Hpolled.
  destruct (String.eqb (state f) "FAILED") eqn:Hfailed.
  { inversion H; subst. exists (ProcessingFailed up seen f).
    repeat split; [assumption | assumption | assumption | assumption | same_world]. }
  assert (Hready : ready env (polls w) p mime up seen f) by (repeat split; assumption).
  unfold_flow_in H. cbv [after_rounds] in H. cbn [fs sent polls trace] in H.
  fold (generated env f) in H.
  destruct (generated env f) as [[text|e]|e] eqn:Hgen.
  2:{ inversion H; subst. exists (TextFailed up seen f e).
      repeat split; try assumption; same_world. }
  2:{ inversion H; subst. exists (GenerateFailed up seen f e).
      repeat split; try assumption; same_world. }
  destruct (rawJson text) as [raw|] eqn:Hraw.
  2:{ exists (NoFence up seen f text).
      pose proof (rawJson_none _ Hraw) as Hm.
      destruct (match_json_fence text) as [m|].
      - rewrite Hm in H. inversion H; subst.
        repeat split; try assumption. same_world.
      - inversion H; subst. repeat split; try assumption. same_world. }
  destruct (rawJson_some _ _ Hraw) as (m & Hm & <- & Hne).
  rewrite Hm, Hne in H. unfold_flow_in H.
  destruct (Json.parse (group1 m)) as [v|] eqn:Hparse.
  2:{ inversion H; subst. exists (BadJson up seen f text (group1 m) (syntaxError env (group1 m))).
      repeat split; try assumption; same_world. }
  rewrite Hsent in H.
  exists (Responded up seen f text (group1 m) v (deleteFile env (name f))).
  destruct (deleteFile env (name f)) as [[]|e] eqn:Hdel;
    inversion H; subst; repeat split; try assumption; same_world.
Qed.

Ltac unfold_flow :=
  cbv beta iota zeta delta
    [analysis uploadFileToGemini fileManager_uploadFile model_generateContent
     fileManager_deleteFile JSON_parse res_status_json bind logger_info
     logger_error emit lift ret throw];
  cbn [fs sent polls trace].

Lemma analysis_complete fuel p mime w x :
  sent w = None ->
  takes env (polls w) p mime x ->
  rounds x <= fuel ->
  analysis env fuel p mime w = Some (try_result x, try_world p mime x w).
Proof.
  intros Hsent Htakes Hfuel.
  assert (Hpoll : forall up seen r W,
             polled env (polls w) up seen r -> length seen <= fuel ->
             polls W = polls w ->
             poll env fuel up W = Some (r, after_rounds seen W)).
  { intros up seen r W Hp Hl HW. now apply poll_complete with (polls w). }
  destruct x; cbn [takes rounds] in Htakes, Hfuel; unfold ready in Htakes;
    unfold_flow.
  - rewrite Htakes. f_equal. f_equal. same_world.
  - destruct Htakes as (Hup & Hp). rewrite Hup.
    rewrite (Hpoll _ _ _ _ Hp Hfuel) by reflexivity.
    f_equal. f_equal. same_world.
  - destruct Htakes as (Hup & Hp & Hf). rewrite Hup.
    rewrite (Hpoll _ _ _ _ Hp Hfuel) by reflexivity. rewrite Hf.
    f_equal. f_equal. same_world.
  - destruct Htakes as ((Hup & Hp & Hf) & Hg). rewrite Hup.
    rewrite (Hpoll _ _ _ _ Hp Hfuel) by reflexivity. rewrite Hf.
    unfold_flow. fold (generated env f). rewrite Hg.
    f_equal. f_equal. same_world.
  - destruct Htakes as ((Hup & Hp & Hf) & Hg). rewrite Hup.
    rewrite (Hpoll _ _ _ _ Hp Hfuel) by reflexivity. rewrite Hf.
    unfold_flow. fold (generated env f). rewrite Hg.
    f_equal. f_equal. same_world.
  - destruct Htakes as ((Hup & Hp & Hf) & Hg & Hraw). rewrite Hup.
    rewrite (Hpoll _ _ _ _ Hp Hfuel) by reflexivity. rewrite Hf.
    unfold_flow. fold (generated env f). rewrite Hg.
    pose proof (rawJson_none _ Hraw) as Hm.
    destruct (match_json_fence text) as [m|]; [rewrite Hm|];
      f_equal; f_equal; same_world.
  - destruct Htakes as ((Hup & Hp & Hf) & Hg & Hraw & Hparse & ->). rewrite Hup.
    rewrite (Hpoll _ _ _ _ Hp Hfuel) by reflexivity. rewrite Hf.
    unfold_flow. fold (generated env f). rewrite Hg.
    destruct (rawJson_some _ _ Hraw) as (m & Hm & <- & Hne).
    rewrite Hm, Hne. unfold_flow. rewrite Hparse.
    f_equal. f_equal. same_world.
  - destruct Htakes as ((Hup & Hp & Hf) & Hg & Hraw & Hparse & Hdel). rewrite Hup.
    rewrite (Hpoll _ _ _ _ Hp Hfuel) by reflexivity. rewrite Hf.
    unfold_flow. fold (generated env f). rewrite Hg.
    destruct (rawJson_some _ _ Hraw) as (m & Hm & <- & Hne).
    rewrite Hm, Hne. unfold_flow. rewrite Hparse.
    cbv [after_rounds]. cbn [fs sent polls trace]. rewrite Hsent, Hdel.
    destruct del as [[]|e]; f_equal; f_equal; same_world.
Qed.

(** The loop is the only place where a request can stay. *)
Lemma analysis_pending fuel p mime w :
  analysis env fuel p mime w = None ->
  exists up W, uploadFile env p mime (path_basename p) = Ok up /\
               polls W = polls w /\ poll env fuel up W = None.
Proof.
  intros H. unfold_flow_in H.
  destruct (uploadFile env p mime (path_basename p)) as [up|e]; [|discriminate].
  match type of H with context [poll env fuel up ?W] =>
    destruct (poll env fuel up W) as [[[f|e] w2]|] eqn:Hpoll; [ | discriminate | ];
    [ | exists up, W; repeat split; assumption ] end.
  exfalso. destruct (String.eqb (state f) "FAILED"); [discriminate|].
  unfold_flow_in H.
  destruct (generateContent env _ _ _ _) as [[text|e]|e]; try discriminate.
  destruct (match_json_fence text) as [m|]; [|discriminate].
  destruct (String.eqb (group1 m) EmptyString); [discriminate|].
  unfold_flow_in H.
  destruct (Json.parse (group1 m)); [|discriminate].
  destruct (sent w2); [discriminate|].
  destruct (deleteFile env (name f)); discriminate.
Qed.


Ltac unfold_request_in H :=
  cbv beta iota zeta delta
    [run analyze try_catch_finally fs_unlinkSync res_status_json bind
     logger_info logger_error emit existsSync initial file] in H;
  cbn [fs sent polls trace] in H.

Ltac unfold_request :=
  cbv beta iota zeta delta
    [run analyze try_catch_finally fs_unlinkSync res_status_json bind
     logger_info logger_error emit existsSync initial file];
  cbn [fs sent polls trace].

Ltac same_final :=
  apply world_ext;
  cbv beta iota zeta delta
    [final_world request_events try_world response catch_events thrown
     answered rounds];
  cbn [fs sent polls trace];
  [ reflexivity
  | reflexivity
  | reflexivity
  | repeat rewrite rev_app_distr; cbn [rev app]; repeat rewrite <- app_assoc;
    cbn [app]; rewrite ?app_nil_r; reflexivity ].

Lemma filter_absent (p : string) (files : list string) :
  existsb (String.eqb p) files = false ->
  filter (fun q => negb (String.eqb p q)) files = files.
Proof.
  induction files as [|q files IH]; cbn; [reflexivity|].
  destruct (String.eqb p q); cbn; [discriminate|].
  intros H. now rewrite IH.
Qed.

Lemma filter_removes (p : string) (files : list string) :
  existsb (String.eqb p) (filter (fun q => negb (String.eqb p q)) files) = false.
Proof.
  induction files as [|q files IH]; cbn; [reflexivity|].
  destruct (String.eqb p q) eqn:E; cbn; [assumption|].
  now rewrite E.
Qed.

(** What the [catch] and [finally] blocks make of an exit of the [try]
    block. *)
Lemma close_request (u : Upload) (files : list string) (x : Exit) W :
  fs W = files -> polls W = 0 ->
  trace W = [LogInfo ("Received file: " ++ originalname u ++ ", saved to " ++ path u)] ->
  settle (path u) (try_result x) (try_world (path u) (mimetype u) x W)
  = Some (final_result u files x, final_world u files x).
Proof.
  intros Hfs Hpolls Htrace.
  unfold final_result, guarded_result, on_disk, try_result, settle.
  destruct x as [e|up seen e|up seen f|up seen f e|up seen f e|up seen f text
                |up seen f text raw msg|up seen f text raw v [[]|e]];
    cbn [thrown answered];
    cbv beta iota zeta delta
      [fs_unlinkSync res_status_json bind logger_info logger_error emit existsSync
       try_world answered final_world request_events on_disk];
    cbn [fs sent polls trace]; rewrite Hfs, Htrace, Hpolls;
    destruct (existsb (String.eqb (path u)) files) eqn:Hdisk;
    try rewrite (filter_absent _ _ Hdisk); f_equal; f_equal; same_final.
Qed.

Lemma run_unfold fuel (u : Upload) files :
  run env fuel (mkRequest (Some u)) files =
  match analysis env fuel (path u) (mimetype u) (received u files) with
  | None => None
  | Some (r1, w1) => settle (path u) r1 w1
  end.
Proof.
  cbv beta iota zeta delta
    [run analyze initial file bind logger_info emit try_catch_finally settle received].
  cbn [fs sent polls trace].
  destruct (analysis env fuel (path u) (mimetype u) _) as [[[[]|e] w1]|]; reflexivity.
Qed.

Lemma run_sound fuel (u : Upload) files r w :
  run env fuel (mkRequest (Some u)) files = Some (r, w) ->
  exists x,
    takes env 0 (path u) (mimetype u) x /\ rounds x <= fuel /\
    r = final_result u files x /\ w = final_world u files x.
Proof.
  rewrite run_unfold. intros H.
  destruct (analysis env fuel (path u) (mimetype u) (received u files))
    as [[r1 w1]|] eqn:Ha; [|discriminate].
  apply analysis_sound in Ha; [|reflexivity].
  destruct Ha as (x & Htakes & Hfuel & -> & ->).
  rewrite (close_request u files x) in H by reflexivity.
  inversion H; subst. exists x. repeat split; assumption.
Qed.

Lemma run_complete fuel (u : Upload) files x :
  takes env 0 (path u) (mimetype u) x ->
  rounds x <= fuel ->
  run env fuel (mkRequest (Some u)) files
  = Some (final_result u files x, final_world u files x).
Proof.
  intros Htakes Hfuel. rewrite run_unfold.
  rewrite (analysis_complete fuel (path u) (mimetype u) (received u files) x
             eq_refl Htakes Hfuel).
  now apply close_request.
Qed.

(** A request is still running only while its loop is. *)
Lemma run_pending fuel (u : Upload) files :
  run env fuel (mkRequest (Some u)) files = None ->
  exists up W, uploadFile env (path u) (mimetype u) (path_basename (path u)) = Ok up /\
               polls W = 0 /\ poll env fuel up W = None.
Proof.
  rewrite run_unfold. intros H.
  destruct (analysis env fuel (path u) (mimetype u) (received u files))
    as [[r1 w1]|] eqn:Ha.
  - exfalso. apply analysis_sound in Ha; [|reflexivity].
    destruct Ha as (x & _ & _ & -> & ->).
    rewrite (close_request u files x) in H by reflexivity. discriminate.
  - apply analysis_pending in Ha. exact Ha.
Qed.

End PathFacts.

(** ** What the paths leave in the trace *)

Section EventFacts.

#[local] Open Scope list_scope.

Variables (p mime : string).

Lemma unlinked_app (a b : list Event) : unlinked (a ++ b) = unlinked a ++ unlinked b.
Proof. apply flat_map_app. Qed.

Lemma deletions_app (a b : list Event) : deletions (a ++ b) = deletions a ++ deletions b.
Proof. apply flat_map_app. Qed.

Lemma generations_app (a b : list Event) :
  generations (a ++ b) = generations a ++ generations b.
Proof. apply flat_map_app. Qed.

Lemma waits_app (a b : list Event) : waits (a ++ b) = waits a ++ waits b.
Proof. apply flat_map_app. Qed.

Lemma filter_respond_app (a b : list Event) :
  filter is_respond (a ++ b) = filter is_respond a ++ filter is_respond b.
Proof. apply filter_app. Qed.

(** The turns of the loop only log, wait and query. *)
Lemma rounds_quiet (seen : list File) :
  unlinked (flat_map round seen) = [] /\
  deletions (flat_map round seen) = [] /\
  generations (flat_map round seen) = [] /\
  filter is_respond (flat_map round seen) = [] /\
  waits (flat_map round seen) = repeat 10000%Z (length seen).
Proof.
  induction seen as [|f seen (IH1 & IH2 & IH3 & IH4 & IH5)];
    [repeat split|].
  cbn [flat_map length repeat].
  rewrite unlinked_app, deletions_app, generations_app, filter_respond_app, waits_app.
  now rewrite IH1, IH2, IH3, IH4, IH5.
Qed.

Lemma upload_events_quiet up seen :
  unlinked (upload_events p mime up seen) = [] /\
  deletions (upload_events p mime up seen) = [] /\
  generations (upload_events p mime up seen) = [] /\
  filter is_respond (upload_events p mime up seen) = [].
Proof.
  destruct (rounds_quiet seen) as (H1 & H2 & H3 & H4 & _).
  unfold upload_events.
  rewrite unlinked_app, deletions_app, generations_app, filter_respond_app.
  now rewrite H1, H2, H3, H4.
Qed.

Lemma generate_events_quiet up seen f :
  unlinked (generate_events p mime up seen f) = [] /\
  deletions (generate_events p mime up seen f) = [] /\
  generations (generate_events p mime up seen f) = [uri f] /\
  filter is_respond (generate_events p mime up seen f) = [].
Proof.
  destruct (upload_events_quiet up seen) as (H1 & H2 & H3 & H4).
  unfold generate_events.
  rewrite unlinked_app, deletions_app, generations_app, filter_respond_app.
  now rewrite H1, H2, H3, H4.
Qed.

Ltac quiet :=
  repeat match goal with
  | |- context [upload_events p mime ?up ?seen] =>
      let H1 := fresh in let H2 := fresh in let H3 := fresh in let H4 := fresh in
      destruct (upload_events_quiet up seen) as (H1 & H2 & H3 & H4);
      generalize dependent (upload_events p mime up seen); intros
  | |- context [generate_events p mime ?up ?seen ?f] =>
      let H1 := fresh in let H2 := fresh in let H3 := fresh in let H4 := fresh in
      destruct (generate_events_quiet up seen f) as (H1 & H2 & H3 & H4);
      generalize dependent (generate_events p mime up seen f); intros
  end.

(** No path of the [try] or [catch] block touches the local disk. *)
Lemma unlinked_try_catch (x : Exit) :
  unlinked (try_events p mime x ++ catch_events x) = [].
Proof.
  rewrite unlinked_app.
  destruct x as [e|up seen e|up seen f|up seen f e|up seen f e|up seen f text
                |up seen f text raw msg|up seen f text raw v [[]|e]];
    cbn [try_events catch_events thrown answered]; quiet;
    rewrite ?unlinked_app;
    repeat match goal with H : unlinked _ = [] |- _ => rewrite H end;
    reflexivity.
Qed.

(** The responses written on a path: exactly the one the client has. *)
Lemma responses_try_catch (x : Exit) :
  filter is_respond (try_events p mime x ++ catch_events x)
  = [Respond (fst (response x)) (snd (response x))].
Proof.
  rewrite filter_respond_app.
  destruct x as [e|up seen e|up seen f|up seen f e|up seen f e|up seen f text
                |up seen f text raw msg|up seen f text raw v [[]|e]];
    cbn [try_events catch_events thrown answered response fst snd]; quiet;
    rewrite ?filter_respond_app;
    repeat match goal with H : filter is_respond _ = [] |- _ => rewrite H end;
    reflexivity.
Qed.

(** The remote deletions on a path: one, on the path that responded 200. *)
Lemma deletions_try_catch (x : Exit) :
  deletions (try_events p mime x ++ catch_events x)
  = match x with
    | Responded _ _ f _ _ _ _ => [name f]
    | _ => []
    end.
Proof.
  rewrite deletions_app.
  destruct x as [e|up seen e|up seen f|up seen f e|up seen f e|up seen f text
                |up seen f text raw msg|up seen f text raw v [[]|e]];
    cbn [try_events catch_events thrown answered]; quiet;
    rewrite ?deletions_app;
    repeat match goal with H : deletions _ = [] |- _ => rewrite H end;
    reflexivity.
Qed.

(** The generation requests on a path: one, once the file is ready. *)
Lemma generations_try_catch (x : Exit) :
  generations (try_events p mime x ++ catch_events x)
  = match x with
    | UploadFailed _ | PollFailed _ _ _ | ProcessingFailed _ _ _ => []
    | GenerateFailed _ _ f _ | TextFailed _ _ f _ | NoFence _ _ f _
    | BadJson _ _ f _ _ _ | Responded _ _ f _ _ _ _ => [uri f]
    end.
Proof.
  rewrite generations_app.
  destruct x as [e|up seen e|up seen f|up seen f e|up seen f e|up seen f text
                |up seen f text raw msg|up seen f text raw v [[]|e]];
    cbn [try_events catch_events thrown answered]; quiet;
    rewrite ?generations_app;
    repeat match goal with H : generations _ = _ |- _ => rewrite H end;
    reflexivity.
Qed.

End EventFacts.

(** The history of a finished request. *)
Lemma history_final (u : Upload) (files : list string) (x : Exit) :
  history (final_world u files x) = request_events u files x.
Proof. unfold history, final_world; cbn [trace]. apply rev_involutive. Qed.

(** A finished request: the log entry of the reception, the [try] and
    [catch] blocks, the unlink of the [finally] block and its log entry. *)
Lemma request_events_blocks (u : Upload) (files : list string) (x : Exit) :
  request_events u files x =
  ([LogInfo ("Received file: " ++ originalname u ++ ", saved to " ++ path u)]
   ++ (try_events (path u) (mimetype u) x ++ catch_events x)
   ++ UnlinkSync (path u)
      :: (if on_disk u files
          then [LogInfo ("Deleted temporary file: " ++ path u)] else []))%list.
Proof. unfold request_events. now rewrite <- !app_assoc. Qed.

Lemma request_responses (u : Upload) (files : list string) (x : Exit) :
  filter is_respond (request_events u files x)
  = [Respond (fst (response x)) (snd (response x))].
Proof.
  rewrite request_events_blocks.
  rewrite (filter_respond_app [_]), (filter_respond_app (_ ++ _)), responses_try_catch.
  now destruct (on_disk u files).
Qed.

Lemma request_generations (u : Upload) (files : list string) (x : Exit) :
  generations (request_events u files x)
  = generations (try_events (path u) (mimetype u) x ++ catch_events x).
Proof.
  rewrite request_events_blocks.
  rewrite (generations_app [_]), (generations_app (_ ++ _)).
  destruct (on_disk u files); cbn; now rewrite app_nil_r.
Qed.

Lemma request_deletions (u : Upload) (files : list string) (x : Exit) :
  deletions (request_events u files x)
  = deletions (try_events (path u) (mimetype u) x ++ catch_events x).
Proof.
  rewrite request_events_blocks.
  rewrite (deletions_app [_]), (deletions_app (_ ++ _)).
  destruct (on_disk u files); cbn; now rewrite app_nil_r.
Qed.

(** * The claims of the specification *)

(** ** Upload receiver *)

(** The handler on a request whose [req.file] is undefined: the response
    is 400 with the body [{ error: "No video file uploaded." }]; the files on
    disk are what they were, and the response is the only thing the handler
    does. *)
Lemma missing_file_rejected (env : Env) (fuel : nat) (files : list string) :
  exists w,
    run env fuel (mkRequest None) files = Some (Ok tt, w) /\
    sent w = Some (400%Z, JObject [("error", JString "No video file uploaded.")]) /\
    fs w = files /\
    history w = [Respond 400 (JObject [("error", JString "No video file uploaded.")])].
Proof.
  eexists. split; [reflexivity|]. repeat split.
Qed.

Lemma upload_scan_no_file (field dest fresh : string) (stored : option Upload)
  (parts : list Part) :
  carries_no_file (Multipart parts) = true ->
  upload_scan field dest fresh stored parts = Accepted stored.
Proof.
  cbn [carries_no_file]. induction parts as [|[n v|n filename mime] parts IH];
    cbn [forallb upload_scan]; intros H.
  - reflexivity.
  - now apply IH.
  - apply andb_prop in H. destruct H as (-> & H). now apply IH.
Qed.

(** C3, as the code has it: a request that carries no file (its body is
    not multipart, or no file part of it has a file name) reaches the
    handler with [req.file] undefined and is answered with 400 and the body
    [{ error: "No video file uploaded." }]; nothing is stored on the disk and
    the response is the only thing the request does.  A request whose first
    named file is in another field than video does not reach the handler:
    the upload middleware refuses it, the answer is the error page with
    status 500, and nothing is left on the disk. *)
Theorem request_without_file_rejected (env : Env) (fuel : nat) (fresh : string)
  (files : list string) :
  (forall b,
      carries_no_file b = true ->
      exists w,
        route env fuel fresh b files = Handled (Some (Ok tt, w)) /\
        sent w = Some (400%Z, JObject [("error", JString "No video file uploaded.")]) /\
        fs w = files /\
        history w = [Respond 400 (JObject [("error", JString "No video file uploaded.")])]) /\
  (forall before fieldname filename mime rest,
      carries_no_file (Multipart before) = true ->
      filename <> EmptyString ->
      fieldname <> "video" ->
      route env fuel fresh
            (Multipart (before ++ FilePart fieldname filename mime :: rest)%list) files
      = ErrorPage 500 "Unexpected field" files).
Proof.
  split.
  - intros b Hb. unfold route.
    assert (Hup : upload_single "video" fresh b = Accepted None).
    { destruct b as [|parts]; [reflexivity|]. now apply upload_scan_no_file. }
    rewrite Hup. eexists. split; [reflexivity|]. repeat split.
  - intros before fieldname filename mime rest Hbefore Hname Hfield.
    unfold route, upload_single.
    assert (Hscan : forall stored,
               stored = None ->
               upload_scan "video" "uploads/" fresh stored
                 (before ++ FilePart fieldname filename mime :: rest)%list
               = Refused "LIMIT_UNEXPECTED_FILE" fieldname).
    { cbn [carries_no_file] in Hbefore.
      induction before as [|[n v|n fname m] before IH];
        cbn [forallb app upload_scan] in *; intros stored ->.
      - apply String.eqb_neq in Hname, Hfield. now rewrite Hname, Hfield.
      - now apply IH.
      - apply andb_prop in Hbefore. destruct Hbefore as (-> & Hbefore).
        now apply IH. }
    now rewrite (Hscan None eq_refl).
Qed.

Lemma request_without_file_rejected_witness :
  (exists w,
      route slow_service 0 "3f9c"
            (Multipart [TextField "note" "first round"; FilePart "video" EmptyString "application/octet-stream"])
            sample_files
      = Handled (Some (Ok tt, w)) /\
      fs w = sample_files) /\
  route slow_service 0 "3f9c" (Multipart [FilePart "file" "interview.mp4" "video/mp4"])
        sample_files
  = ErrorPage 500 "Unexpected field" sample_files.
Proof.
  destruct (request_without_file_rejected slow_service 0 "3f9c" sample_files)
    as (Hnone & Hother).
  split.
  - destruct (Hnone (Multipart [TextField "note" "first round";
                                FilePart "video" EmptyString "application/octet-stream"])
                    eq_refl) as (w & Hroute & _ & Hfs & _).
    exists w. split; assumption.
  - apply (Hother [] "file" "interview.mp4" "video/mp4" []); [reflexivity | | ];
      discriminate.
Defined.

(** C3 as stated fails: a request whose file is in the field [file] has no
    field [video], and it is not answered with the 400 of the handler. *)
Lemma missing_video_field_not_400 :
  ~ (forall (env : Env) (fuel : nat) (fresh : string) (b : Body)
            (files : list string),
        field_missing "video" b = true ->
        exists r w,
          route env fuel fresh b files = Handled (Some (r, w)) /\
          sent w = Some (400%Z, JObject [("error", JString "No video file uploaded.")])).
Proof.
  intros H.
  destruct (H slow_service 0 "3f9c"
              (Multipart [FilePart "file" "interview.mp4" "video/mp4"])
              sample_files eq_refl) as (r & w & Hroute & _).
  discriminate Hroute.
Qed.

(** ** Cleanup coordinator *)

(** C1: a request that carries a file and comes to its end, on whatever
    path, has called [fs.unlinkSync] exactly once, on the temporary file;
    the file is gone afterwards; a response was written before the call and
    only logging follows it. *)
Theorem temp_file_deleted_once (env : Env) (fuel : nat) (u : Upload)
  (files : list string) (r : Result unit) (w : World) :
  run env fuel (mkRequest (Some u)) files = Some (r, w) ->
  unlinked (history w) = [path u] /\
  existsSync (path u) w = false /\
  exists code body before after,
    sent w = Some (code, body) /\
    history w = (before ++ UnlinkSync (path u) :: after)%list /\
    In (Respond code body) before /\
    forallb is_log after = true.
Proof.
  intros H. apply run_sound in H. destruct H as (x & _ & _ & -> & ->).
  rewrite history_final. split; [|split].
  - rewrite request_events_blocks.
    rewrite (unlinked_app [_]), (unlinked_app (_ ++ _)), unlinked_try_catch.
    now destruct (on_disk u files).
  - unfold existsSync, final_world; cbn [fs]. apply filter_removes.
  - exists (fst (response x)), (snd (response x)),
      ([LogInfo ("Received file: " ++ originalname u ++ ", saved to " ++ path u)]
         ++ try_events (path u) (mimetype u) x ++ catch_events x)%list,
      (if on_disk u files
       then [LogInfo ("Deleted temporary file: " ++ path u)] else []).
    split; [|split; [|split]].
    + unfold final_world; cbn [sent]. now destruct (response x).
    + rewrite request_events_blocks. now rewrite <- !app_assoc.
    + apply in_cons.
      assert (Hin : In (Respond (fst (response x)) (snd (response x)))
                       (filter is_respond
                          (try_events (path u) (mimetype u) x ++ catch_events x)))
        by (rewrite responses_try_catch; now left).
      apply filter_In in Hin. exact (proj1 Hin).
    + now destruct (on_disk u files).
Qed.

Lemma temp_file_deleted_once_witness :
  exists r w,
    run slow_service 2 sample_request sample_files = Some (r, w) /\
    unlinked (history w) = ["uploads/3f9c"] /\
    existsSync "uploads/3f9c" w = false.
Proof.
  destruct (run slow_service 2 sample_request sample_files) as [[r w]|] eqn:E.
  - exists r, w. split; [reflexivity|].
    destruct (temp_file_deleted_once slow_service 2 sample_upload sample_files
                r w E) as (H1 & H2 & _).
    split; [exact H1 | exact H2].
  - vm_compute in E. discriminate.
Defined.

(** ** Remote analysis client: the polling loop *)

Lemma history_after_rounds (seen : list File) (w : World) :
  history (after_rounds seen w) = (history w ++ flat_map round seen)%list.
Proof.
  unfold history, after_rounds; cbn [trace].
  now rewrite rev_app_distr, rev_involutive.
Qed.

(** No sequence of turns ends while every answer is PROCESSING. *)
Lemma polled_never (env : Env) p f seen r :
  polled env p f seen r ->
  String.eqb (state f) "PROCESSING" = true ->
  (forall n nm, still_processing (getFile env n nm) = true) ->
  False.
Proof.
  induction 1 as [p f Hp | p f e Hp Hg | p f f' seen r Hp Hg _ IH]; intros Hs Hall.
  - congruence.
  - specialize (Hall p (name f)). rewrite Hg in Hall. discriminate.
  - apply IH; [|exact Hall].
    specialize (Hall p (name f)). now rewrite Hg in Hall.
Qed.

Lemma processing_for_poll (k : nat) : forall fuel n f w,
  String.eqb (state f) "PROCESSING" = true ->
  polls w = n -> n <= k ->
  if Nat.leb fuel (k - n) then poll (processing_for k) fuel f w = None
  else exists f' w',
      poll (processing_for k) fuel f w = Some (Ok f', w') /\ polls w' = S k.
Proof.
  induction fuel as [|fuel IH]; intros n f w Hs Hw Hn.
  - cbn [Nat.leb poll]. now rewrite Hs.
  - rewrite poll_unfold by assumption. cbn [processing_for getFile]. rewrite Hw.
    destruct (Nat.ltb n k) eqn:Hlt.
    + apply Nat.ltb_lt in Hlt.
      match goal with |- context [poll _ fuel ?f' ?w'] =>
        specialize (IH (S n) f' w' eq_refl eq_refl Hlt) end.
      replace (k - n) with (S (k - S n)) by lia. exact IH.
    + apply Nat.ltb_ge in Hlt. replace (k - n) with 0 by lia. cbn [Nat.leb].
      rewrite poll_stop by reflexivity.
      eexists. eexists. split; [reflexivity|]. cbn [polls]. lia.
Qed.

(** C4: the loop waits 10000 ms before each state query and does nothing
    else; while every answer is PROCESSING the request is still running,
    whatever the number of turns looked at; once some answer is not
    PROCESSING the loop and the request come to an end; and no number of
    turns bounds the loop, since a service may answer PROCESSING any number
    of times before it answers ACTIVE. *)
Theorem poll_interval_and_termination (env : Env) :
  (forall fuel f w r w',
      poll env fuel f w = Some (r, w') ->
      exists seen,
        history w' = (history w ++ flat_map round seen)%list /\
        waits (flat_map round seen) = repeat 10000%Z (length seen) /\
        polls w' = polls w + length seen) /\
  (forall u files,
      still_processing
        (uploadFile env (path u) (mimetype u) (path_basename (path u))) = true ->
      (forall n nm, still_processing (getFile env n nm) = true) ->
      forall fuel, run env fuel (mkRequest (Some u)) files = None) /\
  (forall n,
      (forall nm, still_processing (getFile env n nm) = false) ->
      (forall f w, polls w = 0 -> poll env (S n) f w <> None) /\
      (forall req files, run env (S n) req files <> None)) /\
  (forall k, exists f, forall fuel w,
      polls w = 0 ->
      if Nat.leb fuel k then poll (processing_for k) fuel f w = None
      else exists f' w',
          poll (processing_for k) fuel f w = Some (Ok f', w') /\ polls w' = S k).
Proof.
  split; [|split; [|split]].
  - intros fuel f w r w' H. apply poll_sound in H.
    destruct H as (seen & _ & _ & ->). exists seen.
    split; [apply history_after_rounds|].
    split; [apply rounds_quiet | reflexivity].
  - intros u files Hup Hall fuel.
    destruct (run env fuel (mkRequest (Some u)) files) as [[r w]|] eqn:E;
      [|reflexivity].
    exfalso. apply run_sound in E. destruct E as (x & Htakes & _).
    assert (Hno : forall up seen res,
               uploadFile env (path u) (mimetype u) (path_basename (path u)) = Ok up ->
               polled env 0 up seen res -> False).
    { intros up seen res Hu Hp. rewrite Hu in Hup.
      exact (polled_never env 0 up seen res Hp Hup Hall). }
    destruct x; cbn [takes] in Htakes; unfold ready in Htakes.
    + rewrite Htakes in Hup. discriminate.
    + destruct Htakes as (Hu & Hp). eapply Hno; eassumption.
    + destruct Htakes as (Hu & Hp & _). eapply Hno; eassumption.
    + destruct Htakes as ((Hu & Hp & _) & _). eapply Hno; eassumption.
    + destruct Htakes as ((Hu & Hp & _) & _). eapply Hno; eassumption.
    + destruct Htakes as ((Hu & Hp & _) & _). eapply Hno; eassumption.
    + destruct Htakes as ((Hu & Hp & _) & _). eapply Hno; eassumption.
    + destruct Htakes as ((Hu & Hp & _) & _). eapply Hno; eassumption.
  - intros n Hn. split.
    + intros f w Hw. apply (poll_finishes env n n f w Hn). lia.
    + intros [[u|]] files.
      * intros E. apply run_pending in E. destruct E as (up & W & _ & HW & E).
        revert E. apply (poll_finishes env n n up W Hn). lia.
      * discriminate.
  - intros k. exists (remote_file "clip" "PROCESSING" "video/mp4"). intros fuel w Hw.
    pose proof (processing_for_poll k fuel 0 (remote_file "clip" "PROCESSING" "video/mp4")
                  w eq_refl Hw (Nat.le_0_l k)) as H.
    now rewrite Nat.sub_0_r in H.
Qed.

Lemma poll_interval_and_termination_witness :
  (forall fuel, run stuck_service fuel sample_request sample_files = None) /\
  run slow_service 2 sample_request sample_files <> None.
Proof.
  split.
  - apply (proj1 (proj2 (poll_interval_and_termination stuck_service))).
    + reflexivity.
    + intros [|n] nm; reflexivity.
  - apply (proj1 (proj2 (proj2 (poll_interval_and_termination slow_service))) 1).
    intros nm. reflexivity.
Defined.

(** Splits a conjunction into its parts, leaving definitions folded. *)
Ltac conjs := repeat match goal with |- _ /\ _ => split end.

(** Builds the turns of the loop for a scripted service. *)
Ltac run_polls :=
  repeat (eapply polled_step; [reflexivity | reflexivity | ]);
  apply polled_done; reflexivity.

(** C5: when the loop ends with the file in state FAILED (at the upload or
    after any number of queries), the request ends with the response 500
    and its fixed body, which is the only response written, and no
    generation request was made. *)
Theorem failed_processing_aborts (env : Env) (fuel : nat) (u : Upload)
  (files : list string) (up : File) (seen : list File) (f : File) :
  uploadFile env (path u) (mimetype u) (path_basename (path u)) = Ok up ->
  polled env 0 up seen (Ok f) ->
  state f = "FAILED" ->
  length seen <= fuel ->
  exists r w,
    run env fuel (mkRequest (Some u)) files = Some (r, w) /\
    sent w = Some (500%Z, failure_body) /\
    filter is_respond (history w) = [Respond 500 failure_body] /\
    generations (history w) = [].
Proof.
  intros Hup Hp Hf Hfuel.
  assert (Htakes : takes env 0 (path u) (mimetype u) (ProcessingFailed up seen f)).
  { cbn [takes]. repeat split; try assumption. now rewrite Hf. }
  exists (final_result u files (ProcessingFailed up seen f)),
         (final_world u files (ProcessingFailed up seen f)).
  split; [now apply run_complete|].
  rewrite history_final, request_responses, request_generations, generations_try_catch.
  repeat split.
Qed.

Lemma failed_processing_aborts_witness :
  exists r w,
    run failing_service 2 sample_request sample_files = Some (r, w) /\
    sent w = Some (500%Z, failure_body) /\
    generations (history w) = [].
Proof.
  destruct (failed_processing_aborts failing_service 2 sample_upload sample_files
              (remote_file "3f9c" "PROCESSING" "video/mp4")
              [remote_file "3f9c" "PROCESSING" "video/mp4";
               remote_file "clip" "PROCESSING" "video/mp4"]
              (remote_file "clip" "FAILED" "video/mp4"))
    as (r & w & Hrun & Hsent & _ & Hgen).
  - reflexivity.
  - run_polls.
  - reflexivity.
  - cbn. lia.
  - exists r, w. repeat split; assumption.
Defined.

(** ** Response extractor *)

Lemma parse_empty : Json.parse EmptyString = None.
Proof. reflexivity. Qed.

(** C6: once the model has answered with [text], if the pattern does not
    match, or if the text of the matched block is not valid JSON, the
    request ends with the response 500 and its fixed body, and that is the
    only response written: nothing of the model output reaches the client. *)
Theorem extraction_all_or_nothing (env : Env) (fuel : nat) (u : Upload)
  (files : list string) (up : File) (seen : list File) (f : File) (text : string) :
  ready env 0 (path u) (mimetype u) up seen f ->
  generated env f = Ok (Ok text) ->
  length seen <= fuel ->
  (match_json_fence text = None \/
   exists m, match_json_fence text = Some m /\ Json.parse (group1 m) = None) ->
  exists r w,
    run env fuel (mkRequest (Some u)) files = Some (r, w) /\
    sent w = Some (500%Z, failure_body) /\
    filter is_respond (history w) = [Respond 500 failure_body].
Proof.
  intros Hready Hgen Hfuel Hbad.
  assert (Hx : exists x,
             takes env 0 (path u) (mimetype u) x /\ rounds x = length seen /\
             answered x = None).
  { destruct (rawJson text) as [raw|] eqn:Hraw.
    - exists (BadJson up seen f text raw (syntaxError env raw)). cbn [takes rounds answered].
      conjs; try assumption; try reflexivity.
      destruct (rawJson_some _ _ Hraw) as (m & Hm & <- & _).
      destruct Hbad as [Hnone | (m' & Hm' & Hparse)]; [congruence|].
      congruence.
    - exists (NoFence up seen f text). cbn [takes rounds answered].
      conjs; try assumption; reflexivity. }
  destruct Hx as (x & Htakes & Hrounds & Hans).
  exists (final_result u files x), (final_world u files x).
  split; [apply run_complete; [assumption | lia]|].
  rewrite history_final, request_responses.
  unfold final_world, response; cbn [sent]. rewrite Hans. repeat split.
Qed.

Lemma extraction_all_or_nothing_witness :
  exists r w,
    run (answering "The candidate did well.") 0 sample_request sample_files
    = Some (r, w) /\
    sent w = Some (500%Z, failure_body).
Proof.
  destruct (extraction_all_or_nothing (answering "The candidate did well.") 0
              sample_upload sample_files
              (remote_file "3f9c" "ACTIVE" "video/mp4") []
              (remote_file "3f9c" "ACTIVE" "video/mp4") "The candidate did well.")
    as (r & w & Hrun & Hsent & _).
  - split; [reflexivity|]. split; [run_polls | reflexivity].
  - reflexivity.
  - cbn. lia.
  - left. reflexivity.
  - exists r, w. split; assumption.
Defined.

(** The text of the first fenced block, when it is valid JSON, is parsed
    and the value is given to [res.json] as it is. *)
Lemma first_block_is_body (env : Env) (fuel : nat) (u : Upload) (files : list string)
  (up : File) (seen : list File) (f : File) (pre payload post : string) (v : JSON) :
  ready env 0 (path u) (mimetype u) up seen f ->
  generated env f = Ok (Ok (pre ++ fence_open ++ payload ++ fence_close ++ post)) ->
  length seen <= fuel ->
  occurs fence_open (pre ++ fence_stem) = false ->
  occurs fence_close payload = false ->
  Json.parse payload = Some v ->
  exists r w,
    run env fuel (mkRequest (Some u)) files = Some (r, w) /\
    sent w = Some (200%Z, v).
Proof.
  intros Hready Hgen Hfuel Hpre Hpayload Hparse.
  set (text := pre ++ fence_open ++ payload ++ fence_close ++ post) in *.
  assert (Hraw : rawJson text = Some payload).
  { unfold rawJson, match_json_fence, text.
    rewrite (exec_from_first payload post pre 0 Hpre Hpayload). cbn [group1].
    destruct (String.eqb payload EmptyString) eqn:E; [|reflexivity].
    apply String.eqb_eq in E. subst payload. rewrite parse_empty in Hparse.
    discriminate. }
  set (x := Responded up seen f text payload v (deleteFile env (name f))).
  exists (final_result u files x), (final_world u files x).
  split; [|reflexivity].
  apply run_complete; [|exact Hfuel].
  cbn [x takes]. conjs; try assumption; reflexivity.
Qed.



(** ** Release of the remote file *)

Lemma polled_with_deleteFile (env : Env) (del : string -> Result unit) p f seen r :
  polled env p f seen r -> polled (with_deleteFile env del) p f seen r.
Proof.
  induction 1 as [p f Hp | p f e Hp Hg | p f f' seen r Hp Hg _ IH].
  - now apply polled_done.
  - now apply polled_throw.
  - now apply polled_step with f'.
Qed.

Lemma takes_with_deleteFile (env : Env) (del : string -> Result unit) n p mime x :
  takes env n p mime x ->
  takes (with_deleteFile env del) n p mime (redelete del x).
Proof.
  destruct x; cbn [takes redelete]; unfold ready, generated;
    cbn [with_deleteFile uploadFile generateContent deleteFile];
    intuition auto using polled_with_deleteFile.
Qed.

Lemma redelete_same (del : string -> Result unit) (x : Exit) :
  rounds (redelete del x) = rounds x /\ response (redelete del x) = response x.
Proof. destruct x; split; reflexivity. Qed.

(** The remote deletion in a finished request: it is requested on the path
    that wrote the 200 response, once, after that response, and for the
    file the loop handed over; on the paths that end with another response
    it is not requested.  Whatever [deleteFile] does, the client has the
    same response, and an error of [deleteFile] is logged. *)
Lemma deletion_follows_the_200 (env : Env) (fuel : nat) (u : Upload)
  (files : list string) (r : Result unit) (w : World) :
  run env fuel (mkRequest (Some u)) files = Some (r, w) ->
  (forall v, sent w = Some (200%Z, v) ->
     exists up seen f before after,
       ready env 0 (path u) (mimetype u) up seen f /\
       deletions (history w) = [name f] /\
       history w = (before ++ DeleteFile (name f) :: after)%list /\
       In (Respond 200 v) before) /\
  ((forall v, sent w <> Some (200%Z, v)) -> deletions (history w) = []) /\
  (forall del, exists r' w',
       run (with_deleteFile env del) fuel (mkRequest (Some u)) files = Some (r', w') /\
       sent w' = sent w /\
       (forall nm e, deletions (history w') = [nm] -> del nm = Throw e ->
                     In (LogError "Error during AI analysis:" e) (history w'))).
Proof.
  intros H. apply run_sound in H. destruct H as (x & Htakes & Hfuel & -> & ->).
  split; [|split].
  - intros v Hv. rewrite history_final, request_deletions, deletions_try_catch.
    destruct x; try discriminate.
    inversion Hv; subst. exists up, seen, f.
    rewrite request_events_blocks. cbn [try_events].
    exists ([LogInfo ("Received file: " ++ originalname u ++ ", saved to " ++ path u)]
              ++ generate_events (path u) (mimetype u) up seen f
              ++ [LogInfo "Received analysis from Gemini."; Respond 200 v])%list.
    eexists. split; [exact (proj1 Htakes)|]. split; [reflexivity|]. split.
    + rewrite <- !app_assoc. cbn [app]. reflexivity.
    + apply in_cons, in_or_app. right. now right; left.
  - intros Hno. rewrite history_final, request_deletions, deletions_try_catch.
    destruct x; try reflexivity.
    exfalso. apply (Hno v). reflexivity.
  - intros del.
    pose proof (takes_with_deleteFile env del 0 _ _ x Htakes) as Htakes'.
    destruct (redelete_same del x) as (Hrounds & Hresp).
    exists (final_result u files (redelete del x)), (final_world u files (redelete del x)).
    split; [apply run_complete; [exact Htakes' | now rewrite Hrounds]|].
    split; [unfold final_world; cbn [sent]; now rewrite Hresp|].
    intros nm e. rewrite history_final, request_deletions, deletions_try_catch.
    destruct x; cbn [redelete]; try discriminate.
    intros Hnm Hdel. inversion Hnm; subst nm.
    rewrite request_events_blocks. cbn [catch_events thrown answered].
    rewrite Hdel. apply in_cons, in_or_app. left. apply in_or_app. right. now left.
Qed.

(** C2 fails on the code, twice.  The deletion is a step of the [try]
    block that every failure skips: a request whose upload gave a handle and
    that ends with the 500 response has not asked for the remote file to be
    deleted.  So it is for a file that is ACTIVE and a generation request
    that is refused: upload, 500 response, no deletion.  And when the
    deletion itself fails after the 200 response, the failure is not only
    logged: the [catch] block tries to write a 500, which is refused, and
    the handler's promise is rejected; the client keeps the 200. *)
Theorem remote_file_leaked_on_failure :
  (forall (env : Env) (fuel : nat) (u : Upload) (files : list string)
          (r : Result unit) (w : World) (up : File),
      run env fuel (mkRequest (Some u)) files = Some (r, w) ->
      uploadFile env (path u) (mimetype u) (path_basename (path u)) = Ok up ->
      sent w = Some (500%Z, failure_body) ->
      deletions (history w) = []) /\
  uploadFile erroring_service "uploads/3f9c" "video/mp4" "3f9c"
  = Ok (remote_file "3f9c" "ACTIVE" "video/mp4") /\
  (exists r w,
      run erroring_service 0 sample_request sample_files = Some (r, w) /\
      uploads (history w) = [("uploads/3f9c", "video/mp4", "3f9c")] /\
      errors_logged (history w)
      = [("Error during AI analysis:", "500 Internal error encountered")] /\
      sent w = Some (500%Z, failure_body) /\
      deletions (history w) = []) /\
  (exists r w,
      run undeletable_service 2 sample_request sample_files = Some (r, w) /\
      deletions (history w) = ["files/abc123"] /\
      errors_logged (history w) = [("Error during AI analysis:", "403 Forbidden")] /\
      sent w = Some (200%Z, spec_example_value) /\
      responses (history w) = [(200%Z, spec_example_value)] /\
      r = Throw "Cannot set headers after they are sent to the client").
Proof.
  split; [|split; [reflexivity|split]].
  - intros env fuel u files r w up Hrun _ Hsent.
    apply (deletion_follows_the_200 env fuel u files r w Hrun).
    intros v Hv. rewrite Hsent in Hv. discriminate Hv.
  - destruct (run erroring_service 0 sample_request sample_files)
      as [[r w]|] eqn:E; [|vm_compute in E; discriminate].
    exists r, w. split; [reflexivity|].
    vm_compute in E. inversion E; subst. repeat split.
  - destruct (run undeletable_service 2 sample_request sample_files)
      as [[r w]|] eqn:E; [|vm_compute in E; discriminate].
    exists r, w. split; [reflexivity|].
    vm_compute in E. inversion E; subst. repeat split.
Qed.

Lemma remote_file_leaked_on_failure_witness :
  exists r w,
    run erroring_service 0 sample_request sample_files = Some (r, w) /\
    deletions (history w) = [].
Proof.
  destruct (run erroring_service 0 sample_request sample_files)
    as [[r w]|] eqn:E; [|vm_compute in E; discriminate].
  exists r, w. split; [reflexivity|].
  apply (proj1 remote_file_leaked_on_failure erroring_service 0 sample_upload
           sample_files r w (remote_file "3f9c" "ACTIVE" "video/mp4") E).
  - reflexivity.
  - vm_compute in E. inversion E; subst. reflexivity.
Defined.

(** ** The state of the file at the generation request *)

(** In a finished request a generation request is made for a file the loop
    handed over in a state that is neither PROCESSING nor FAILED. *)
Lemma generation_needs_ready (env : Env) (fuel : nat) (u : Upload)
  (files : list string) (r : Result unit) (w : World) (fileUri : string) :
  run env fuel (mkRequest (Some u)) files = Some (r, w) ->
  In fileUri (generations (history w)) ->
  exists up seen f,
    ready env 0 (path u) (mimetype u) up seen f /\ uri f = fileUri /\
    String.eqb (state f) "PROCESSING" = false /\
    String.eqb (state f) "FAILED" = false.
Proof.
  intros H. apply run_sound in H. destruct H as (x & Htakes & _ & -> & ->).
  rewrite history_final, request_generations, generations_try_catch.
  destruct x; cbn [In takes] in *; try tauto; intros [<-|[]];
    exists up, seen, f; destruct Htakes as (Hready & _);
    (split; [exact Hready|]); (split; [reflexivity|]);
    destruct Hready as (_ & Hp & Hf); (split; [|exact Hf]);
    exact (polled_result env 0 up seen f Hp).
Qed.

(** C8 fails on a file whose state is the unspecified one: the loop hands
    it over, the log calls it ACTIVE, and the generation request is made
    for it. *)
Theorem generation_without_active_state :
  let up := remote_file "3f9c" "STATE_UNSPECIFIED" "video/mp4" in
  uploadFile unspecified_service "uploads/3f9c" "video/mp4" "3f9c" = Ok up /\
  String.eqb (state up) "ACTIVE" = false /\
  exists r w,
    run unspecified_service 0 sample_request sample_files = Some (r, w) /\
    polls w = 0 /\
    In (LogInfo "File 3f9c is now ACTIVE.") (history w) /\
    generations (history w) = [uri up] /\
    sent w = Some (200%Z, spec_example_value).
Proof.
  cbv zeta. split; [reflexivity|]. split; [reflexivity|].
  eexists. eexists. split; [vm_compute; reflexivity|].
  split; [reflexivity|]. split; [|split; reflexivity].
  cbn. tauto.
Qed.

(** ** The body of a successful response *)

(** C9, as the code has it: the body of a 200 response is the value that
    [JSON.parse] gives for the text of the first fenced block of the model
    output, whatever that value is; it has the shape of the specification
    exactly when the parsed payload has it. *)
Theorem success_body_is_parsed_payload (env : Env) (fuel : nat) (u : Upload)
  (files : list string) (r : Result unit) (w : World) (v : JSON) :
  run env fuel (mkRequest (Some u)) files = Some (r, w) ->
  sent w = Some (200%Z, v) ->
  exists up seen f text raw,
    ready env 0 (path u) (mimetype u) up seen f /\
    generated env f = Ok (Ok text) /\
    rawJson text = Some raw /\
    Json.parse raw = Some v /\
    (conforms v = true <-> option_map conforms (Json.parse raw) = Some true).
Proof.
  intros H Hv. apply run_sound in H. destruct H as (x & Htakes & _ & -> & ->).
  destruct x; try discriminate.
  inversion Hv; subst. cbn [takes] in Htakes.
  destruct Htakes as (Hready & Hgen & Hraw & Hparse & _).
  exists up, seen, f, text, raw. conjs; try assumption.
  rewrite Hparse. cbn [option_map]. split; [intros ->; reflexivity | congruence].
Qed.

Lemma success_body_is_parsed_payload_witness :
  exists r w text raw,
    run (answering spec_example_text) 0 sample_request sample_files = Some (r, w) /\
    sent w = Some (200%Z, spec_example_value) /\
    rawJson text = Some raw /\
    Json.parse raw = Some spec_example_value.
Proof.
  destruct (run (answering spec_example_text) 0 sample_request sample_files)
    as [[r w]|] eqn:E; [|vm_compute in E; discriminate].
  assert (Hsent : sent w = Some (200%Z, spec_example_value)).
  { vm_compute in E. inversion E; subst. reflexivity. }
  destruct (success_body_is_parsed_payload (answering spec_example_text) 0
              sample_upload sample_files r w spec_example_value E Hsent)
    as (up & seen & f & text & raw & _ & _ & Hraw & Hparse & _).
  exists r, w, text, raw. split; [reflexivity|]. split; [exact Hsent|].
  split; [exact Hraw | exact Hparse].
Defined.

(** C9 as stated fails: a fenced block holding the empty object is answered
    with status 200 and that empty object as body. *)
Lemma success_body_unvalidated :
  ~ (forall (env : Env) (fuel : nat) (u : Upload) (files : list string)
            (r : Result unit) (w : World) (v : JSON),
        run env fuel (mkRequest (Some u)) files = Some (r, w) ->
        sent w = Some (200%Z, v) ->
        conforms v = true).
Proof.
  intros H.
  assert (E : exists r w,
             run (answering empty_object_text) 0 sample_request sample_files
             = Some (r, w) /\ sent w = Some (200%Z, JObject [])).
  { eexists. eexists. split; vm_compute; reflexivity. }
  destruct E as (r & w & Hrun & Hsent).
  pose proof (H _ _ _ _ _ _ _ Hrun Hsent) as Hshape. discriminate Hshape.
Qed.

(** ** The fence format *)

Lemma match_needs_literals (text : string) (m : Match) :
  match_json_fence text = Some m ->
  occurs fence_open text = true /\ occurs fence_close text = true /\
  occurs LF text = true.
Proof.
  intros H. apply exec_from_inv in H. destruct H as (_ & pre & rest & -> & _).
  split; [|split].
  - apply occurs_app_r, occurs_here.
  - do 3 apply occurs_app_r. apply occurs_here.
  - apply occurs_app_r. unfold fence_open. rewrite app_string_assoc.
    apply occurs_app_r, occurs_here.
Qed.

(** C10: a match needs the opening fence followed at once by a line feed,
    and a line feed followed at once by the closing fence; its group is the
    text between the two, up to the first closing fence.  A text without
    one of the two literals, in particular a text on one line, has no
    match, and the request ends with the response 500 after the format
    error.  When the text has several blocks the match is the first one
    (the earliest opening fence, the shortest group), and the text of that
    block alone decides the response. *)
Theorem fence_format_and_first_block :
  (forall text m,
      match_json_fence text = Some m ->
      exists pre post,
        text = pre ++ "```json" ++ LF ++ group1 m ++ LF ++ "```" ++ post /\
        index m = String.length pre /\
        occurs (LF ++ "```") (group1 m) = false) /\
  (forall text,
      occurs ("```json" ++ LF) text = false \/ occurs (LF ++ "```") text = false \/
      occurs LF text = false ->
      match_json_fence text = None) /\
  match_json_fence one_line_text = None /\
  (forall (env : Env) (fuel : nat) (u : Upload) (files : list string)
          (up : File) (seen : list File) (f : File) (text : string),
      ready env 0 (path u) (mimetype u) up seen f ->
      generated env f = Ok (Ok text) ->
      length seen <= fuel ->
      match_json_fence text = None ->
      exists r w,
        run env fuel (mkRequest (Some u)) files = Some (r, w) /\
        sent w = Some (500%Z, failure_body) /\
        In (LogError "Error during AI analysis:"
                     "Could not extract JSON from AI response.") (history w)) /\
  (forall pre g post,
      occurs fence_open (pre ++ fence_stem) = false ->
      occurs fence_close g = false ->
      match_json_fence (pre ++ fence_open ++ g ++ fence_close ++ post)
      = Some (mkMatch (String.length pre) g)) /\
  (forall (env : Env) (fuel : nat) (u : Upload) (files : list string)
          (up : File) (seen : list File) (f : File) (pre g post : string),
      ready env 0 (path u) (mimetype u) up seen f ->
      generated env f = Ok (Ok (pre ++ fence_open ++ g ++ fence_close ++ post)) ->
      length seen <= fuel ->
      occurs fence_open (pre ++ fence_stem) = false ->
      occurs fence_close g = false ->
      exists r w,
        run env fuel (mkRequest (Some u)) files = Some (r, w) /\
        sent w = Some (match Json.parse g with
                       | Some v => (200%Z, v)
                       | None => (500%Z, failure_body)
                       end)).
Proof.
  split; [|split; [|split; [|split; [|split]]]].
  - intros text m H. apply exec_from_inv in H.
    destruct H as (Hocc & pre & rest & -> & Hi).
    exists pre, rest. split; [reflexivity|]. split; [exact Hi | exact Hocc].
  - intros text H.
    destruct (match_json_fence text) as [m|] eqn:E; [|reflexivity].
    destruct (match_needs_literals text m E) as (H1 & H2 & H3).
    change ("```json" ++ LF) with fence_open in H.
    change (LF ++ "```") with fence_close in H.
    destruct H as [H|[H|H]]; congruence.
  - reflexivity.
  - intros env fuel u files up seen f text Hready Hgen Hfuel Hnone.
    set (x := NoFence up seen f text).
    exists (final_result u files x), (final_world u files x).
    split; [|split; [reflexivity|]].
    + apply run_complete; [|exact Hfuel].
      cbn [x takes]. conjs; try assumption.
      unfold rawJson. now rewrite Hnone.
    + rewrite history_final, request_events_blocks.
      apply in_cons, in_or_app. left. apply in_or_app. right. now left.
  - intros pre g post Hpre Hg. unfold match_json_fence.
    now rewrite (exec_from_first g post pre 0 Hpre Hg).
  - intros env fuel u files up seen f pre g post Hready Hgen Hfuel Hpre Hg.
    set (text := pre ++ fence_open ++ g ++ fence_close ++ post) in *.
    assert (Hm : match_json_fence text = Some (mkMatch (String.length pre) g)).
    { unfold match_json_fence, text.
      now rewrite (exec_from_first g post pre 0 Hpre Hg). }
    assert (Hx : exists x,
               takes env 0 (path u) (mimetype u) x /\ rounds x = length seen /\
               response x = match Json.parse g with
                            | Some v => (200%Z, v)
                            | None => (500%Z, failure_body)
                            end).
    { destruct (String.eqb g EmptyString) eqn:Eg.
      - exists (NoFence up seen f text).
        apply String.eqb_eq in Eg. subst g. rewrite parse_empty.
        cbn [takes rounds response answered]. conjs; try assumption; try reflexivity.
        unfold rawJson. now rewrite Hm.
      - assert (Hraw : rawJson text = Some g)
          by (unfold rawJson; rewrite Hm; cbn [group1]; now rewrite Eg).
        destruct (Json.parse g) as [v|] eqn:Hparse.
        + exists (Responded up seen f text g v (deleteFile env (name f))).
          cbn [takes rounds response answered]. conjs; try assumption; reflexivity.
        + exists (BadJson up seen f text g (syntaxError env g)).
          cbn [takes rounds response answered]. conjs; try assumption; reflexivity. }
    destruct Hx as (x & Htakes & Hrounds & Hresp).
    exists (final_result u files x), (final_world u files x).
    split; [apply run_complete; [assumption | lia]|].
    unfold final_world; cbn [sent]. now rewrite Hresp.
Qed.

Lemma fence_format_and_first_block_witness :
  exists r w,
    run (answering (spec_example_text ++ empty_object_text)) 0
        sample_request sample_files = Some (r, w) /\
    sent w = Some (200%Z, spec_example_value).
Proof.
  destruct (proj2 (proj2 (proj2 (proj2 (proj2 fence_format_and_first_block))))
              (answering (spec_example_text ++ empty_object_text)) 0
              sample_upload sample_files
              (remote_file "3f9c" "ACTIVE" "video/mp4") []
              (remote_file "3f9c" "ACTIVE" "video/mp4")
              "prefix " spec_example_payload (" suffix" ++ empty_object_text))
    as (r & w & Hrun & Hsent).
  - split; [reflexivity|]. split; [run_polls | reflexivity].
  - vm_compute. reflexivity.
  - cbn. lia.
  - vm_compute. reflexivity.
  - vm_compute. reflexivity.
  - exists r, w. split; [exact Hrun|]. rewrite Hsent. vm_compute. reflexivity.
Defined.

(** * Further properties of the handler *)

Section HandlerFacts.

#[local] Open Scope list_scope.

(** A reading that ignores the events of the loop ignores its turns. *)
Lemma rounds_silent {A : Type} (g : Event -> list A) (seen : list File) :
  (forall f, flat_map g (round f) = []) ->
  flat_map g (flat_map round seen) = [].
Proof.
  intros Hg. induction seen as [|f seen IH]; [reflexivity|].
  cbn [flat_map]. now rewrite flat_map_app, Hg, IH.
Qed.

(** Every path leaves the loop after some turns, then takes one exit. *)
Lemma takes_exists (env : Env) (n : nat) (p mime : string) (up : File)
  (seen : list File) (res : Result File) :
  uploadFile env p mime (path_basename p) = Ok up ->
  polled env n up seen res ->
  exists x, takes env n p mime x /\ seen_of x = seen.
Proof.
  intros Hup Hp. destruct res as [f|e].
  2:{ exists (PollFailed up seen e). now split. }
  destruct (String.eqb (state f) "FAILED") eqn:Hf.
  { exists (ProcessingFailed up seen f). now split. }
  assert (Hready : ready env n p mime up seen f) by (repeat split; assumption).
  destruct (generated env f) as [[text|e]|e] eqn:Hgen.
  2:{ exists (TextFailed up seen f e). now split. }
  2:{ exists (GenerateFailed up seen f e). now split. }
  destruct (rawJson text) as [raw|] eqn:Hraw.
  2:{ exists (NoFence up seen f text). now split. }
  destruct (Json.parse raw) as [v|] eqn:Hparse.
  - exists (Responded up seen f text raw v (deleteFile env (name f))). now split.
  - exists (BadJson up seen f text raw (syntaxError env raw)). now split.
Qed.

Lemma rounds_seen_of (x : Exit) : rounds x = length (seen_of x).
Proof. destruct x; reflexivity. Qed.

(** An error that ends the loop is the error of one of its queries. *)
Lemma polled_throw_source (env : Env) (n : nat) (up : File) (seen : list File)
  (e : string) :
  polled env n up seen (Throw e) -> exists k nm, getFile env k nm = Throw e.
Proof.
  remember (Throw e) as res eqn:Hres.
  induction 1 as [p f Hp | p f e' Hp Hg | p f f' seen res Hp Hg _ IH].
  - discriminate.
  - inversion Hres; subst. now exists p, (name f).
  - now apply IH.
Qed.

Lemma queries_rounds (seen : list File) :
  length (queries (flat_map round seen)) = length seen.
Proof.
  induction seen as [|f seen IH]; [reflexivity|].
  cbn [flat_map]. unfold queries in *. rewrite flat_map_app, length_app, IH.
  reflexivity.
Qed.

Lemma waits_rounds (seen : list File) :
  flat_map (fun e => match e with Sleep ms => [ms] | _ => [] end)
           (flat_map round seen)
  = repeat 10000%Z (length seen).
Proof. exact (proj2 (proj2 (proj2 (proj2 (rounds_quiet seen))))). Qed.

Lemma queries_rounds_length (seen : list File) :
  length (flat_map (fun e => match e with GetFile n => [n] | _ => [] end)
                   (flat_map round seen))
  = length seen.
Proof. exact (queries_rounds seen). Qed.

End HandlerFacts.

(** Reads a finished request's history through one of the readings. *)
Ltac read_history x :=
  rewrite history_final, request_events_blocks;
  destruct x as [e|up seen e|up seen f|up seen f e|up seen f e|up seen f text
                |up seen f text raw msg|up seen f text raw v [[]|e]];
  cbn [try_events catch_events thrown answered response fst snd];
  unfold generate_events, upload_events;
  unfold errors_logged, uploads, queries, generation_requests, responses,
    unlinked, waits, deletions, generations;
  rewrite ?flat_map_app;
  rewrite ?rounds_silent by reflexivity;
  cbn [flat_map app].

(** X1: a request that comes to its end has written exactly one response:
    400 with the missing-file body when it carried no file; otherwise 200,
    or 500 with the one fixed body, whatever went wrong. *)
Theorem one_response_per_request (env : Env) (fuel : nat) (req : Request)
  (files : list string) (r : Result unit) (w : World) :
  run env fuel req files = Some (r, w) ->
  exists code body,
    sent w = Some (code, body) /\
    responses (history w) = [(code, body)] /\
    ((file req = None /\ code = 400%Z /\ body = no_file_body) \/
     (file req <> None /\ code = 500%Z /\ body = failure_body) \/
     (file req <> None /\ code = 200%Z)).
Proof.
  destruct req as [[u|]]; intros H.
  - apply run_sound in H. destruct H as (x & _ & _ & -> & ->).
    exists (fst (response x)), (snd (response x)).
    split; [unfold final_world; cbn [sent]; now destruct (response x)|].
    split.
    + read_history x; destruct (on_disk u files); reflexivity.
    + destruct x; cbn; (right; left; now repeat split) || (right; right; now split).
  - cbv [run analyze file res_status_json initial sent fs polls trace] in H.
    inversion H; subst. exists 400%Z, no_file_body.
    split; [reflexivity|]. split; [reflexivity|]. left. now repeat split.
Qed.

Lemma one_response_per_request_witness :
  exists r w code body,
    run failing_service 2 sample_request sample_files = Some (r, w) /\
    responses (history w) = [(code, body)].
Proof.
  destruct (run failing_service 2 sample_request sample_files) as [[r w]|] eqn:E;
    [|vm_compute in E; discriminate].
  destruct (one_response_per_request failing_service 2 sample_request sample_files
              r w E) as (code & body & _ & H & _).
  exists r, w, code, body. split; [reflexivity | exact H].
Defined.

(** X2: a finished request has removed its temporary file from the disk
    and no other file. *)
Theorem other_files_untouched (env : Env) (fuel : nat) (u : Upload)
  (files : list string) (r : Result unit) (w : World) :
  run env fuel (mkRequest (Some u)) files = Some (r, w) ->
  forall q, In q (fs w) <-> In q files /\ q <> path u.
Proof.
  intros H q. apply run_sound in H. destruct H as (x & _ & _ & -> & ->).
  unfold final_world; cbn [fs]. rewrite filter_In.
  destruct (String.eqb_spec (path u) q) as [E|E]; cbn.
  - split; [intros (_ & Hf); discriminate | intros (_ & Hq); congruence].
  - split; [intros (Hin & _); split; [exact Hin | congruence] | intros (Hin & _); now split].
Qed.

Lemma other_files_untouched_witness :
  exists r w,
    run slow_service 2 sample_request sample_files = Some (r, w) /\
    (In "uploads/0001" (fs w) <-> In "uploads/0001" sample_files /\ "uploads/0001" <> "uploads/3f9c").
Proof.
  destruct (run slow_service 2 sample_request sample_files) as [[r w]|] eqn:E;
    [|vm_compute in E; discriminate].
  exists r, w. split; [reflexivity|].
  exact (other_files_untouched slow_service 2 sample_upload sample_files r w E
           "uploads/0001").
Defined.

(** X3: a request that ends with the 500 response has logged exactly one
    error, and that error is the one thrown by the step that failed, the
    steps before it having succeeded: the upload; a state query of the
    loop; the FAILED state of the file the loop handed over, with the
    message naming that file; the generation request on the ready file; the
    reading of its text; the extraction, with its fixed message; or
    [JSON.parse] on the text of the first block, with the message of the
    engine for that text.  A request that logged no error has written the
    200 response and deleted the file the loop handed over. *)
Theorem failure_cause_logged (env : Env) (fuel : nat) (u : Upload)
  (files : list string) (r : Result unit) (w : World) :
  run env fuel (mkRequest (Some u)) files = Some (r, w) ->
  (sent w = Some (500%Z, failure_body) ->
   exists e,
     errors_logged (history w) = [("Error during AI analysis:", e)] /\
     (uploadFile env (path u) (mimetype u) (path_basename (path u)) = Throw e \/
      (exists up seen,
          uploadFile env (path u) (mimetype u) (path_basename (path u)) = Ok up /\
          polled env 0 up seen (Throw e)) \/
      (exists up seen f,
          uploadFile env (path u) (mimetype u) (path_basename (path u)) = Ok up /\
          polled env 0 up seen (Ok f) /\
          state f = "FAILED" /\
          e = "File processing failed for " ++ displayName f) \/
      (exists up seen f,
          ready env 0 (path u) (mimetype u) up seen f /\
          generated env f = Throw e) \/
      (exists up seen f,
          ready env 0 (path u) (mimetype u) up seen f /\
          generated env f = Ok (Throw e)) \/
      (exists up seen f text,
          ready env 0 (path u) (mimetype u) up seen f /\
          generated env f = Ok (Ok text) /\ rawJson text = None /\
          e = "Could not extract JSON from AI response.") \/
      (exists up seen f text raw,
          ready env 0 (path u) (mimetype u) up seen f /\
          generated env f = Ok (Ok text) /\
          rawJson text = Some raw /\ Json.parse raw = None /\
          e = syntaxError env raw))) /\
  (errors_logged (history w) = [] ->
   exists up seen f v,
     ready env 0 (path u) (mimetype u) up seen f /\
     sent w = Some (200%Z, v) /\ deletions (history w) = [name f] /\
     deleteFile env (name f) = Ok tt).
Proof.
  intros H. apply run_sound in H. destruct H as (x & Htakes & _ & -> & ->).
  split.
  - intros Hsent. unfold final_world in Hsent; cbn [sent] in Hsent.
    read_history x; cbn [response answered] in Hsent; try discriminate;
      cbn [takes] in Htakes;
      eexists; (split; [destruct (on_disk u files); reflexivity|]).
    + now left.
    + right; left. exists up, seen. exact Htakes.
    + do 2 right; left. destruct Htakes as (Hup & Hp & Hf).
      exists up, seen, f. conjs; try assumption; [now apply String.eqb_eq | reflexivity].
    + do 3 right; left. exists up, seen, f. exact Htakes.
    + do 4 right; left. exists up, seen, f. exact Htakes.
    + do 5 right; left. destruct Htakes as (Hr & Hg & Hraw).
      exists up, seen, f, text. conjs; try assumption. reflexivity.
    + do 6 right. destruct Htakes as (Hr & Hg & Hraw & Hparse & Hmsg).
      exists up, seen, f, text, raw. conjs; assumption.
  - read_history x; destruct (on_disk u files); cbn [app]; intros Hnone;
      try discriminate;
      cbn [takes] in Htakes; destruct Htakes as (Hr & _ & _ & _ & Hdel);
      exists up, seen, f, v; (split; [exact Hr|]);
      (split; [reflexivity|]); (split; [reflexivity | exact Hdel]).
Qed.

Lemma failure_cause_logged_witness :
  exists r w e,
    run failing_service 2 sample_request sample_files = Some (r, w) /\
    errors_logged (history w) = [("Error during AI analysis:", e)].
Proof.
  destruct (run failing_service 2 sample_request sample_files) as [[r w]|] eqn:E;
    [|vm_compute in E; discriminate].
  assert (Hsent : sent w = Some (500%Z, failure_body)).
  { vm_compute in E. inversion E; subst. reflexivity. }
  destruct (proj1 (failure_cause_logged failing_service 2 sample_upload sample_files
                     r w E) Hsent) as (e & He & _).
  exists r, w, e. split; [reflexivity | exact He].
Defined.

(** X4: after the 200 response, with the temporary file on the disk, the
    handler's promise is fulfilled exactly when [deleteFile] succeeds.  When
    [deleteFile] throws, the [catch] block logs the error, its own response
    is refused because one was already written, the promise is rejected
    with that refusal, the client keeps the 200 response, and the temporary
    file is still unlinked. *)
Theorem deletion_failure_rejects_handler (env : Env) (fuel : nat) (u : Upload)
  (files : list string) (r : Result unit) (w : World) (sentBody : JSON) :
  run env fuel (mkRequest (Some u)) files = Some (r, w) ->
  sent w = Some (200%Z, sentBody) ->
  existsb (String.eqb (path u)) files = true ->
  exists nm,
    deletions (history w) = [nm] /\
    (r = Ok tt <-> deleteFile env nm = Ok tt) /\
    (forall e, deleteFile env nm = Throw e ->
       r = Throw "Cannot set headers after they are sent to the client" /\
       responses (history w) = [(200%Z, sentBody)] /\
       errors_logged (history w) = [("Error during AI analysis:", e)] /\
       unlinked (history w) = [path u]).
Proof.
  intros H Hsent Hdisk. apply run_sound in H.
  destruct H as (x & Htakes & _ & -> & ->).
  unfold final_world in Hsent; cbn [sent] in Hsent.
  unfold final_result, on_disk. rewrite Hdisk.
  read_history x; cbn [response answered] in Hsent; try discriminate;
    inversion Hsent; subst; unfold on_disk; rewrite Hdisk;
    cbn [takes] in Htakes; destruct Htakes as (_ & _ & _ & _ & Hdel);
    exists (name f); (split; [reflexivity|]); rewrite Hdel; cbn [guarded_result thrown answered].
  - split; [tauto|]. intros e He. discriminate.
  - split; [split; discriminate|].
    intros e' He. inversion He; subst. repeat split.
Qed.

Lemma deletion_failure_rejects_handler_witness :
  exists r w,
    run undeletable_service 2 sample_request sample_files = Some (r, w) /\
    r = Throw "Cannot set headers after they are sent to the client" /\
    responses (history w) = [(200%Z, spec_example_value)].
Proof.
  destruct (run undeletable_service 2 sample_request sample_files)
    as [[r w]|] eqn:E; [|vm_compute in E; discriminate].
  assert (Hsent : sent w = Some (200%Z, spec_example_value)).
  { vm_compute in E. inversion E; subst. reflexivity. }
  destruct (deletion_failure_rejects_handler undeletable_service 2 sample_upload
              sample_files r w spec_example_value E Hsent eq_refl)
    as (nm & Hnm & _ & H).
  assert (Hname : nm = "files/abc123").
  { vm_compute in E. inversion E; subst. vm_compute in Hnm. now inversion Hnm. }
  subst nm. destruct (H "403 Forbidden" eq_refl) as (Hr & Hresp & _).
  exists r, w. split; [reflexivity|]. split; [exact Hr | exact Hresp].
Defined.

(** X5: the first thing a request with a file does, after logging the
    reception, is one upload of the temporary file, with the MIME type of
    the request and the base name of the path as display name; there is no
    second upload.  When the upload is refused, no state is queried, no
    generation is requested, nothing is deleted remotely, and the response
    is the 500. *)
Theorem upload_first_and_once (env : Env) (fuel : nat) (u : Upload)
  (files : list string) (r : Result unit) (w : World) :
  run env fuel (mkRequest (Some u)) files = Some (r, w) ->
  exists rest,
    history w =
      (LogInfo ("Received file: " ++ originalname u ++ ", saved to " ++ path u)
       :: UploadFile (path u) (mimetype u) (path_basename (path u)) :: rest)%list /\
    uploads rest = [] /\
    (forall e,
        uploadFile env (path u) (mimetype u) (path_basename (path u)) = Throw e ->
        queries rest = [] /\ generation_requests rest = [] /\
        deletions rest = [] /\ sent w = Some (500%Z, failure_body)).
Proof.
  intros H. apply run_sound in H. destruct H as (x & Htakes & _ & -> & ->).
  rewrite history_final, request_events_blocks. unfold final_world; cbn [sent].
  destruct x as [e|up seen e|up seen f|up seen f e|up seen f e|up seen f text
                |up seen f text raw msg|up seen f text raw v [[]|e]];
    cbn [try_events catch_events thrown answered response];
    unfold generate_events, upload_events; cbn [app];
    eexists; (split; [reflexivity|]);
    unfold uploads, queries, generation_requests, deletions;
    repeat (cbn [flat_map app]; rewrite ?flat_map_app);
    rewrite ?rounds_silent by reflexivity; cbn [flat_map app];
    (split; [destruct (on_disk u files); reflexivity|]);
    intros e0 He0; cbn [takes] in Htakes; unfold ready in Htakes;
    try (exfalso; intuition congruence).
  destruct (on_disk u files); repeat split.
Qed.

Lemma upload_first_and_once_witness :
  exists r w rest,
    run refusing_service 0 sample_request sample_files = Some (r, w) /\
    history w =
      (LogInfo "Received file: interview.mp4, saved to uploads/3f9c"
       :: UploadFile "uploads/3f9c" "video/mp4" "3f9c" :: rest)%list /\
    queries rest = [] /\ sent w = Some (500%Z, failure_body).
Proof.
  destruct (run refusing_service 0 sample_request sample_files)
    as [[r w]|] eqn:E; [|vm_compute in E; discriminate].
  destruct (upload_first_and_once refusing_service 0 sample_upload sample_files
              r w E) as (rest & Hh & _ & H).
  destruct (H "503 Service Unavailable" eq_refl) as (Hq & _ & _ & Hs).
  exists r, w, rest. split; [reflexivity|]. split; [exact Hh|]. split; assumption.
Defined.

(** X6: a finished request has made at most one generation request; it
    names the model gemini-2.0-flash, carries the fixed prompt, and refers
    to the file the loop handed over, by the MIME type and the URI of that
    file object. *)
Theorem generation_request_content (env : Env) (fuel : nat) (u : Upload)
  (files : list string) (r : Result unit) (w : World) :
  run env fuel (mkRequest (Some u)) files = Some (r, w) ->
  generation_requests (history w) = [] \/
  exists up seen f,
    ready env 0 (path u) (mimetype u) up seen f /\
    generation_requests (history w)
    = [("gemini-2.0-flash", analysisPrompt, mimeType f, uri f)].
Proof.
  intros H. apply run_sound in H. destruct H as (x & Htakes & _ & -> & ->).
  read_history x; cbn [takes] in Htakes;
    try (left; destruct (on_disk u files); reflexivity);
    right; exists up, seen, f; (split; [tauto|]);
    destruct (on_disk u files); reflexivity.
Qed.

Lemma generation_request_content_witness :
  exists r w,
    run slow_service 2 sample_request sample_files = Some (r, w) /\
    generation_requests (history w)
    = [("gemini-2.0-flash", analysisPrompt, "video/mp4", "https://files.example/abc123")].
Proof.
  destruct (run slow_service 2 sample_request sample_files) as [[r w]|] eqn:E;
    [|vm_compute in E; discriminate].
  exists r, w. split; [reflexivity|].
  destruct (generation_request_content slow_service 2 sample_upload sample_files
              r w E) as [H | (up & seen & f & _ & H)].
  - vm_compute in E. inversion E; subst. vm_compute in H. discriminate H.
  - vm_compute in E. inversion E; subst. vm_compute. reflexivity.
Defined.

(** X7: when the upload answers with a file whose state is not PROCESSING,
    the request comes to its end without any wait and without any state
    query, whatever the number of loop turns allowed. *)
Theorem ready_file_is_not_polled (env : Env) (fuel : nat) (u : Upload)
  (files : list string) (up : File) :
  uploadFile env (path u) (mimetype u) (path_basename (path u)) = Ok up ->
  String.eqb (state up) "PROCESSING" = false ->
  exists r w,
    run env fuel (mkRequest (Some u)) files = Some (r, w) /\
    polls w = 0 /\ queries (history w) = [] /\ waits (history w) = [].
Proof.
  intros Hup Hstate.
  destruct (takes_exists env 0 (path u) (mimetype u) up [] (Ok up) Hup
              (polled_done env 0 up Hstate)) as (x & Htakes & Hseen).
  exists (final_result u files x), (final_world u files x).
  split; [apply run_complete; [exact Htakes | rewrite rounds_seen_of, Hseen; cbn; lia]|].
  split; [unfold final_world; cbn [polls]; now rewrite rounds_seen_of, Hseen|].
  rewrite history_final, request_events_blocks.
  destruct x as [e|up' seen e|up' seen f|up' seen f e|up' seen f e|up' seen f text
                |up' seen f text raw msg|up' seen f text raw v [[]|e]];
    cbn [seen_of] in Hseen; subst;
    cbn [try_events catch_events thrown answered];
    unfold generate_events, upload_events; cbn [flat_map app];
    destruct (on_disk u files); split; reflexivity.
Qed.

Lemma ready_file_is_not_polled_witness :
  exists r w,
    run (answering spec_example_text) 0 sample_request sample_files = Some (r, w) /\
    polls w = 0 /\ waits (history w) = [].
Proof.
  destruct (ready_file_is_not_polled (answering spec_example_text) 0 sample_upload
              sample_files (remote_file "3f9c" "ACTIVE" "video/mp4") eq_refl eq_refl)
    as (r & w & Hrun & Hp & _ & Hw).
  exists r, w. split; [exact Hrun|]. split; assumption.
Defined.

(** X8: a finished request has waited 10000 ms once per state query and at
    no other point, and has made no more queries than the loop turns it
    was allowed. *)
Theorem request_waits_per_query (env : Env) (fuel : nat) (u : Upload)
  (files : list string) (r : Result unit) (w : World) :
  run env fuel (mkRequest (Some u)) files = Some (r, w) ->
  waits (history w) = repeat 10000%Z (polls w) /\
  length (queries (history w)) = polls w /\
  polls w <= fuel.
Proof.
  intros H. apply run_sound in H. destruct H as (x & _ & Hfuel & -> & ->).
  rewrite history_final. unfold final_world; cbn [polls].
  rewrite request_events_blocks.
  destruct x as [e|up seen e|up seen f|up seen f e|up seen f e|up seen f text
                |up seen f text raw msg|up seen f text raw v [[]|e]];
    cbn [try_events catch_events thrown answered rounds] in *;
    unfold generate_events, upload_events, waits, queries;
    repeat (cbn [flat_map app]; rewrite ?flat_map_app);
    rewrite ?waits_rounds; rewrite ?length_app, ?queries_rounds_length;
    destruct (on_disk u files); cbn [flat_map app length repeat];
    rewrite ?app_nil_r, ?Nat.add_0_r; repeat split; assumption.
Qed.

Lemma request_waits_per_query_witness :
  exists r w,
    run slow_service 5 sample_request sample_files = Some (r, w) /\
    waits (history w) = [10000%Z; 10000%Z] /\ polls w = 2.
Proof.
  destruct (run slow_service 5 sample_request sample_files) as [[r w]|] eqn:E;
    [|vm_compute in E; discriminate].
  destruct (request_waits_per_query slow_service 5 sample_upload sample_files r w E)
    as (Hw & _ & _).
  assert (Hp : polls w = 2) by (vm_compute in E; inversion E; subst; reflexivity).
  exists r, w. split; [reflexivity|]. split; [|exact Hp].
  rewrite Hw, Hp. reflexivity.
Defined.



(** X10: the pattern matches exactly the texts in which the opening fence
    with its line feed is followed, at any distance, by a line feed with
    the closing fence. *)
Theorem match_iff_fences_in_order (text : string) :
  match_json_fence text <> None <->
  exists pre mid post, text = pre ++ fence_open ++ mid ++ fence_close ++ post.
Proof.
  split.
  - destruct (match_json_fence text) as [m|] eqn:E; [|congruence].
    intros _. apply exec_from_inv in E. destruct E as (_ & pre & rest & -> & _).
    now exists pre, (group1 m), rest.
  - intros (pre & mid & post & ->). unfold match_json_fence. generalize 0.
    induction pre as [|c pre IH]; intros i.
    + cbn [append].
      assert (E : match_here (fence_open ++ mid ++ fence_close ++ post) <> None).
      { unfold match_here. rewrite strip_prefix_app.
        apply lazy_group_finds, occurs_app_r, occurs_here. }
      destruct (fence_open ++ mid ++ fence_close ++ post) eqn:Es;
        cbn [exec_from];
        destruct (match_here _); congruence.
    + cbn [append exec_from].
      destruct (match_here (String c (pre ++ fence_open ++ mid ++ fence_close ++ post)));
        [discriminate | apply IH].
Qed.


(** * Properties of the browser client *)

Section FrontendFacts.

Import Frontend.

(** X11: a submission without a selected file makes no request and only
    sets the error asking for a file; a submission with a file makes
    exactly one request, a POST to the analyze endpoint of port 5001 whose
    form data has the file in the one field named video; neither changes
    the selected file or its name. *)
Theorem submit_posts_the_file_once (eng : Engine)
  (fetch : FetchRequest -> option Settled) (st : State) :
  let st' := fst (handleSubmit eng fetch st) in
  let effects := snd (handleSubmit eng fetch st) in
  selectedFile st' = selectedFile st /\ fileName st' = fileName st /\
  match selectedFile st with
  | None =>
      fetches effects = [] /\
      st' = setError (Some "Please select a video file first.") st
  | Some f =>
      fetches effects
      = [mkFetchRequest "http://localhost:5001/analyze" "POST" [("video", f)]]
  end.
Proof.
  unfold handleSubmit. destruct (selectedFile st) as [f|] eqn:Hf; cbn zeta.
  - destruct (fetch _) as [o|]; [destruct (settled_data eng o)|];
      cbn [fst snd]; repeat split; cbn; auto.
  - cbn [fst snd]. repeat split; cbn; auto.
Qed.

(** X12: once [fetch] has settled, the loading flag is off and the
    component holds either the data of an ok response and no error, or an
    error message and no result; while [fetch] is in flight the flag is on
    and it holds neither.  A result or an error of an earlier submission
    never survives. *)
Theorem submit_result_or_error (eng : Engine)
  (fetch : FetchRequest -> option Settled) (st : State) (f : BrowserFile) :
  selectedFile st = Some f ->
  let st' := fst (handleSubmit eng fetch st) in
  match fetch (analyze_request f) with
  | None => isLoading st' = true /\ error st' = None /\ analysisResult st' = JNull
  | Some o =>
      isLoading st' = false /\
      ((exists data, o = Resolved true (Ok data) /\
                     analysisResult st' = data /\ error st' = None) \/
       (exists m, (forall data, o <> Resolved true (Ok data)) /\
                  error st' = Some m /\ analysisResult st' = JNull))
  end.
Proof.
  intros Hf. unfold handleSubmit, analyze_request. rewrite Hf. cbn zeta.
  destruct (fetch _) as [o|]; [|cbn; auto].
  destruct o as [m|[|] [data|m]]; cbn [settled_data negb].
  - cbn. split; [reflexivity|]. right. exists m. repeat split. intros; discriminate.
  - cbn. split; [reflexivity|]. left. now exists data.
  - cbn. split; [reflexivity|]. right. exists m. repeat split. intros; discriminate.
  - destruct (read_property k_error (Some data)) as [v|];
      cbn; (split; [reflexivity|]); right; eexists; repeat split;
      intros; discriminate.
  - cbn. split; [reflexivity|]. right. exists m. repeat split. intros; discriminate.
Qed.

Lemma submit_result_or_error_witness :
  let st' := fst (handleSubmit sample_engine
                    (fun _ => Some (Rejected "Failed to fetch")) sample_state) in
  isLoading st' = false /\ error st' = Some "Failed to fetch" /\
  analysisResult st' = JNull.
Proof.
  pose proof (submit_result_or_error sample_engine
                (fun _ => Some (Rejected "Failed to fetch")) sample_state
                sample_file eq_refl) as H.
  cbv zeta in *. destruct H as (Hl & _). split; [exact Hl|]. split; reflexivity.
Defined.

(** X13: for a response that is not ok, the error shown is the [error]
    member of the JSON body when that is a non-empty string, the fixed
    text for an unknown error when the body has no [error] member or an
    empty one, and the engine's message when the body is [null]. *)
Theorem error_message_from_body (eng : Engine)
  (fetch : FetchRequest -> option Settled) (st : State) (f : BrowserFile)
  (errData : JSON) :
  selectedFile st = Some f ->
  fetch (analyze_request f) = Some (Resolved false (Ok errData)) ->
  let shown := error (fst (handleSubmit eng fetch st)) in
  (forall s, get "error" errData = Some (JString s) -> s <> EmptyString ->
             shown = Some s) /\
  (errData <> JNull ->
   get "error" errData = None \/ get "error" errData = Some (JString EmptyString) ->
   shown = Some "An unknown error occurred.") /\
  (errData = JNull -> shown = Some (nullReadMessage eng)).
Proof.
  intros Hf Hfetch. unfold handleSubmit. rewrite Hf. cbn zeta.
  fold (analyze_request f). rewrite Hfetch. cbn [settled_data negb].
  split; [|split].
  - intros s Hget Hs. destruct errData; cbn in Hget; try discriminate.
    cbn [read_property key_name]. rewrite Hget. cbn [truthy_json].
    destruct (String.eqb_spec s EmptyString) as [E|E]; [contradiction|].
    reflexivity.
  - intros Hnull Hget.
    destruct errData; try contradiction; cbn [read_property key_name];
      try reflexivity.
    cbn [get] in Hget. destruct Hget as [Hget|Hget]; rewrite Hget; reflexivity.
  - intros ->. reflexivity.
Qed.

Lemma error_message_from_body_witness :
  error (fst (handleSubmit sample_engine
                (fun _ => Some (Resolved false (Ok failure_body))) sample_state))
  = Some "Failed to analyze the video. Please check the server logs.".
Proof.
  apply (proj1 (error_message_from_body sample_engine
                  (fun _ => Some (Resolved false (Ok failure_body))) sample_state
                  sample_file failure_body eq_refl eq_refl)).
  - reflexivity.
  - discriminate.
Defined.

(** The responses the handler can have written at its end. *)
Lemma server_answers (env : Env) (fuel : nat) (req : Request)
  (files : list string) (r : Result unit) (w : World) :
  run env fuel req files = Some (r, w) ->
  sent w = Some (400%Z, no_file_body) \/
  sent w = Some (500%Z, failure_body) \/
  exists v, sent w = Some (200%Z, v).
Proof.
  destruct req as [[u|]]; intros H.
  - apply run_sound in H. destruct H as (x & _ & _ & -> & ->).
    unfold final_world; cbn [sent].
    destruct x; cbn; auto. right; right. now exists v.
  - cbv [run analyze file res_status_json initial sent fs polls trace] in H.
    inversion H; subst. now left.
Qed.

(** X14: the client against the handler.  When [fetch] resolves with the
    status and the JSON body that a finished request of the handler has
    written, the submission ends with the loading flag off and either the
    body of the 200 response as result and no error, or the error text of
    the 400 or 500 body as error and no result. *)
Theorem client_shows_server_answer (env : Env) (fuel : nat) (req : Request)
  (files : list string) (r : Result unit) (w : World)
  (status : Z) (responseBody : JSON)
  (eng : Engine) (st : State) (f : BrowserFile) :
  run env fuel req files = Some (r, w) ->
  sent w = Some (status, responseBody) ->
  selectedFile st = Some f ->
  let st' := fst (handleSubmit eng (fun _ => Some (delivered status responseBody)) st) in
  isLoading st' = false /\
  ((status = 200%Z /\ analysisResult st' = responseBody /\ error st' = None) \/
   (status = 400%Z /\ error st' = Some "No video file uploaded." /\
    analysisResult st' = JNull) \/
   (status = 500%Z /\
    error st' = Some "Failed to analyze the video. Please check the server logs." /\
    analysisResult st' = JNull)).
Proof.
  intros Hrun Hsent Hf. unfold handleSubmit. rewrite Hf. cbn zeta.
  destruct (server_answers env fuel req files r w Hrun) as [H|[H|(v & H)]];
    rewrite H in Hsent; inversion Hsent; subst; cbn; auto 6.
Qed.

Lemma client_shows_server_answer_witness :
  exists r w,
    run failing_service 2 sample_request sample_files = Some (r, w) /\
    error (fst (handleSubmit sample_engine
                  (fun _ => Some (delivered 500 failure_body)) sample_state))
    = Some "Failed to analyze the video. Please check the server logs.".
Proof.
  destruct (run failing_service 2 sample_request sample_files) as [[r w]|] eqn:E;
    [|vm_compute in E; discriminate].
  assert (Hsent : sent w = Some (500%Z, failure_body)).
  { vm_compute in E. inversion E; subst. reflexivity. }
  destruct (client_shows_server_answer failing_service 2 sample_request sample_files
              r w 500%Z failure_body sample_engine sample_state sample_file
              E Hsent eq_refl) as (_ & [(H & _)|[(H & _)|(_ & H & _)]]);
    try discriminate H.
  exists r, w. split; [reflexivity | exact H].
Defined.

(** X15: building the results section.  A result with the shape of the
    specification gives the three cards, in order, with the score and the
    reasoning of each category as they are in the result, and its summary.
    A truthy result in which one of the three categories is missing or
    null makes [App] throw; these are the only results on which it throws.
    A falsy result gives no section. *)
Theorem results_render (st : State) :
  let a := analysisResult st in
  (conforms a = true ->
   exists view,
     App st = Some view /\
     results view =
       inr (mkResults
              [mkCard "English Speaking" "🇬🇧"
                      (get2 "english_speaking" "score" a)
                      (get2 "english_speaking" "reasoning" a);
               mkCard "Confidence" "💪"
                      (get2 "confidence" "score" a) (get2 "confidence" "reasoning" a);
               mkCard "Humility" "🤝"
                      (get2 "humility" "score" a) (get2 "humility" "reasoning" a)]
              (get "overall_summary" a))) /\
  (App st = None <->
   truthy_json a = true /\
   (absent "english_speaking" a || absent "confidence" a || absent "humility" a) = true) /\
  (truthy_json a = false -> exists view, App st = Some view /\ results view = inl a).
Proof.
  cbv zeta. unfold App.
  assert (Card_of : forall t i k v,
             ResultCard t i k v =
             if absent (key_name k) v then None
             else Some (mkCard t i (get2 (key_name k) "score" v)
                               (get2 (key_name k) "reasoning" v))).
  { intros t i k v. unfold ResultCard, absent, get2.
    destruct v as [| | | | |ms]; try reflexivity.
    cbn [read_property get].
    destruct (lookup_last (key_name k) ms) as [[| | | | |inner]|]; reflexivity. }
  assert (Section_of : forall v,
             results_section v =
             if truthy_json v then
               if absent "english_speaking" v || absent "confidence" v
                  || absent "humility" v
               then None
               else Some (inr (mkResults
                    [mkCard "English Speaking" "🇬🇧"
                            (get2 "english_speaking" "score" v)
                            (get2 "english_speaking" "reasoning" v);
                     mkCard "Confidence" "💪"
                            (get2 "confidence" "score" v) (get2 "confidence" "reasoning" v);
                     mkCard "Humility" "🤝"
                            (get2 "humility" "score" v) (get2 "humility" "reasoning" v)]
                    (get "overall_summary" v)))
             else Some (inl v)).
  { intros v. unfold results_section. rewrite !Card_of. cbn [key_name].
    destruct (truthy_json v) eqn:Ht; [|reflexivity].
    destruct (absent "english_speaking" v), (absent "confidence" v),
      (absent "humility" v); cbn [orb]; try reflexivity.
    destruct v; try discriminate Ht; reflexivity. }
  rewrite Section_of. split; [|split].
  - intros Hc.
    assert (Hshape : truthy_json (analysisResult st) = true /\
                     absent "english_speaking" (analysisResult st) = false /\
                     absent "confidence" (analysisResult st) = false /\
                     absent "humility" (analysisResult st) = false).
    { unfold conforms, absent in *.
      destruct (analysisResult st) as [| | | | |ms]; try discriminate Hc.
      cbn [get] in *.
      destruct (lookup_last "english_speaking" ms) as [e|]; [|discriminate Hc].
      destruct (lookup_last "confidence" ms) as [c|]; [|discriminate Hc].
      destruct (lookup_last "humility" ms) as [h|]; [|discriminate Hc].
      destruct (lookup_last "overall_summary" ms) as [[| | |s| |]|];
        try discriminate Hc.
      apply andb_prop in Hc. destruct Hc as (Hec & Hh).
      apply andb_prop in Hec. destruct Hec as (He & Hcf).
      repeat split; [destruct e|destruct c|destruct h];
        try reflexivity; discriminate. }
    destruct Hshape as (-> & -> & -> & ->). cbn [orb].
    eexists. split; reflexivity.
  - destruct (truthy_json (analysisResult st)).
    + destruct (absent "english_speaking" (analysisResult st)
                || absent "confidence" (analysisResult st)
                || absent "humility" (analysisResult st)).
      * split; auto.
      * split; [discriminate | intros (_ & H); discriminate].
    + split; [discriminate | intros (H & _); discriminate].
  - intros ->. eexists. split; reflexivity.
Qed.

Lemma results_render_witness :
  exists view,
    App (mkState None spec_example_value false None EmptyString) = Some view /\
    exists cs s, results view = inr (mkResults cs s) /\
                 nth_error cs 1
                 = Some (mkCard "Confidence" "💪" (Some (JNumber (number_of_Z 8)))
                                (Some (JString "steady"))).
Proof.
  destruct (proj1 (results_render (mkState None spec_example_value false None
                                           EmptyString)) eq_refl)
    as (view & Hview & Hres).
  exists view. split; [exact Hview|].
  eexists. eexists. split; [exact Hres | reflexivity].
Defined.

(** X16: while the request of a submission is in flight the view has the
    spinner, the button is disabled and reads Analyzing..., and neither an
    error nor a result of an earlier submission is shown. *)
Theorem in_flight_view (eng : Engine) (fetch : FetchRequest -> option Settled)
  (st : State) (f : BrowserFile) :
  selectedFile st = Some f ->
  fetch (analyze_request f) = None ->
  exists view,
    App (fst (handleSubmit eng fetch st)) = Some view /\
    spinner view = true /\ button_disabled view = true /\
    button_text view = "Analyzing..." /\
    error_shown view = None /\ results view = inl JNull.
Proof.
  intros Hf Hfetch. unfold handleSubmit. rewrite Hf. cbn zeta.
  fold (analyze_request f). rewrite Hfetch. cbn [fst].
  eexists. split; [reflexivity|]. repeat split.
Qed.

Lemma in_flight_view_witness :
  exists view,
    App (fst (handleSubmit sample_engine (fun _ => None) sample_state)) = Some view /\
    spinner view = true /\ button_disabled view = true.
Proof.
  destruct (in_flight_view sample_engine (fun _ => None) sample_state sample_file
              eq_refl eq_refl) as (view & Hview & Hs & Hb & _).
  exists view. split; [exact Hview|]. split; assumption.
Defined.

(** [handleSubmit] is its two steps in sequence. *)
Lemma handleSubmit_steps (eng : Engine) (fetch : FetchRequest -> option Settled)
  (st : State) (f : BrowserFile) :
  selectedFile st = Some f ->
  fst (handleSubmit eng fetch st) =
  match fetch (analyze_request f) with
  | None => submit_start st
  | Some o => submit_settle eng o (submit_start st)
  end.
Proof.
  intros Hf. unfold handleSubmit, submit_settle, analyze_request. rewrite Hf.
  cbn zeta. destruct (fetch _) as [o|]; [|reflexivity].
  destruct (settled_data eng o); reflexivity.
Qed.

(** X17: whatever the user does and however the requests settle, the page
    has the loading flag on exactly while a request is in flight, so that
    no second request is made before the first has settled; while a
    request is in flight it holds neither an error nor a result; it never
    holds an error together with a result; and without a selected file it
    holds nothing and no request is in flight. *)
Theorem page_invariant (eng : Engine) (p : Page) :
  reachable eng p ->
  isLoading (ui p) = in_flight p /\
  (error (ui p) = None \/ analysisResult (ui p) = JNull) /\
  (in_flight p = true ->
   error (ui p) = None /\ analysisResult (ui p) = JNull /\
   selectedFile (ui p) <> None) /\
  (selectedFile (ui p) = None ->
   in_flight p = false /\ analysisResult (ui p) = JNull /\ error (ui p) = None).
Proof.
  induction 1 as [|p q _ (IHl & IHe & IHf & IHs) Hstep].
  - cbn. repeat split; auto; discriminate.
  - destruct Hstep as [p [f|] | p f Hl Hf | p o Hfl].
    + cbn. split; [exact IHl|]. split; [now left|].
      split; [intros _; repeat split; discriminate | discriminate].
    + cbn [ui in_flight handleFileChange]. auto.
    + cbn. split; [reflexivity|]. split; [now left|]. split.
      * intros _. repeat split. congruence.
      * intros Hnone. congruence.
    + destruct (IHf Hfl) as (He & Ha & Hsel).
      cbn [ui in_flight]. unfold submit_settle.
      destruct (settled_data eng o) as [data|m]; cbn.
      * split; [reflexivity|]. split; [now left|].
        split; [discriminate | intros; contradiction].
      * split; [reflexivity|]. split; [now right|].
        split; [discriminate | intros; contradiction].
Qed.

Lemma page_invariant_witness :
  let p := mkPage (submit_settle sample_engine (Rejected "Failed to fetch")
                     (submit_start (handleFileChange (Some sample_file) initialState)))
                  false in
  isLoading (ui p) = false /\ analysisResult (ui p) = JNull.
Proof.
  cbv zeta.
  assert (Hreach : reachable sample_engine
            (mkPage (submit_settle sample_engine (Rejected "Failed to fetch")
                       (submit_start (handleFileChange (Some sample_file) initialState)))
                    false)).
  { eapply reachable_step;
      [eapply reachable_step;
         [eapply reachable_step; [apply reachable_initial|]|]|].
    - exact (step_choose sample_engine initialPage (Some sample_file)).
    - exact (step_click sample_engine
               (mkPage (handleFileChange (Some sample_file) initialState) false)
               sample_file eq_refl eq_refl).
    - exact (step_settle sample_engine
               (mkPage (submit_start (handleFileChange (Some sample_file) initialState))
                       true)
               (Rejected "Failed to fetch") eq_refl). }
  destruct (page_invariant sample_engine _ Hreach) as (Hl & [He|Ha] & _).
  - discriminate He.
  - split; [exact Hl | exact Ha].
Defined.

End FrontendFacts.
